(** * striptun: bandwidth analysis of a polarimeter (bandwidth.py, reports.py)

    A shallow embedding of the calibration core, the result aggregation,
    the values and the plot files of [main] and the report rendering, with
    the properties of the specification and further properties of the code
    stated over it.

    Numbers.  The program computes on IEEE doubles through numpy.  The
    embedding computes on exact rationals [Q]; a value of type [float] is
    [Some q] for the number [q] and [None] where numpy would hold a value
    that is not a finite number (the NaN of an empty median, of 0/0, the
    infinity of x/0).  [None] is absorbing for arithmetic, as NaN is.
    Rounding is not modelled, and an infinity is not told from a NaN: the
    two differ only in the order statistics of an array that holds an
    infinity, which none of the properties below concerns. *)

From Stdlib Require Import QArith Qabs Qround Qpower Lqa Lia ZArith String
  Ascii List.
From stdpp Require Import base option list gmap strings pretty sorting.

Set Default Proof Using "Type".

(** ** Python exceptions and results *)

Inductive exn :=
  | ValueError (msg : string)
  | IndexError (msg : string)
  | KeyError (key : string)
  | NameError (msg : string)
  | UnboundLocalError (var : string)
  | FileNotFoundError (path : string)
  | LinAlgError (msg : string)
  | MaskError (msg : string)
  | TypeError (msg : string).

Inductive result (A : Type) :=
  | Ok (a : A)
  | Raise (e : exn).
Arguments Ok {A} a.
Arguments Raise {A} e.

Global Instance result_ret : MRet result := λ A a, Ok a.
Global Instance result_bind : MBind result := λ A B f r,
  match r with Ok a => f a | Raise e => Raise e end.

(** ** Numbers and arrays *)

Global Instance Qeq_decision (x y : Q) : Decision (x == y)%Q := Qeq_dec x y.
Global Instance Qlt_decision (x y : Q) : Decision (x < y)%Q.
Proof. destruct (Qlt_le_dec x y); [left | right]; [done | by apply Qle_not_lt]. Defined.
Global Instance Qle_decision (x y : Q) : Decision (x <= y)%Q.
Proof. destruct (Qlt_le_dec y x); [right | left]; [by apply Qlt_not_le | done]. Defined.

Module Numpy.

Definition float := option Q.

Definition fin (q : Q) : float := Some q.
Definition nan : float := None.

Definition fadd (a b : float) : float := x ← a; y ← b; Some (x + y)%Q.
Definition fsub (a b : float) : float := x ← a; y ← b; Some (x - y)%Q.
Definition fmul (a b : float) : float := x ← a; y ← b; Some (x * y)%Q.
(** Division by zero yields nan or an infinity in numpy, both [None] here. *)
Definition fdiv (a b : float) : float :=
  x ← a; y ← b; if Qeq_bool y 0 then None else Some (x / y)%Q.
Definition fabs (a : float) : float := x ← a; Some (Qabs x).
Definition fsquare (a : float) : float := fmul a a.

(** Equality of floats as numbers. *)
Definition feq (a b : float) : Prop :=
  match a, b with
  | Some x, Some y => (x == y)%Q
  | None, None => True
  | _, _ => False
  end.

(** The numbers of an array, unless one of its entries is not finite. *)
Definition finite (l : list float) : option (list Q) := mapM id l.

(** [np.sum] of a one-dimensional array. *)
Definition fsum (l : list float) : float := foldr fadd (fin 0) l.
Definition qsum (l : list Q) : Q := foldr Qplus 0%Q l.

(** *** Two-dimensional arrays

    An array of shape (samples, detectors) is the list of its detector
    columns, each the list of its samples: the reductions of the program
    along [axis=0] act on one column at a time.  [len(data)] is the number
    of samples, [data.shape[-1]] the number of columns. *)
Definition matrix := list (list float).

Definition nrows (m : matrix) : nat :=
  match m with [] => 0%nat | c :: _ => length c end.

(** Row [i] of a matrix, and the list of its rows (for [axis=1]). *)
Definition row (m : matrix) (i : nat) : list float :=
  map (λ c, default nan (c !! i)) m.
Definition rows (m : matrix) : list (list float) :=
  map (row m) (seq 0 (nrows m)).

(** [np.sum(m, axis=0)]. *)
Definition sum_axis0 (m : matrix) : list float := map fsum m.

(** *** Indexing *)

(** [a[0]] of a one-dimensional array. *)
Definition index0 {A} (a : list A) : result A :=
  match a with
  | x :: _ => Ok x
  | [] => Raise (IndexError "index 0 is out of bounds for axis 0 with size 0")
  end.

(** [a[i]] for an index [i >= 0]. *)
Definition index {A} (a : list A) (i : nat) : result A :=
  match a !! i with
  | Some x => Ok x
  | None => Raise (IndexError "index is out of bounds for axis 0")
  end.

(** Python's [l[lo:hi]]: a negative bound counts from the end, and both
    bounds are clipped to the list. *)
Definition slice_bound (n : nat) (i : Z) : nat :=
  if (i <? 0)%Z then Z.to_nat (i + Z.of_nat n) else Nat.min (Z.to_nat i) n.
Definition py_slice {A} (lo hi : Z) (l : list A) : list A :=
  let a := slice_bound (length l) lo in
  let b := slice_bound (length l) hi in
  take (b - a) (drop a l).

(** [a[mask]] for a boolean mask over the entries of [a]. *)
Fixpoint mask_select {A} (mask : list bool) (a : list A) : list A :=
  match mask, a with
  | b :: mask', x :: a' =>
      if b then x :: mask_select mask' a' else mask_select mask' a'
  | _, _ => []
  end.

Definition bool_index_error : exn :=
  IndexError "boolean index did not match indexed array along axis 0".

(** [data[mask]]: the mask selects samples and must have one entry per
    sample. *)
Definition bool_index (mask : list bool) (data : matrix) : result matrix :=
  if decide (Forall (λ c, length c = length mask) data)
  then Ok (map (mask_select mask) data)
  else Raise bool_index_error.

(** *** Doubles

    The double nearest a rational number, for the test that the program
    makes on the last digits of its numbers: the closeness of the
    frequency steps. *)

(** The exponent of a positive rational [a]: the integer [e] with
    2^e <= a < 2^(e+1). *)
Definition exponent (a : Q) : Z :=
  if Qle_bool 1 a then Z.log2 (Qfloor a)
  else (- Z.log2_up (Qceiling (/ a)))%Z.

(** Rounding to the nearest integer, a tie to the even one. *)
Definition round_half_even (m : Q) : Z :=
  let f := Qfloor m in
  match (m - inject_Z f ?= 1 # 2)%Q with
  | Lt => f
  | Gt => (f + 1)%Z
  | Eq => if Z.even f then f else (f + 1)%Z
  end.

(** The double nearest a positive rational: 53 binary digits from the
    exponent down, fewer below 2^-1022, and an infinity ([None]) when
    the rounded value reaches 2^1024. *)
Definition nearest_double (a : Q) : option Q :=
  let s := (Z.max (exponent a) (-1022) - 52)%Z in
  let v := (inject_Z (round_half_even (a * 2 ^ (- s))) * 2 ^ s)%Q in
  if Qle_bool (2 ^ 1024) v then None else Some v.

Definition round64 (q : Q) : option Q :=
  let r := Qred q in
  if Qeq_bool r 0 then Some 0%Q
  else if Qle_bool 0 r then nearest_double r
  else Qopp <$> nearest_double (- r).

(** The double that a decimal literal of the source denotes. *)
Definition double (q : Q) : Q := default 0%Q (round64 q).

(** *** Differences and closeness *)

(** [nu[1:] - nu[:-1]]. *)
Definition np_diff (nu : list Q) : list Q :=
  zip_with Qminus (drop 1 nu) (take (length nu - 1) nu).

(** numpy's default tolerances, the doubles 1e-05 and 1e-08. *)
Definition rtol : Q := double (1 # 100000).
Definition atol : Q := double (1 # 100000000).

(** [np.isclose(x, b)] as numpy computes it on the doubles [x'] and
    [b'] nearest [x] and [b]: finite doubles pass the test
    abs(x' - b') <= atol + rtol * abs(b'), in which every operation
    rounds to the nearest double and an overflow is an infinity, and
    doubles of which one is infinite are close when they are equal.
    [np.allclose(a, b)] is this test on every entry of [a], for a
    scalar [b]. *)
Definition isclose (x b : Q) : bool :=
  match round64 x, round64 b with
  | Some x', Some b' =>
      match round64 (x' - b'),
            t ← round64 (rtol * Qabs b'); round64 (atol + t) with
      | Some d, Some tol => Qle_bool (Qabs d) tol
      | None, Some _ => false
      | _, None => true
      end
  | None, None => Bool.eqb (Qle_bool 0 x) (Qle_bool 0 b)
  | _, _ => false
  end.
Definition allclose (a : list Q) (b : Q) : bool := forallb (λ x, isclose x b) a.

(** Sums, products and quotients of doubles, rounded to the nearest
    double; [None] stands for their infinities and NaN.  Up to seven
    numbers are added by [np.sum] one after the other, from 0. *)
Definition dadd (a b : float) : float := x ← a; y ← b; round64 (x + y).
Definition dmul (a b : float) : float := x ← a; y ← b; round64 (x * y).
Definition ddiv (a b : float) : float :=
  x ← a; y ← b; if Qeq_bool y 0 then None else round64 (x / y).
Definition dsum (l : list float) : float := foldl dadd (fin 0) l.

Definition broadcast_error : exn :=
  ValueError "operands could not be broadcast together".

(** One column of [data * nu[..., None]], for [nu] of length N >= 2: the
    samples are paired with the frequencies when there are N of them, and
    a single sample is repeated along the frequency axis. *)
Definition mul_nu (nu : list Q) (c : list float) : result (list float) :=
  if decide (length c = length nu) then
    Ok (zip_with (λ d x, fmul d (fin x)) c nu)
  else match c with
       | [d] => Ok (map (λ x, fmul d (fin x)) nu)
       | _ => Raise broadcast_error
       end.

(** *** Order statistics *)

Fixpoint insert_sorted (x : Q) (l : list Q) : list Q :=
  match l with
  | [] => [x]
  | y :: l' => if Qle_bool x y then x :: l else y :: insert_sorted x l'
  end.

(** [np.sort]. *)
Definition sort (l : list Q) : list Q := foldr insert_sorted [] l.

(** The median of a non-empty array of numbers: the middle entry of the
    sorted array, or the mean of the two middle entries. *)
Definition median_sorted (s : list Q) : Q :=
  let n := length s in
  if Nat.even n
  then ((default 0 (s !! (n / 2 - 1)%nat) + default 0 (s !! (n / 2)%nat)) / 2)%Q
  else default 0%Q (s !! (n / 2)%nat).

(** [np.median] of a one-dimensional array: nan for an empty array and
    for an array that holds a nan. *)
Definition np_median (l : list float) : float :=
  qs ← finite l;
  if decide (qs = []) then nan else fin (median_sorted (sort qs)).

(** [np.percentile(l, q)] of numpy's default (linear) method, for
    0 <= q <= 100: the entry of the sorted array at the fractional
    position q/100 * (n - 1), interpolated between its two neighbours. *)
Definition percentile_sorted (q : Q) (s : list Q) : Q :=
  let n := length s in
  let pos := (q / 100 * inject_Z (Z.of_nat (n - 1)))%Q in
  let lo := Z.to_nat (Qfloor pos) in
  let hi := Nat.min (lo + 1) (n - 1) in
  let gamma := (pos - inject_Z (Qfloor pos))%Q in
  let a := default 0%Q (s !! lo) in
  let b := default 0%Q (s !! hi) in
  (a + (b - a) * gamma)%Q.

Definition np_percentile (q : Q) (l : list float) : float :=
  qs ← finite l;
  if decide (qs = []) then nan else fin (percentile_sorted q (sort qs)).

(** [np.percentile(data, q, axis=0)]: the percentile of every column.
    On columns without a sample numpy finds no entry to interpolate and
    raises IndexError. *)
Definition percentile_axis0 (q : Q) (data : matrix) : result (list float) :=
  if decide (data ≠ [] ∧ nrows data = 0%nat)
  then Raise (IndexError "index -1 is out of bounds for axis 0 with size 0")
  else Ok (map (np_percentile q) data).

Definition empty_reduction (name : string) : exn :=
  ValueError ("zero-size array to reduction operation " +:+ name +:+
              " which has no identity").

Definition qmin (x : Q) (l : list Q) : Q :=
  foldl (λ m y, if Qle_bool m y then m else y) x l.
Definition qmax (x : Q) (l : list Q) : Q :=
  foldl (λ m y, if Qle_bool y m then m else y) x l.

(** [np.min] and [np.max] of a one-dimensional array of numbers. *)
Definition np_min_q (l : list Q) : result Q :=
  match l with
  | [] => Raise (empty_reduction "minimum")
  | x :: l' => Ok (qmin x l')
  end.
Definition np_max_q (l : list Q) : result Q :=
  match l with
  | [] => Raise (empty_reduction "maximum")
  | x :: l' => Ok (qmax x l')
  end.

(** [np.min] of a column: a nan in the column is the minimum. *)
Definition np_min (l : list float) : result float :=
  match l with
  | [] => Raise (empty_reduction "minimum")
  | _ => match finite l with
         | Some qs => m ← np_min_q qs; Ok (fin m)
         | None => Ok nan
         end
  end.

(** The index of the first entry of [l] that satisfies [p]. *)
Fixpoint find_index {A} (p : A → bool) (l : list A) : option nat :=
  match l with
  | [] => None
  | x :: l' => if p x then Some 0%nat else S <$> find_index p l'
  end.

(** [np.argmin]: the first index of the minimum; of the first nan when
    the array holds one. *)
Definition np_argmin (l : list float) : result nat :=
  match l with
  | [] => Raise (ValueError "attempt to get argmin of an empty sequence")
  | _ => match finite l with
         | Some (x :: qs) =>
             Ok (default 0%nat (find_index (Qeq_bool (qmin x qs)) (x :: qs)))
         | _ => Ok (default 0%nat (find_index (λ v, bool_decide (v = None)) l))
         end
  end.

(** *** np.unique

    The sorted distinct values of an array, each with the index of its
    first occurrence and the number of its occurrences. *)
Fixpoint insert_unique (x : Q) (l : list Q) : list Q :=
  match l with
  | [] => [x]
  | y :: l' =>
      match (x ?= y)%Q with
      | Lt => x :: l
      | Eq => l
      | Gt => y :: insert_unique x l'
      end
  end.

Definition unique_values (a : list Q) : list Q := foldr insert_unique [] a.

Definition first_index (v : Q) (a : list Q) : nat :=
  default 0%nat (find_index (Qeq_bool v) a).
Definition occurrences (v : Q) (a : list Q) : nat :=
  length (filter (λ x, (x == v)%Q) a).

Definition np_unique (a : list Q) : list Q * list nat * list nat :=
  let u := unique_values a in
  (u, map (λ v, first_index v a) u, map (λ v, occurrences v a) u).

(** *** np.polyfit(x, y, 1) through two points

    The least-squares line through (x0, y0) and (x1, y1), as (slope,
    intercept).  For x0 = x1 the system has rank one and numpy returns
    its solution of least norm on the columns scaled to unit length,
    which is the line of slope (y0 + y1) / (4 x0) and intercept
    (y0 + y1) / 4; for x0 = x1 = 0 the scaling divides 0 by 0.  A nan
    among the ordinates, or in the scaled system, goes through the
    solver into both coefficients: the call returns, with a slope and
    an intercept that are nan. *)
Definition polyfit1 (x0 x1 : Q) (y0 y1 : float) : float * float :=
  match y0, y1 with
  | Some y0, Some y1 =>
      if Qeq_bool x0 x1 then
        if Qeq_bool x0 0 then (nan, nan)
        else (fin ((y0 + y1) / (4 * x0)), fin ((y0 + y1) / 4))
      else
        let slope := ((y1 - y0) / (x1 - x0))%Q in
        (fin slope, fin (y0 - slope * x0))
  | _, _ => (nan, nan)
  end.

(** *** Square roots

    [np.sqrt] is a parameter of the development: what is proved holds for
    every square-root function on the numbers. *)
Section with_sqrt.
Context (np_sqrt : Q → Q).

Definition mean (l : list Q) : Q :=
  (qsum l / inject_Z (Z.of_nat (length l)))%Q.

(** [np.std] of a one-dimensional array (population standard
    deviation). *)
Definition np_std (l : list float) : float :=
  qs ← finite l;
  if decide (qs = []) then nan
  else fin (np_sqrt (mean (map (λ x, (Qabs (x - mean qs)) ^ 2)%Q qs))).
End with_sqrt.

End Numpy.

Import Numpy.

(** ** bandwidth.py *)

Module Bandwidth.

Definition SAMPLING_FREQUENCY_HZ : Q := 25.
Definition NAMING_CONVENTION : list string :=
  ["PW0/Q1"; "PW1/U1"; "PW2/U2"; "PW3/Q2"]%string.

Definition positive_mask (nu : list Q) : list bool :=
  map (λ x, bool_decide (0 < x)%Q) nu.
Definition off_mask (nu : list Q) : list bool :=
  map (λ x, bool_decide (x == -1)%Q) nu.

(** The [data] argument of [get_central_nu_bandwidth]: a single series or
    a matrix of one column per detector. *)
Inductive ndarray :=
  | Arr1 (v : list float)
  | Arr2 (m : matrix).

(** What [get_central_nu_bandwidth] returns: two scalars when the
    bandwidth array has one entry, two arrays otherwise. *)
Inductive moments :=
  | Scalars (central_nu bandwidth : float)
  | Arrays (central_nu bandwidth : list float).

Definition not_uniform : exn :=
  ValueError "The frequency steps are not uniform! Check out!".

(** The two moments of a matrix with one column per detector. *)
Definition moments_2d (nu : list Q) (step : Q) (data : matrix)
  : result moments :=
  weighted ← mapM (mul_nu nu) data;
  let central_nu := zip_with fdiv (sum_axis0 weighted) (sum_axis0 data) in
  let bandwidth :=
    zip_with fdiv
      (map (λ s, fmul (fsquare s) (fin step)) (sum_axis0 data))
      (sum_axis0 (map (map fsquare) data)) in
  if decide (length bandwidth = 1%nat) then
    Ok (Scalars (default nan (central_nu !! 0%nat))
                (default nan (bandwidth !! 0%nat)))
  else Ok (Arrays central_nu bandwidth).

(** A square matrix passes the test [data.shape[-1] == len(data)] as a
    series does and gets a third axis: the weights then run along the
    columns, every sum has shape (N, 1), and the function returns the
    first rows of these, two arrays of one entry for detector 0. *)
Definition moments_3d (nu : list Q) (step : Q) (data : matrix)
  : result moments :=
  if decide (nrows data = length nu ∨ nrows data = 1%nat) then
    let col0 := default [] (data !! 0%nat) in
    let nu0 := default 0%Q (nu !! 0%nat) in
    let s1 := fsum (map (λ d, fmul d (fin nu0)) col0) in
    let s0 := fsum col0 in
    let s2 := fsum (map fsquare col0) in
    Ok (Arrays [fdiv s1 s0] [fdiv (fmul (fsquare s0) (fin step)) s2])
  else Raise broadcast_error.

(** [np.allclose] returns a Python [bool], so that the test [is False] of
    the source holds exactly when the differences are not all close to
    the first one. *)
Definition get_central_nu_bandwidth (nu : list Q) (data : ndarray)
  : result moments :=
  d0 ← index0 (np_diff nu);
  if negb (allclose (np_diff nu) d0) then Raise not_uniform else
  let step := d0 in
  match data with
  | Arr1 v => moments_2d nu step [v]
  | Arr2 m =>
      if decide (length m = nrows m) then moments_3d nu step m
      else moments_2d nu step m
  end.

(** [get_central_nu_bandwidth] on a series of up to seven samples, one
    per frequency, computed as the program computes it, on doubles: the
    frequencies and the samples are the doubles nearest [nu] and
    [data], and every operation of lines 148 to 151 rounds. *)
Definition get_central_nu_bandwidth_doubles (nu data : list Q)
  : result (float * float) :=
  d0 ← index0 (np_diff nu);
  if negb (allclose (np_diff nu) d0) then Raise not_uniform else
  let step := round64 d0 in
  let nu := map round64 nu in
  let data := map round64 data in
  let central_nu := ddiv (dsum (zip_with dmul data nu)) (dsum data) in
  let bandwidth :=
    ddiv (dmul (dmul (dsum data) (dsum data)) step)
         (dsum (map (λ d, dmul d d) data)) in
  Ok (central_nu, bandwidth).

(** [np.polyfit] of the offsets of detector [i], for [i] in range(0, 4). *)
Definition offset_line (x0 x1 : Q) (first_offset second_offset : list float)
    (i : nat) : result (float * float) :=
  y0 ← index first_offset i;
  y1 ← index second_offset i;
  Ok (polyfit1 x0 x1 y0 y1).

Definition remove_offset (nu : list Q) (data : matrix) : result matrix :=
  let hd := (nrows data / 2)%nat in
  let hn := (length nu / 2)%nat in
  first_off ← bool_index (off_mask (take hn nu)) (map (take hd) data);
  let first_offset := map np_median first_off in
  second_off ← bool_index (off_mask (drop hn nu)) (map (drop hd) data);
  let second_offset := map np_median second_off in
  x0 ← np_min_q (mask_select (positive_mask nu) nu);
  x1 ← np_max_q nu;
  lines ← mapM (offset_line x0 x1 first_offset second_offset) (seq 0 4);
  (* offset[:, i] = nu * line_coeff[0] + line_coeff[1]; a column past the
     fourth keeps the zeros of np.zeros *)
  let offset :=
    imap (λ i _, match lines !! i with
                 | Some (a, b) => map (λ x, fadd (fmul (fin x) a) b) nu
                 | None => map (λ _, fin 0) nu
                 end) data in
  Ok (zip_with (zip_with fsub) data offset).

Definition find_blind_channel (data : matrix) : result (nat * string) :=
  hi ← percentile_axis0 95 data;
  lo ← percentile_axis0 5 data;
  let var_range := zip_with fsub hi lo in
  idx_blind ← np_argmin var_range;
  if decide (idx_blind = 0%nat) then Ok (idx_blind, "0110"%string)
  else if decide (idx_blind = 3%nat) then Ok (idx_blind, "0101"%string)
  else Raise (UnboundLocalError "pss").

(** [new_data[new_data > 0] = 0]; a nan is not greater than 0. *)
Definition clamp (v : float) : float :=
  x ← v; if bool_decide (0 < x)%Q then fin 0 else fin x.

(** The arrays behind the two results of [get_central_nu_bandwidth]. *)
Definition moment_arrays (m : moments) : list float * list float :=
  match m with
  | Scalars c b => ([c], [b])
  | Arrays cs bs => (cs, bs)
  end.

(** [np.ma.masked_array(values, mask=mask)]: values and mask must have the
    same size. *)
Definition masked_array (values : list float) (mask : list bool)
  : result (list float * list bool) :=
  if decide (length values = length mask) then Ok (values, mask)
  else Raise (MaskError "Mask and data not compatible").

(** [np.column_stack] of matrices with the same number of rows. *)
Definition column_stack (ms : list matrix) : result matrix :=
  match ms with
  | [] => Raise (ValueError "need at least one array to concatenate")
  | m :: _ =>
      if decide (Forall (λ m', nrows m' = nrows m) ms) then Ok (concat ms)
      else Raise (ValueError "all the input array dimensions except for the concatenation axis must match exactly")
  end.

(** Half the spread between two percentiles of an array. *)
Definition half_spread (hi lo : Q) (l : list float) : float :=
  fdiv (fsub (np_percentile hi l) (np_percentile lo l)) (fin 2).

Section with_sqrt.
Context (np_sqrt : Q → Q).

(** Samples [j + rej] to [j + c - rej] of a column. *)
Definition trimmed_run (rej j c : nat) (col : list float) : list float :=
  py_slice (Z.of_nat j + Z.of_nat rej)
           (Z.of_nat j + Z.of_nat c - Z.of_nat rej) col.

Definition get_frequency_range_and_data (nu : list Q) (data : matrix)
    (std_dev : bool) (rej : nat)
  : result (list Q * matrix * option matrix) :=
  let new_nu_ := mask_select (positive_mask nu) nu in
  new_data_ ← bool_index (positive_mask nu) data;
  let '(new_nu, idx, count) := np_unique new_nu_ in
  let new_data :=
    map (λ col, zip_with (λ j c, np_median (trimmed_run rej j c col))
                         idx count) new_data_ in
  let new_std_dev :=
    map (λ col,
           zip_with (λ j c,
                       fdiv (np_std np_sqrt (trimmed_run rej j c col))
                            (fin (np_sqrt (inject_Z (Z.of_nat c)))))
                    idx count) new_data_ in
  Ok (new_nu, new_data, if std_dev then Some new_std_dev else None).

(** What [AnalyzeBandTest] returns. *)
Record band_test := {
  duration : Q;
  pss : string;
  new_nu : list Q;
  new_data : matrix;
  norm_data : matrix;
  central_nu_det : list float * list bool;
  bandwidth_det : list float * list bool;
}.

(** [load_timestream] is the access to the acquisition files: it gives
    the frequency array [datafile[-1]] and the power array
    [datafile[-3]] of a file. *)
Context (load_timestream : string → result (list Q * matrix)).

(** A column divided by the absolute value of its minimum. *)
Definition normalize (col : list float) : result (list float) :=
  m ← np_min col; Ok (map (λ x, fdiv x (fabs m)) col).

Definition AnalyzeBandTest (polarimeter_name file_name output_path : string)
  : result band_test :=
  '(nu, data) ← load_timestream file_name;
  _ ← index data 0;                       (* len(data[:, 0]), logged *)
  let duration :=
    (inject_Z (Z.of_nat (nrows data)) / SAMPLING_FREQUENCY_HZ)%Q in
  nooffdata ← remove_offset nu data;
  '(new_nu, new_data, _) ← get_frequency_range_and_data nu nooffdata true 1;
  let new_data := map (map clamp) new_data in
  m ← get_central_nu_bandwidth new_nu (Arr2 new_data);
  '(idx_blind, pss) ← find_blind_channel new_data;
  (* idx_blind is 0 or 3, within the four entries of the mask *)
  let mask := <[idx_blind := false]> (replicate 4 true) in
  central_nu_det ← masked_array (moment_arrays m).1 (map negb mask);
  bandwidth_det ← masked_array (moment_arrays m).2 (map negb mask);
  (* new_data[:, mask]: new_data has four columns once the masked arrays
     are built *)
  norm_data ← mapM normalize (mask_select mask new_data);
  Ok {| duration := duration; pss := pss; new_nu := new_nu;
        new_data := new_data; norm_data := norm_data;
        central_nu_det := central_nu_det;
        bandwidth_det := bandwidth_det |}.
End with_sqrt.

(** *** The aggregation of [main]

    The statements of [main] between the loop over the files and the
    report: [files] holds what [AnalyzeBandTest] returned for each file,
    and [new_nu] is the frequency axis of the last one. *)
Record aggregate := {
  All_central_nu : list float;
  All_bandwidth : list float;
  final_band : list float;
  final_band_err : list float;
  final_central_nu : float;
  final_bandwidth : float;
  final_central_nu_err : float;
  final_bandwidth_err : float;
}.

Definition main_aggregation (files : list band_test) : result aggregate :=
  norm_data_All ← column_stack (map norm_data files);
  let new_nu := default [] (new_nu <$> last files) in
  all ← get_central_nu_bandwidth new_nu (Arr2 norm_data_All);
  let '(All_central_nu, All_bandwidth) := moment_arrays all in
  let final_band := map np_median (rows norm_data_All) in
  let final_band_err :=
    map (half_spread (977 # 10) (27 # 10)) (rows norm_data_All) in
  final ← get_central_nu_bandwidth new_nu (Arr2 [final_band]);
  let '(final_central_nu, final_bandwidth) := moment_arrays final in
  Ok {| All_central_nu := All_central_nu;
        All_bandwidth := All_bandwidth;
        final_band := final_band;
        final_band_err := final_band_err;
        final_central_nu := default nan (final_central_nu !! 0%nat);
        final_bandwidth := default nan (final_bandwidth !! 0%nat);
        final_central_nu_err :=
          half_spread (977 # 10) (27 # 10) All_central_nu;
        final_bandwidth_err :=
          half_spread (977 # 10) (27 # 10) All_bandwidth |}.

(** *** The Report Parameter Mapping

    The values of the dictionary that [build_dict_from_results] returns:
    strings, numbers, and for each file the dictionary of its detectors,
    which maps a detector name to a dictionary of two numbers. *)
Inductive value :=
  | VStr (s : string)
  | VFloat (x : float)
  | VDict (d : gmap string (gmap string float)).

(** [central_nu_det] and [bandwidth_det] are arrays of shape (files, 4),
    here the lists of their rows, one per file.  The function writes into
    them, and the caller keeps them: they are the state of the
    computation. *)
Abbreviation table := (list (list float)).

Record arrays := {
  central_nu_tbl : table;
  bandwidth_tbl : table;
}.

Definition M (A : Type) : Type := arrays → result A * arrays.

Global Instance M_ret : MRet M := λ A a st, (Ok a, st).
Global Instance M_bind : MBind M := λ A B f m st,
  match m st with
  | (Ok a, st') => f a st'
  | (Raise e, st') => (Raise e, st')
  end.

Definition raise {A} (e : exn) : M A := λ st, (Raise e, st).

Definition out_of_bounds : exn := IndexError "index is out of bounds".

(** [t[j, i]] and [t[j, i] = v] on an array of two dimensions. *)
Definition table_get (t : table) (j i : nat) : result float :=
  match t !! j ≫= (.!! i) with
  | Some x => Ok x
  | None => Raise out_of_bounds
  end.
Definition table_set (t : table) (j i : nat) (v : float) : result table :=
  match t !! j with
  | Some r => if decide (i < length r)%nat then Ok (<[j := <[i := v]> r]> t)
              else Raise out_of_bounds
  | None => Raise out_of_bounds
  end.

Definition get_central_nu (j i : nat) : M float := λ st,
  (table_get (central_nu_tbl st) j i, st).
Definition get_bandwidth (j i : nat) : M float := λ st,
  (table_get (bandwidth_tbl st) j i, st).
Definition set_central_nu (j i : nat) (v : float) : M unit := λ st,
  match table_set (central_nu_tbl st) j i v with
  | Ok t => (Ok (), {| central_nu_tbl := t; bandwidth_tbl := bandwidth_tbl st |})
  | Raise e => (Raise e, st)
  end.
Definition set_bandwidth (j i : nat) (v : float) : M unit := λ st,
  match table_set (bandwidth_tbl st) j i v with
  | Ok t => (Ok (), {| central_nu_tbl := central_nu_tbl st; bandwidth_tbl := t |})
  | Raise e => (Raise e, st)
  end.

(** [for i, x in enumerate(l)], from index [i] on, with the local
    variables of the loop body threaded through. *)
Fixpoint for_enumerate {A R} (body : nat → A → R → M R) (i : nat)
    (l : list A) (acc : R) : M R :=
  match l with
  | [] => mret acc
  | x :: l' => acc' ← body i x acc; for_enumerate body (S i) l' acc'
  end.

(** [s.replace] of every slash by the empty string. *)
Fixpoint remove_slashes (s : string) : string :=
  match s with
  | EmptyString => EmptyString
  | String c s' =>
      if Ascii.eqb c "/" then remove_slashes s'
      else String c (remove_slashes s')
  end.

(** [results[key][nam] = entry]. *)
Definition set_detector (key nam : string) (entry : gmap string float)
    (results : gmap string value) : M (gmap string value) :=
  match results !! key with
  | Some (VDict d) => mret (<[key := VDict (<[nam := entry]> d)]> results)
  | Some _ => raise (TypeError "object does not support item assignment")
  | None => raise (KeyError key)
  end.

Definition is_blind (pss : string) (i : nat) : bool :=
  bool_decide (pss = "0101"%string) && bool_decide (i = 3%nat)
  || bool_decide (pss = "0110"%string) && bool_decide (i = 0%nat).

Definition detector_body (j : nat) (pss : string) (i : nat) (nam : string)
    (results : gmap string value) : M (gmap string value) :=
  let nam := remove_slashes nam in
  _ ← (if is_blind pss i
       then (_ ← set_central_nu j i (fin 0); set_bandwidth j i (fin 0))
       else mret ());
  c ← get_central_nu j i;
  b ← get_bandwidth j i;
  set_detector ("ps" +:+ pss +:+ "_" +:+ pretty j) nam
    (<["central_nu" := c]> (<["bandwidth" := b]> ∅)) results.

Definition file_body (j : nat) (pss : string) (results : gmap string value)
  : M (gmap string value) :=
  let results := <["PSStatus" +:+ "_" +:+ pretty j := VStr pss]> results in
  let results := <["ps" +:+ pss +:+ "_" +:+ pretty j := VDict ∅]> results in
  for_enumerate (detector_body j pss) 0 NAMING_CONVENTION results.

Definition build_dict_from_results (pol_name : string) (duration : Q)
    (PSStatus : list string)
    (final_central_nu final_central_nu_err
     final_bandwidth final_bandwidth_err : float)
  : M (gmap string value) :=
  let results : gmap string value :=
    <["final_bandwidth_err" := VFloat final_bandwidth_err]> (
    <["final_bandwidth" := VFloat final_bandwidth]> (
    <["final_central_nu_err" := VFloat final_central_nu_err]> (
    <["final_central_nu" := VFloat final_central_nu]> (
    <["test_duration" := VFloat (fin (duration / 60 / 60))]> (
    <["sampling_frequency" := VFloat (fin SAMPLING_FREQUENCY_HZ)]> (
    <["title" := VStr ("Bandwidth test for polarimeter " +:+ pol_name)]> (
    <["polarimeter_name" := VStr pol_name]> ∅))))))) in
  for_enumerate file_body 0 PSStatus results.

End Bandwidth.

(** ** reports.py *)

Module Reports.

(** The files of the file system, by path. *)
Abbreviation files := (gmap string string).

Definition IO (A : Type) : Type := files → result A * files.

Global Instance IO_ret : MRet IO := λ A a fs, (Ok a, fs).
Global Instance IO_bind : MBind IO := λ A B f m fs,
  match m fs with
  | (Ok a, fs') => f a fs'
  | (Raise e, fs') => (Raise e, fs')
  end.

Definition lift {A} (r : result A) : IO A := λ fs, (r, fs).

Definition read_file (path : string) : IO string := λ fs,
  match fs !! path with
  | Some text => (Ok text, fs)
  | None => (Raise (FileNotFoundError path), fs)
  end.

Definition ends_with_slash (s : string) : bool :=
  match last (list_ascii_of_string s) with
  | Some c => Ascii.eqb c "/"
  | None => false
  end.

(** [os.path.join(a, b)]. *)
Definition path_join (a b : string) : string :=
  match b with
  | String "/" _ => b
  | _ => if bool_decide (a = EmptyString) || ends_with_slash a then a +:+ b
         else a +:+ "/" +:+ b
  end.

(** A text between double quotes. *)
Definition dquote : string := String (ascii_of_nat 34) EmptyString.
Definition quoted (s : string) : string := dquote +:+ s +:+ dquote.

Section create_report.
(** The values of [params] and their [str()]; the directory of the
    module, [os.path.dirname(__file__)]; Mako's rendering of a template
    text with the parameters, which fails on a name the parameters do
    not define; and the conversion of Markdown to HTML. *)
Context {V : Type} (str : V → string).
Context (module_dir : string).
Context (render_unicode : string → gmap string V → result string).
Context (markdown : string → string).
(** What the operating system answers when a path is opened for
    writing: [None] when the file is created or truncated, and else the
    error that [open] raises, FileNotFoundError for a directory that
    does not exist or another OSError.  [create_report] creates no
    directory, so that the answer for a path is the same during the
    call. *)
Context (open_error : string → option exn).

(** [open(path, 'wt')] and the writing of a text.  A file that cannot be
    opened is not touched. *)
Definition write_file (path text : string) : IO unit := λ fs,
  match open_error path with
  | None => (Ok (), <[path := text]> fs)
  | Some e => (Raise e, fs)
  end.

(** [shutil.copyfile(src, dst)]: the source is opened first. *)
Definition copyfile (src dst : string) : IO unit :=
  text ← read_file src; write_file dst text.

Definition html_document (title contents : string) : string :=
  "<!DOCTYPE html>
<html>
    <head>
        <title>" +:+ title +:+ "</title>
        <meta charset=" +:+ quoted "UTF-8" +:+ ">
        <link rel=" +:+ quoted "stylesheet" +:+ " href=" +:+ quoted "report_style.css" +:+ " type=" +:+ quoted "text/css" +:+ " />
    </head>
    <body>
        <div id=" +:+ quoted "main" +:+ ">
" +:+ contents +:+ "
        </div>
    </body>
</html>
".

Definition create_report (params : gmap string V)
    (md_template_file md_report_file html_report_file output_path : string)
  : IO unit :=
  let template_path := path_join module_dir "template" in
  _ ← copyfile (path_join template_path "report_style.css")
               (path_join output_path "report_style.css");
  let template_file_name := path_join template_path md_template_file in
  report_template ← read_file template_file_name;
  md_report ← lift (render_unicode report_template params);
  let md_report_path := path_join output_path md_report_file in
  _ ← write_file md_report_path md_report;
  title ← lift (match params !! "title"%string with
                | Some t => Ok (str t)
                | None => Raise (KeyError "title")
                end);
  let html_report := html_document title (markdown md_report) in
  let html_report_path := path_join output_path html_report_file in
  write_file html_report_path html_report.
End create_report.

End Reports.

(** ** bandwidth.py: the plots and [main]

    The names of the plot files, and the values that [main] computes.
    The drawing of the plots and the log do not touch these values and
    are left out. *)

Module Main.
Import Bandwidth Reports.

(** [save_plot]: the file of a plot is [plot_name + '.svg'] in the
    output directory. *)
Definition plot_file_path (output_path plot_name : string) : string :=
  path_join output_path (plot_name +:+ ".svg").

(** The plot names of [preliminary_plots] and of [final_plots]. *)
Definition preliminary_plot_name (polarimeter_name pss : string)
    (file_number : nat) : string :=
  polarimeter_name +:+ "_RFtest_" +:+ pss +:+ "_" +:+ pretty file_number.
Definition final_plot_names (polarimeter_name : string) : list string :=
  [polarimeter_name +:+ "_RFtest_AllDetNorm";
   polarimeter_name +:+ "_RFtest_FinalBand"].

(** The plot files that [main] saves for files of the statuses
    [PSStatus]: one preliminary plot per file, numbered from 0, then the
    two final plots. *)
Definition main_plot_files (polarimeter_name output_path : string)
    (PSStatus : list string) : list string :=
  map (plot_file_path output_path)
      (imap (λ i pss, preliminary_plot_name polarimeter_name pss i) PSStatus
       ++ final_plot_names polarimeter_name).

Section main.
Context (np_sqrt : Q → Q).
Context (load_timestream : string → result (list Q * matrix)).

(** The loop of [main] over the files of the command line: what
    [AnalyzeBandTest] returns for each file, in order. *)
Definition main_loop (polarimeter_name : string) (file_list : list string)
    (output_path : string) : result (list band_test) :=
  mapM (λ file_name,
          AnalyzeBandTest np_sqrt load_timestream
            polarimeter_name file_name output_path) file_list.

(** [main] from the loop to the parameters of the report.  [np.array] of
    the list of masked arrays is the array of their values, one row per
    file; [duration] is that of the last file; the arrays are returned
    with the parameters, as [build_dict_from_results] leaves them. *)
Definition main_params (polarimeter_name : string) (file_list : list string)
    (output_path : string) : result (gmap string value * arrays) :=
  files ← main_loop polarimeter_name file_list output_path;
  let central_nu_det := map (λ r, (central_nu_det r).1) files in
  let bandwidth_det := map (λ r, (bandwidth_det r).1) files in
  agg ← main_aggregation files;
  duration ← match last files with
             | Some r => Ok (duration r)
             | None => Raise (UnboundLocalError "duration")
             end;
  match build_dict_from_results polarimeter_name duration (map pss files)
          (final_central_nu agg) (final_central_nu_err agg)
          (final_bandwidth agg) (final_bandwidth_err agg)
          {| central_nu_tbl := central_nu_det;
             bandwidth_tbl := bandwidth_det |} with
  | (Ok params, st) => Ok (params, st)
  | (Raise e, _) => Raise e
  end.
End main.

Section report.
(** [str()] of a value of the parameters, the directory of the module,
    and the two libraries of [create_report]. *)
Context (str : value → string).
Context (module_dir : string).
Context (render_unicode : string → gmap string value → result string).
Context (markdown : string → string).
Context (open_error : string → option exn).

(** The call of [create_report] that ends [main]. *)
Definition main_report (params : gmap string value) (output_path : string)
  : IO unit :=
  create_report str module_dir render_unicode markdown open_error params
    "bandwidth.md" "bandwidth_report.md" "bandwidth_report.html" output_path.
End report.

End Main.

Import Numpy Bandwidth Reports.
Import Main.

(** * Specification

    The notions that the properties are stated with, and the runs that
    the examples evaluate. *)

(** The steps of a frequency axis are uniform when every difference of
    two successive frequencies equals the first one within
    floating-point tolerance, as [np.isclose] decides it. *)
Definition uniform_steps (nu : list Q) : Prop :=
  ∀ i a b a0 b0,
    nu !! 0%nat = Some a0 → nu !! 1%nat = Some b0 →
    nu !! i = Some a → nu !! S i = Some b →
    isclose (b - a) (b0 - a0) = true.

(** A uniform grid of [N] frequencies from [nu0] in steps of [delta], and
    a response that is [v] on the [n] samples after the first [a] ones
    and 0 on the others. *)
Definition grid_point (nu0 delta : Q) (i : nat) : Q :=
  (nu0 + inject_Z (Z.of_nat i) * delta)%Q.
Definition grid (nu0 delta : Q) (N : nat) : list Q :=
  map (grid_point nu0 delta) (seq 0 N).
Definition window_q (a n b : nat) (v : Q) : list Q :=
  replicate a 0%Q ++ replicate n v ++ replicate b 0%Q.

(** The samples of a detector column at which the commanded frequency is
    [f], in the order of acquisition, and a run of samples without its
    first [rej] and last [rej] ones. *)
Definition samples_at {A} (f : Q) (nu : list Q) (col : list A) : list A :=
  (filter (λ p, (p.1 == f)%Q) (zip nu col)).*2.
Definition trim (rej : nat) (run : list float) : list float :=
  drop rej (take (length run - rej) run).

(** The frequency [f] occupies a contiguous run of more than [2 * rej]
    samples of [l]. *)
Definition contiguous_run (rej : nat) (f : Q) (l : list Q) : Prop :=
  ∃ pre run post,
    l = pre ++ run ++ post ∧
    Forall (λ x, (x == f)%Q) run ∧
    Forall (λ x, ¬ (x == f)%Q) pre ∧ Forall (λ x, ¬ (x == f)%Q) post ∧
    (2 * rej < length run)%nat.

(** Two power arrays agree on the samples taken at a positive frequency. *)
Definition agree_on_positive (nu : list Q) (data data' : matrix) : Prop :=
  Forall2 (λ c c', length c' = length c ∧
                   ∀ k x, nu !! k = Some x → (0 < x)%Q → c' !! k = c !! k)
          data data'.

(** A square root to six decimal places, to run the functions on
    examples. *)
Definition sqrt_6_digits (q : Q) : Q :=
  Z.sqrt (Qnum q * 10 ^ 12 / Z.pos (Qden q)) # 10 ^ 6.

(** The range statistic of a column of numbers, and the first position of
    the smallest entry of a list. *)
Definition percentile_range (col : list Q) : Q :=
  (percentile_sorted 95 (sort col) - percentile_sorted 5 (sort col))%Q.

Definition first_smallest (r : list Q) (k : nat) : Prop :=
  ∃ x, r !! k = Some x ∧
       (∀ j y, r !! j = Some y → (x <= y)%Q) ∧
       (∀ j y, (j < k)%nat → r !! j = Some y → (x < y)%Q).




(** A sweep of three frequencies with the generator off at both ends:
    detector 0 is blind, the others respond. *)
Definition example_nu : list Q :=
  [-1; 40; 40; 40; 41; 41; 41; 42; 42; 42; -1]%Q.
Definition example_data : matrix :=
  map (map fin)
    [[3; 3; 3; 3; 3; 3; 3; 3; 3; 3; 3];
     [3; 2; 2; 2; 1; 1; 1; 2; 2; 2; 3];
     [3; 1; 1; 1; -1; -1; -1; 2; 2; 2; 3];
     [3; 2; 2; 2; -5; -5; -5; 4; 0; 0; 3]]%Q.
Definition example_load (file : string) : result (list Q * matrix) :=
  Ok (example_nu, example_data).


(** The offsets of a detector column: the medians of its samples with
    the generator off, in the first and in the second half. *)
Definition first_offset_of (nu : list Q) (c : list float) : float :=
  np_median (samples_at (-1) (take (length nu / 2) nu) (take (length nu / 2) c)).
Definition second_offset_of (nu : list Q) (c : list float) : float :=
  np_median (samples_at (-1) (drop (length nu / 2) nu) (drop (length nu / 2) c)).

(** A column of numbers is free of offset when its samples taken with the
    generator off have median 0 in the first half and in the second. *)
Definition offset_free (nu : list Q) (col : list Q) : Prop :=
  feq (first_offset_of nu (map fin col)) (fin 0) ∧
  feq (second_offset_of nu (map fin col)) (fin 0).

(** The detector that is blind in a phase-switch status, and a row of
    four detector values with the blind one set to 0. *)
Definition blind_detector (pss : string) : option nat :=
  if decide (pss = "0101"%string) then Some 3%nat
  else if decide (pss = "0110"%string) then Some 0%nat
  else None.
Definition zero_blind (pss : string) (row : list float) : list float :=
  match blind_detector pss with
  | Some i => <[i := fin 0]> row
  | None => row
  end.

(** The dictionary of one detector, and the dictionary of the four
    detectors of a file. *)
Definition detector_entry (c b : float) : gmap string float :=
  <["central_nu"%string := c]> (<["bandwidth"%string := b]> ∅).
Definition detectors (cn_row bw_row : list float)
  : gmap string (gmap string float) :=
  <["PW3Q2"%string := detector_entry (default nan (cn_row !! 3%nat))
                                     (default nan (bw_row !! 3%nat))]> (
  <["PW2U2"%string := detector_entry (default nan (cn_row !! 2%nat))
                                     (default nan (bw_row !! 2%nat))]> (
  <["PW1U1"%string := detector_entry (default nan (cn_row !! 1%nat))
                                     (default nan (bw_row !! 1%nat))]> (
  <["PW0Q1"%string := detector_entry (default nan (cn_row !! 0%nat))
                                     (default nan (bw_row !! 0%nat))]> ∅))).

Definition status_key (j : nat) : string := "PSStatus" +:+ "_" +:+ pretty j.
Definition file_key (pss : string) (j : nat) : string :=
  "ps" +:+ pss +:+ "_" +:+ pretty j.

(** The rows of a table from row [j0] on, each with its blind detector
    set to 0, as the loop over the files leaves them. *)
Fixpoint zero_rows (j0 : nat) (PSStatus : list string) (t : table) : table :=
  match PSStatus with
  | [] => t
  | pss :: rest => zero_rows (S j0) rest (alter (zero_blind pss) j0 t)
  end.

(** A string without underscore, as the decimal numerals are. *)
Fixpoint no_underscore (s : string) : Prop :=
  match s with
  | EmptyString => True
  | String c s' => c ≠ "_"%char ∧ no_underscore s'
  end.

(** The arrays have one row of four detector values for every file. *)
Definition rows_of_four (PSStatus : list string) (t : table) : Prop :=
  length t = length PSStatus ∧ Forall (λ r, length r = 4%nat) t.

(** The arrays of a run on two files, the first of status '0101' and the
    second of status '0110'. *)
Definition example_arrays : arrays :=
  {| central_nu_tbl := [map fin [43; 44; 45; 17]%Q; map fin [13; 42; 43; 44]%Q];
     bandwidth_tbl := [map fin [8; 9; 7; 2]%Q; map fin [1; 8; 8; 9]%Q] |}.
Definition example_status : list string := ["0101"; "0110"]%string.

(** A file system with the stylesheet and a template, a rendering that
    leaves a template without placeholders as it is, and one whose
    template uses a name that the parameters do not define. *)
Definition example_files : files :=
  <["/opt/striptun/template/report_style.css"%string := "body { }"%string]> (
  <["/opt/striptun/template/bandwidth.md"%string := "# Bandwidth"%string]> ∅).
Definition render_verbatim (template : string) (params : gmap string string)
  : result string := Ok template.

(** An output directory that exists, in which every file can be
    written, and one that does not exist. *)
Definition directory_exists (path : string) : option exn := None.
Definition directory_missing (path : string) : option exn :=
  Some (FileNotFoundError path).

(** The two calls without a 'title', on an output directory that holds
    no file. *)
Definition report_without_title : result unit * files :=
  create_report id "/opt/striptun" render_verbatim id directory_exists ∅
    "bandwidth.md" "bandwidth_report.md" "bandwidth_report.html" "out"
    example_files.

(** A second sweep, with detector 3 blind, and the access to the two
    files of a run. *)
Definition example_data_2 : matrix :=
  map (map fin)
    [[3; 2; 2; 2; 0; 0; 0; 2; 2; 2; 3];
     [3; 1; 1; 1; -1; -1; -1; 0; 0; 0; 3];
     [3; 2; 2; 2; -5; -5; -5; 1; 1; 1; 3];
     [3; 3; 3; 3; 3; 3; 3; 3; 3; 3; 3]]%Q.
Definition example_load_2 (file : string) : result (list Q * matrix) :=
  if String.eqb file "sweep_0101.txt" then Ok (example_nu, example_data_2)
  else Ok (example_nu, example_data).

(** The column view of the two moments: whether a column can be
    multiplied with the frequency axis, its samples weighted by the
    frequencies, and its two moments. *)
Definition broadcasts (nu : list Q) (c : list float) : bool :=
  bool_decide (length c = length nu ∨ length c = 1%nat).
Definition weighted (nu : list Q) (c : list float) : list float :=
  if decide (length c = length nu)
  then zip_with (λ d x, fmul d (fin x)) c nu
  else map (λ x, fmul (default nan (c !! 0%nat)) (fin x)) nu.
Definition column_central_nu (nu : list Q) (c : list float) : float :=
  fdiv (fsum (weighted nu c)) (fsum c).
Definition column_bandwidth (step : Q) (c : list float) : float :=
  fdiv (fmul (fsquare (fsum c)) (fin step)) (fsum (map fsquare c)).

(** The line fitted through the two offsets of detector [i], and the
    data without the fitted lines. *)
Definition offset_fit (nu : list Q) (x0 x1 : Q) (data : matrix) (i : nat)
  : result (float * float) :=
  match data !! i with
  | Some c =>
      Ok (polyfit1 x0 x1 (first_offset_of nu c) (second_offset_of nu c))
  | None => Raise (IndexError "index is out of bounds for axis 0")
  end.
Definition subtract_lines (nu : list Q) (lines : list (float * float))
    (data : matrix) : matrix :=
  zip_with (zip_with fsub) data
    (imap (λ i _, match lines !! i with
                  | Some (a, b) => map (λ x, fadd (fmul (fin x) a) b) nu
                  | None => map (λ _, fin 0) nu
                  end) data).

(** Two outcomes of [remove_offset] that are the same error or hold the
    same numbers. *)
Definition same_data (r r' : result matrix) : Prop :=
  match r, r' with
  | Ok m, Ok m' => Forall2 (Forall2 feq) m m'
  | Raise e, Raise e' => e = e'
  | _, _ => False
  end.

(** A power array of numbers with the constant [k] of its column added
    to every sample of the column. *)
Definition add_offsets (ks : list Q) (D : list (list Q)) : matrix :=
  zip_with (λ k c, map (λ d, fin (d + k)) c) ks D.

(** Two offsets of which the second is the first plus [k], or both nan. *)
Definition shifted (k : Q) (v v' : float) : Prop :=
  match v, v' with
  | Some y, Some y' => (y' == y + k)%Q
  | None, None => True
  | _, _ => False
  end.

(** A sweep of four frequencies, and a sweep in which the frequency 41
    stays for two samples only. *)
Definition example_nu_4 : list Q :=
  [-1; 40; 40; 40; 41; 41; 41; 42; 42; 42; 43; 43; 43; -1]%Q.
Definition example_data_4 : matrix :=
  map (map fin)
    [[3; 3; 3; 3; 3; 3; 3; 3; 3; 3; 3; 3; 3; 3];
     [3; 2; 2; 2; 1; 1; 1; 2; 2; 2; 0; 0; 0; 3];
     [3; 1; 1; 1; -1; -1; -1; 2; 2; 2; 1; 1; 1; 3];
     [3; 2; 2; 2; -5; -5; -5; 4; 0; 0; 2; 2; 2; 3]]%Q.
Definition example_load_4 (file : string) : result (list Q * matrix) :=
  Ok (example_nu_4, example_data_4).

Definition example_nu_short : list Q :=
  [-1; 40; 40; 40; 41; 41; 42; 42; 42; -1]%Q.
Definition example_data_short : matrix :=
  map (map fin)
    [[3; 2; 2; 2; 1; 1; 2; 2; 2; 3];
     [3; 3; 3; 3; 3; 3; 3; 3; 3; 3];
     [3; 1; 1; 1; -1; -1; 2; 2; 2; 3];
     [3; 2; 2; 2; -5; -5; 4; 0; 0; 3]]%Q.
Definition example_load_short (file : string) : result (list Q * matrix) :=
  Ok (example_nu_short, example_data_short).

(** The keys that [build_dict_from_results] sets before its loop. *)
Definition top_level_keys : list string :=
  ["polarimeter_name"; "title"; "sampling_frequency"; "test_duration";
   "final_central_nu"; "final_central_nu_err";
   "final_bandwidth"; "final_bandwidth_err"]%string.

(** [str()] on the strings of the parameters, for the runs of the
    examples; a file system without the stylesheet, and one without the
    template. *)
Definition example_str (v : value) : string :=
  match v with VStr s => s | _ => EmptyString end.

(** A normalized value: a number of the interval [-1, 0]. *)
Definition in_unit (v : float) : Prop :=
  ∃ q, v = fin q ∧ (-1 <= q)%Q ∧ (q <= 0)%Q.

(** The columns of [new_data] that [AnalyzeBandTest] normalizes: all but
    the one of the blind detector of the status. *)
Definition retained_columns (r : band_test) : matrix :=
  match blind_detector (pss r) with
  | Some i => delete i (new_data r)
  | None => new_data r
  end.


(** A sweep of two frequencies, and the access to the files of a run
    that holds it. *)
Definition example_nu_two : list Q := [-1; 40; 40; 40; 41; 41; 41; -1]%Q.
Definition example_data_two : matrix :=
  map (map fin)
    [[3; 3; 3; 3; 3; 3; 3; 3];
     [3; 2; 2; 2; 1; 1; 1; 3];
     [3; 1; 1; 1; -1; -1; -1; 3];
     [3; 2; 2; 2; -5; -5; -5; 3]]%Q.
Definition example_load_3 (file : string) : result (list Q * matrix) :=
  if String.eqb file "sweep_two.txt" then Ok (example_nu_two, example_data_two)
  else example_load_2 file.

(** What [AnalyzeBandTest] returns for the two sweeps of three
    frequencies. *)
Definition example_results : list band_test :=
  match mapM (λ file, AnalyzeBandTest sqrt_6_digits example_load_2
                        "STRIP" file "out")
             ["sweep_0110.txt"; "sweep_0101.txt"]%string with
  | Ok files => files
  | Raise _ => []
  end.

(** The keys that the loop of [build_dict_from_results] sets for the
    files of the statuses [PSStatus]. *)
Definition file_keys (PSStatus : list string) : list string :=
  mjoin (imap (λ j pss, [status_key j; file_key pss j]) PSStatus).

(** The result of a run on the first sweep alone. *)
Definition example_single : list band_test := take 1 example_results.

(** * Properties *)

(** ** Results *)

Lemma mapM_result_raise {A B} (f : A → result B) (l : list A) e :
  mapM f l = Raise e → ∃ x, x ∈ l ∧ f x = Raise e.
Proof.
  induction l as [|x l IH]; simpl; [done|].
  destruct (f x) eqn:Hx; simpl.
  - destruct (mapM f l) eqn:Hl; simpl; [done|].
    intros [= ->]. destruct IH as (y & ? & ?); [done|].
    exists y. split; [by right | done].
  - intros [= ->]. exists x. split; [by left | done].
Qed.

Lemma mapM_result_ok {A B} (f : A → result B) (l : list A) (g : A → B) :
  Forall (λ x, f x = Ok (g x)) l → mapM f l = Ok (map g l).
Proof.
  induction 1 as [|x l Hx _ IH]; simpl; [done|].
  by rewrite Hx, IH.
Qed.

(** ** Uniform frequency steps *)

Lemma np_diff_lookup nu i d :
  np_diff nu !! i = Some d ↔
  ∃ a b, nu !! i = Some a ∧ nu !! S i = Some b ∧ d = (b - a)%Q.
Proof.
  unfold np_diff. rewrite lookup_zip_with_Some. split.
  - intros (b & a & -> & Hb & Ha).
    rewrite lookup_drop in Hb. apply lookup_take_Some in Ha as [Ha _].
    by exists a, b.
  - intros (a & b & Ha & Hb & ->). exists b, a.
    split; [done|]. rewrite lookup_drop. split; [done|].
    apply lookup_take_Some. split; [done|].
    apply lookup_lt_Some in Hb. lia.
Qed.







Lemma allclose_uniform nu d0 :
  index0 (np_diff nu) = Ok d0 →
  allclose (np_diff nu) d0 = true ↔ uniform_steps nu.
Proof.
  intros Hd0.
  assert (np_diff nu !! 0%nat = Some d0) as H0.
  { destruct (np_diff nu); simpl in *; congruence. }
  apply np_diff_lookup in H0 as (a0 & b0 & Ha0 & Hb0 & ->).
  unfold allclose. rewrite forallb_forall. split.
  - intros H i a b a0' b0' ?? Ha Hb. simplify_eq.
    apply H, list_elem_of_In. apply (list_elem_of_lookup_2 _ i).
    apply np_diff_lookup. by exists a, b.
  - intros H d [i Hi]%list_elem_of_In%list_elem_of_lookup_1.
    apply np_diff_lookup in Hi as (a & b & Ha & Hb & ->). by eapply H.
Qed.

Lemma uniform_steps_short nu : np_diff nu = [] → uniform_steps nu.
Proof.
  intros Hnil i a b a0 b0 Ha0 Hb0 _ _.
  assert (np_diff nu !! 0%nat = Some (b0 - a0)%Q) as H.
  { apply np_diff_lookup. by exists a0, b0. }
  by rewrite Hnil in H.
Qed.

Lemma moments_2d_not_not_uniform nu step data :
  moments_2d nu step data ≠ Raise not_uniform.
Proof.
  unfold moments_2d. destruct (mapM (mul_nu nu) data) eqn:HM; simpl.
  - by case_decide.
  - apply mapM_result_raise in HM as (c & _ & Hc). intros [= ->].
    unfold mul_nu in Hc. case_decide; [done|].
    by destruct c as [|? [|??]].
Qed.

Lemma moments_3d_not_not_uniform nu step data :
  moments_3d nu step data ≠ Raise not_uniform.
Proof. unfold moments_3d. by case_decide. Qed.

(** C2. A frequency axis whose successive differences are not uniform
    makes [get_central_nu_bandwidth] raise the error "The frequency steps
    are not uniform", whatever the data, and so return no result; an axis
    with uniform steps never makes it raise this error. *)
Theorem get_central_nu_bandwidth_uniform_check (nu : list Q) (data : ndarray) :
  (¬ uniform_steps nu → get_central_nu_bandwidth nu data = Raise not_uniform) ∧
  (uniform_steps nu → get_central_nu_bandwidth nu data ≠ Raise not_uniform).
Proof.
  unfold get_central_nu_bandwidth.
  destruct (index0 (np_diff nu)) as [d0|e] eqn:Hd0; simpl.
  - pose proof (allclose_uniform nu d0 Hd0) as Hiff.
    destruct (allclose (np_diff nu) d0); simpl.
    + split; [intros []; by apply Hiff|]. intros _.
      destruct data as [v|m]; [apply moments_2d_not_not_uniform|].
      case_decide;
        [apply moments_3d_not_not_uniform | apply moments_2d_not_not_uniform].
    + split; [done|]. intros Hu. apply Hiff in Hu. done.
  - assert (np_diff nu = []) as Hnil.
    { destruct (np_diff nu); simpl in *; congruence. }
    split; [intros []; by apply uniform_steps_short|].
    intros _. rewrite Hnil in Hd0. simpl in Hd0. by intros [= ->].
Qed.

Lemma get_central_nu_bandwidth_uniform_check_witness :
  get_central_nu_bandwidth [1; 2; 4]%Q (Arr1 [fin 0; fin (-1); fin 0])
    = Raise not_uniform ∧
  get_central_nu_bandwidth [1; 2; 3]%Q (Arr1 [fin 0; fin (-1); fin 0])
    ≠ Raise not_uniform.
Proof.
  split.
  - apply (proj1 (get_central_nu_bandwidth_uniform_check _ _)).
    intros H. specialize (H 1%nat 2 4 1 2 eq_refl eq_refl eq_refl eq_refl)%Q.
    vm_compute in H. discriminate H.
  - apply (proj2 (get_central_nu_bandwidth_uniform_check _ _)).
    intros [|[|[|i]]] a b a0 b0 [= <-] [= <-]; simpl; intros [= <-] [= <-];
      by vm_compute.
Defined.

(** ** The moments of a rectangular response *)

Lemma fsum_fin l : fsum (map fin l) = fin (qsum l).
Proof. induction l as [|x l IH]; simpl; [done|]. by rewrite IH. Qed.


















(** The claim as first stated fails by the rounding of the doubles: on
    the grid 0, 1, 2, 3, 4 the response -0.1 on the window from 1 to 3
    has the computed central frequency 2 and the computed bandwidth
    3.0000000000000004, which is more than one step away from the
    width 2 of the window. *)
Lemma rectangular_response_in_doubles :
  ∃ lo hi c bw,
    grid 0 1 5 !! 1%nat = Some lo ∧ grid 0 1 5 !! 3%nat = Some hi ∧
    get_central_nu_bandwidth_doubles (grid 0 1 5) (window_q 1 3 1 (-1 # 10))
      = Ok (fin c, fin bw) ∧
    (c == (lo + hi) / 2)%Q ∧
    (bw == 3 + 1 / 2 ^ 51)%Q ∧
    (Qabs 1 < Qabs (bw - (hi - lo)))%Q.
Proof.
  eexists _, _, _, _.
  split; [reflexivity|]. split; [reflexivity|].
  split; [vm_compute; reflexivity|].
  split; [by vm_compute|]. split; by vm_compute.
Qed.

(** ** Binning by frequency *)

Lemma mask_select_filter (P : Q → Prop) `{∀ x, Decision (P x)} (nu : list Q) :
  mask_select (map (λ x, bool_decide (P x)) nu) nu = filter P nu.
Proof.
  induction nu as [|x nu IH]; simpl; [done|].
  rewrite filter_cons. case_bool_decide; rewrite decide_bool_decide;
    case_bool_decide; try done. by rewrite IH.
Qed.

Lemma mask_select_zip {A} (P : Q → Prop) `{∀ x, Decision (P x)}
    (nu : list Q) (col : list A) :
  length col = length nu →
  mask_select (map (λ x, bool_decide (P x)) nu) col
  = (filter (λ p, P p.1) (zip nu col)).*2.
Proof.
  revert col. induction nu as [|x nu IH]; intros [|y col] Hlen;
    simplify_eq/=; [done|].
  rewrite filter_cons. simpl. case_bool_decide.
  - rewrite decide_True by done. simpl. by rewrite IH.
  - rewrite decide_False by done. by rewrite IH.
Qed.

Lemma mask_select_length {A B} (mask : list bool) (a : list A) (b : list B) :
  length a = length mask → length b = length mask →
  length (mask_select mask a) = length (mask_select mask b).
Proof.
  revert a b. induction mask as [|m mask IH]; intros [|x a] [|y b] ??;
    simplify_eq/=; [done|].
  destruct m; simpl; auto.
Qed.

Lemma Qpos_of_eq (x f : Q) : (0 < f)%Q → (x == f)%Q → (0 < x)%Q.
Proof. intros ? ->. done. Qed.

Lemma samples_at_positive (f : Q) (nu : list Q) (col : list float) :
  (0 < f)%Q → length col = length nu →
  samples_at f (mask_select (positive_mask nu) nu)
             (mask_select (positive_mask nu) col)
  = samples_at f nu col.
Proof.
  intros Hf. unfold samples_at, positive_mask.
  revert col. induction nu as [|x nu IH]; intros [|y col] Hlen;
    simplify_eq/=; [done|].
  rewrite (filter_cons _ (x, y)). simpl. case_bool_decide as Hx.
  - simpl. rewrite filter_cons. simpl.
    destruct (decide (x == f)%Q); simpl; by rewrite IH.
  - rewrite decide_False; [by rewrite IH|].
    intros Hxf. apply Hx. by eapply Qpos_of_eq.
Qed.

Lemma samples_at_run (f : Q) (pre run post : list Q) (col : list float) :
  Forall (λ x, (x == f)%Q) run →
  Forall (λ x, ¬ (x == f)%Q) pre → Forall (λ x, ¬ (x == f)%Q) post →
  length col = length (pre ++ run ++ post) →
  samples_at f (pre ++ run ++ post) col
  = take (length run) (drop (length pre) col).
Proof.
  intros Hrun Hpre Hpost. unfold samples_at. revert col.
  induction Hpre as [|x pre Hx _ IH]; intros col Hlen; simpl.
  - clear Hlen. revert col. induction Hrun as [|x run Hx _ IH]; simpl.
    + intros col. rewrite take_0.
      revert col. induction Hpost as [|x post Hx _ IH]; intros [|y col];
        simpl; try done.
      rewrite filter_cons. simpl. rewrite decide_False by done. apply IH.
    + intros [|y col]; [done|]. simpl. rewrite filter_cons. simpl.
      rewrite decide_True by done. simpl. by rewrite IH.
  - destruct col as [|y col]; simplify_eq/=.
    rewrite filter_cons. simpl. rewrite decide_False by done. by apply IH.
Qed.

Lemma first_index_run (f : Q) (pre run post : list Q) :
  Forall (λ x, ¬ (x == f)%Q) pre → Forall (λ x, (x == f)%Q) run →
  run ≠ [] →
  first_index f (pre ++ run ++ post) = length pre.
Proof.
  intros Hpre Hrun Hne. unfold first_index.
  assert (find_index (Qeq_bool f) (pre ++ run ++ post) = Some (length pre))
    as ->; [|done].
  induction Hpre as [|x pre Hx _ IH]; simpl.
  - destruct Hrun as [|x run Hx _]; [done|]. simpl.
    destruct (Qeq_bool f x) eqn:E; [done|].
    exfalso. apply Qeq_bool_neq in E. apply E. by symmetry.
  - destruct (Qeq_bool f x) eqn:E.
    + exfalso. apply Qeq_bool_iff in E. apply Hx. by symmetry.
    + by rewrite IH.
Qed.

Lemma occurrences_run (f : Q) (pre run post : list Q) :
  Forall (λ x, ¬ (x == f)%Q) pre → Forall (λ x, (x == f)%Q) run →
  Forall (λ x, ¬ (x == f)%Q) post →
  occurrences f (pre ++ run ++ post) = length run.
Proof.
  intros Hpre Hrun Hpost. unfold occurrences.
  rewrite !filter_app, !length_app.
  assert (∀ l, Forall (λ x, ¬ (x == f)%Q) l → filter (λ x, (x == f)%Q) l = []) as Hnone.
  { induction 1 as [|x l Hx _ IH]; [done|].
    rewrite filter_cons. by rewrite decide_False. }
  rewrite (Hnone pre), (Hnone post) by done. simpl.
  assert (filter (λ x, (x == f)%Q) run = run) as ->; [|lia].
  induction Hrun as [|x l Hx _ IH]; [done|].
  rewrite filter_cons. rewrite decide_True by done. by rewrite IH.
Qed.

Lemma py_slice_inside {A} (l : list A) (a b : nat) :
  (a ≤ b ≤ length l)%nat →
  py_slice (Z.of_nat a) (Z.of_nat b) l = take (b - a) (drop a l).
Proof.
  intros H. unfold py_slice, slice_bound.
  rewrite !(proj2 (Z.ltb_ge _ _)) by lia.
  rewrite !Nat2Z.id, !Nat.min_l by lia. done.
Qed.

Lemma trimmed_run_trim (rej j c : nat) (col : list float) :
  (2 * rej < c)%nat → (j + c ≤ length col)%nat →
  trimmed_run rej j c col = trim rej (take c (drop j col)).
Proof.
  intros Hc Hlen. unfold trimmed_run, trim.
  replace (Z.of_nat j + Z.of_nat rej)%Z with (Z.of_nat (j + rej)) by lia.
  replace (Z.of_nat j + Z.of_nat c - Z.of_nat rej)%Z
    with (Z.of_nat (j + c - rej)) by lia.
  rewrite py_slice_inside by lia.
  rewrite length_take, length_drop, Nat.min_l by lia.
  rewrite take_take, Nat.min_l by lia.
  replace (c - rej)%nat with (rej + (c - 2 * rej))%nat by lia.
  rewrite <- take_drop_commute, drop_drop.
  f_equal; lia.
Qed.

(** [np.unique] yields the distinct values in increasing order. *)
Lemma insert_unique_elem_of x y l :
  y ∈ insert_unique x l → y = x ∨ y ∈ l.
Proof.
  induction l as [|z l IH]; simpl.
  - intros ->%list_elem_of_singleton. by left.
  - destruct (x ?= z)%Q.
    + by right.
    + intros [->|?]%elem_of_cons; [by left | by right].
    + intros [->|?]%elem_of_cons; [right; by left|].
      destruct IH as [|]; [done | by left | right; by right].
Qed.

Lemma insert_unique_sorted x l :
  StronglySorted Qlt l → StronglySorted Qlt (insert_unique x l).
Proof.
  induction 1 as [|z l Hl IH Hz]; simpl.
  - repeat constructor.
  - destruct (x ?= z)%Q eqn:E.
    + by constructor.
    + apply Qlt_alt in E. constructor; [by constructor|].
      constructor; [done|].
      eapply Forall_impl; [done|]. intros ??. by eapply Qlt_trans.
    + apply Qgt_alt in E. constructor; [done|].
      apply Forall_forall. intros y [->|Hy]%insert_unique_elem_of; [done|].
      by eapply Forall_forall in Hz.
Qed.

Lemma insert_unique_covers x l :
  ∃ y, y ∈ insert_unique x l ∧ (y == x)%Q.
Proof.
  induction l as [|z l IH]; simpl.
  - exists x. split; [by left | done].
  - destruct (x ?= z)%Q eqn:E.
    + apply Qeq_alt in E. exists z. split; [by left | by symmetry].
    + exists x. split; [by left | done].
    + destruct IH as (y & ? & ?). exists y. split; [by right | done].
Qed.

Lemma insert_unique_keeps x z l :
  z ∈ l → ∃ y, y ∈ insert_unique x l ∧ (y == z)%Q.
Proof.
  induction l as [|w l IH]; simpl; [by intros ?%elem_of_nil|].
  intros Hz. destruct (x ?= w)%Q eqn:E.
  - exists z. done.
  - exists z. split; [by right | done].
  - apply elem_of_cons in Hz as [->|Hz].
    + exists w. split; [by left | done].
    + destruct (IH Hz) as (y & ? & ?). exists y. split; [by right | done].
Qed.

Lemma unique_values_sorted a : StronglySorted Qlt (unique_values a).
Proof.
  induction a as [|x a IH]; simpl; [constructor|].
  by apply insert_unique_sorted.
Qed.

Lemma unique_values_elem_of a y : y ∈ unique_values a → y ∈ a.
Proof.
  induction a as [|x a IH]; simpl; [done|].
  intros [->|?]%insert_unique_elem_of; [by left | right; auto].
Qed.

Lemma unique_values_covers a x :
  x ∈ a → ∃ y, y ∈ unique_values a ∧ (y == x)%Q.
Proof.
  induction a as [|z a IH]; simpl; [by intros ?%elem_of_nil|].
  intros [->|Hx]%elem_of_cons.
  - apply insert_unique_covers.
  - destruct (IH Hx) as (y & Hy & Hyx).
    destruct (insert_unique_keeps z y _ Hy) as (w & ? & ?).
    exists w. split; [done|]. by etrans.
Qed.

Lemma zip_with_map_same {A B C D} (F : B → C → D) (g : A → B) (h : A → C)
    (l : list A) :
  zip_with F (map g l) (map h l) = map (λ x, F (g x) (h x)) l.
Proof. induction l as [|x l IH]; simpl; [done|]. by rewrite IH. Qed.

Lemma Forall2_map_r_same {A B} (R : A → B → Prop) (g : A → B) (l : list A) :
  Forall (λ x, R x (g x)) l → Forall2 R l (map g l).
Proof. induction 1; simpl; by constructor. Qed.

Lemma mask_select_agree (nu : list Q) (c c' : list float) :
  length c' = length c →
  (∀ k x, nu !! k = Some x → (0 < x)%Q → c' !! k = c !! k) →
  mask_select (positive_mask nu) c' = mask_select (positive_mask nu) c.
Proof.
  revert c c'. induction nu as [|x nu IH]; intros [|y c] [|y' c'] Hlen Hag;
    simplify_eq/=; try done.
  case_bool_decide as Hx.
  - pose proof (Hag 0%nat x eq_refl Hx) as Hy. simplify_eq/=.
    f_equal. apply IH; [done|]. intros k z Hk Hz. by apply (Hag (S k) z).
  - apply IH; [done|]. intros k z Hk Hz. by apply (Hag (S k) z).
Qed.

Lemma bool_index_agree (nu : list Q) (data data' : matrix) :
  agree_on_positive nu data data' →
  bool_index (positive_mask nu) data' = bool_index (positive_mask nu) data.
Proof.
  intros Hag. unfold bool_index.
  assert (map (mask_select (positive_mask nu)) data'
          = map (mask_select (positive_mask nu)) data) as ->.
  { induction Hag as [|c c' data data' [Hlen Hc] _ IH]; simpl; [done|].
    rewrite IH. f_equal. by apply mask_select_agree. }
  assert (Forall (λ c, length c = length (positive_mask nu)) data'
          ↔ Forall (λ c, length c = length (positive_mask nu)) data) as Hiff.
  { induction Hag as [|c c' data data' [Hlen Hc] _ IH]; [done|].
    rewrite !Forall_cons, IH, Hlen. done. }
  destruct (decide (Forall _ data')), (decide (Forall _ data)); tauto.
Qed.

Lemma positive_select (nu : list Q) :
  mask_select (positive_mask nu) nu = filter (λ x, (0 < x)%Q) nu.
Proof. apply (mask_select_filter (λ x, (0 < x)%Q)). Qed.

Section binning.
Context (np_sqrt : Q → Q).

(** C3. When every distinct positive frequency occupies a contiguous
    run of more than [2 * rej] samples of the data filtered by
    [nu > 0], [get_frequency_range_and_data] returns the distinct
    positive frequencies in increasing order and, for every detector,
    one value and one standard error per frequency: the median of the
    run of that frequency without its first and last [rej] samples, and
    the standard deviation of the same trimmed run divided by the
    square root of the length [c] of the run.  The samples with
    [nu <= 0] do not contribute: changing them changes nothing. *)
Theorem binned_median_and_standard_error (nu : list Q) (data : matrix)
    (rej : nat) :
  Forall (λ col, length col = length nu) data →
  (∀ f, f ∈ filter (λ x, (0 < x)%Q) nu →
        contiguous_run rej f (filter (λ x, (0 < x)%Q) nu)) →
  ∃ new_nu new_data new_std_dev,
    get_frequency_range_and_data np_sqrt nu data true rej
      = Ok (new_nu, new_data, Some new_std_dev) ∧
    StronglySorted Qlt new_nu ∧
    (∀ f, f ∈ new_nu → (0 < f)%Q ∧ f ∈ nu) ∧
    (∀ x, x ∈ nu → (0 < x)%Q → ∃ f, f ∈ new_nu ∧ (f == x)%Q) ∧
    Forall2 (λ col new_col,
               Forall2 (λ f v,
                          v = np_median (trim rej (samples_at f nu col)))
                       new_nu new_col)
            data new_data ∧
    Forall2 (λ col new_col,
               Forall2 (λ f e,
                          let run := samples_at f nu col in
                          e = fdiv (np_std np_sqrt (trim rej run))
                                   (fin (np_sqrt (inject_Z (Z.of_nat (length run))))))
                       new_nu new_col)
            data new_std_dev ∧
    (∀ data', agree_on_positive nu data data' →
              get_frequency_range_and_data np_sqrt nu data' true rej
              = get_frequency_range_and_data np_sqrt nu data true rej).
Proof.
  intros Hshape Hruns.
  unfold get_frequency_range_and_data.
  unfold bool_index at 1. rewrite decide_True; last first.
  { unfold positive_mask. by rewrite length_map. }
  cbn [mbind result_bind]. unfold np_unique.
  rewrite positive_select.
  set (nuf := filter (λ x, (0 < x)%Q) nu) in *.
  set (u := unique_values nuf).
  assert (∀ f col, f ∈ u → col ∈ data →
            trimmed_run rej (first_index f nuf) (occurrences f nuf)
                        (mask_select (positive_mask nu) col)
            = trim rej (samples_at f nu col) ∧
            occurrences f nuf = length (samples_at f nu col)) as Hkey.
  { intros f col Hf Hcol.
    apply unique_values_elem_of in Hf.
    assert (0 < f)%Q as Hpos by (by apply list_elem_of_filter in Hf as [? _]).
    destruct (Hruns f Hf) as (pre & run & post & Hnuf & Hrun & Hpre & Hpost & Hc).
    assert (length col = length nu) as Hlen
      by (by eapply Forall_forall in Hshape).
    assert (length (mask_select (positive_mask nu) col) = length nuf) as Hlenf.
    { unfold nuf. rewrite <- positive_select.
      apply mask_select_length; unfold positive_mask;
        by rewrite ?length_map. }
    assert (samples_at f nu col
            = take (length run)
                   (drop (length pre) (mask_select (positive_mask nu) col)))
      as Hsamples.
    { rewrite <- (samples_at_positive f nu col Hpos Hlen).
      rewrite positive_select. fold nuf.
      rewrite Hnuf. apply samples_at_run; try done. by rewrite <- Hnuf. }
    rewrite Hnuf, first_index_run, occurrences_run; try done;
      [|intros ->; simpl in Hc; lia].
    rewrite Hnuf, !length_app in Hlenf.
    split.
    - rewrite trimmed_run_trim by lia. by rewrite Hsamples.
    - rewrite Hsamples, length_take, length_drop. lia. }
  eexists _, _, _. split; [done|].
  split; [apply unique_values_sorted|].
  split.
  { intros f Hf%unique_values_elem_of.
    by apply list_elem_of_filter in Hf. }
  split.
  { intros x Hx Hpos. apply unique_values_covers.
    by apply list_elem_of_filter. }
  split; [|split].
  - rewrite map_map. apply Forall2_map_r_same, Forall_forall.
    intros col Hcol. rewrite zip_with_map_same.
    apply Forall2_map_r_same, Forall_forall. intros f Hf.
    by rewrite (proj1 (Hkey f col Hf Hcol)).
  - rewrite map_map. apply Forall2_map_r_same, Forall_forall.
    intros col Hcol. rewrite zip_with_map_same.
    apply Forall2_map_r_same, Forall_forall. intros f Hf. simpl.
    destruct (Hkey f col Hf Hcol) as [-> ->]. done.
  - intros data' Hag. by rewrite (bool_index_agree _ _ _ Hag).
Qed.
End binning.

Lemma binned_median_and_standard_error_witness :
  let nu := [-1; 40; 40; 40; 41; 41; 41; -1]%Q in
  let data := [map fin [0; -5; -3; -4; -7; -9; -8; 0]%Q;
               map fin [1; -2; -2; -6; -1; -3; -5; 1]%Q] in
  ∃ new_nu new_data new_std_dev,
    get_frequency_range_and_data sqrt_6_digits nu data true 1
      = Ok (new_nu, new_data, Some new_std_dev) ∧
    StronglySorted Qlt new_nu ∧
    (∀ f, f ∈ new_nu → (0 < f)%Q ∧ f ∈ nu) ∧
    (∀ x, x ∈ nu → (0 < x)%Q → ∃ f, f ∈ new_nu ∧ (f == x)%Q) ∧
    Forall2 (λ col new_col,
               Forall2 (λ f v, v = np_median (trim 1 (samples_at f nu col)))
                       new_nu new_col)
            data new_data ∧
    Forall2 (λ col new_col,
               Forall2 (λ f e,
                          let run := samples_at f nu col in
                          e = fdiv (np_std sqrt_6_digits (trim 1 run))
                                   (fin (sqrt_6_digits (inject_Z (Z.of_nat (length run))))))
                       new_nu new_col)
            data new_std_dev ∧
    (∀ data', agree_on_positive nu data data' →
              get_frequency_range_and_data sqrt_6_digits nu data' true 1
              = get_frequency_range_and_data sqrt_6_digits nu data true 1).
Proof.
  intros nu data.
  apply (binned_median_and_standard_error sqrt_6_digits nu data 1).
  - by repeat constructor.
  - intros f Hf.
    assert (f = 40%Q ∨ f = 41%Q) as [-> | ->].
    { assert (filter (λ x, (0 < x)%Q) nu = [40; 40; 40; 41; 41; 41]%Q) as Heq
        by (by vm_compute).
      rewrite Heq in Hf.
      repeat (apply elem_of_cons in Hf as [->|Hf]; [by auto|]).
      by apply elem_of_nil in Hf. }
    + exists [], [40; 40; 40]%Q, [41; 41; 41]%Q.
      split; [by vm_compute|]. repeat split; repeat constructor; by vm_compute.
    + exists [40; 40; 40]%Q, [41; 41; 41]%Q, [].
      split; [by vm_compute|]. repeat split; repeat constructor; by vm_compute.
Defined.

Example binning_example :
  get_frequency_range_and_data sqrt_6_digits
    [-1; 40; 40; 40; 41; 41; 41; -1]%Q
    [map fin [0; -5; -3; -4; -7; -9; -8; 0]%Q] false 1
  = Ok ([40; 41]%Q, [[fin (-3); fin (-9)]], None).
Proof. reflexivity. Qed.

(** ** The blind channel *)

Lemma finite_fin (l : list Q) : finite (map fin l) = Some l.
Proof.
  unfold finite. induction l as [|x l IH]; [done|].
  cbn. cbn in IH. by rewrite IH.
Qed.

Lemma find_index_first {A} (p : A → bool) (l : list A) (k : nat) (x : A) :
  l !! k = Some x → p x = true →
  (∀ j y, (j < k)%nat → l !! j = Some y → p y = false) →
  find_index p l = Some k.
Proof.
  revert k. induction l as [|z l IH]; intros [|k] Hk Hp Hbefore;
    simplify_eq/=.
  - by rewrite Hp.
  - rewrite (Hbefore 0%nat z) by (done || lia).
    rewrite (IH k); [done..|].
    intros j y Hj Hy. apply (Hbefore (S j) y); [lia | done].
Qed.

Lemma qmin_le_init x l : (qmin x l <= x)%Q.
Proof.
  unfold qmin. revert x. induction l as [|y l IH]; intros x; simpl.
  - apply Qle_refl.
  - destruct (Qle_bool x y) eqn:E; [apply IH|].
    eapply Qle_trans; [apply IH|].
    destruct (Qlt_le_dec y x) as [?|Hle]; [by apply Qlt_le_weak|].
    apply Qle_bool_iff in Hle. congruence.
Qed.

Lemma qmin_le x l y : y ∈ l → (qmin x l <= y)%Q.
Proof.
  unfold qmin. revert x. induction l as [|z l IH]; intros x;
    [by intros ?%elem_of_nil|].
  intros [->|Hy]%elem_of_cons; simpl; [|by apply IH].
  destruct (Qle_bool x z) eqn:E.
  - eapply Qle_trans; [apply qmin_le_init|]. by apply Qle_bool_iff.
  - apply qmin_le_init.
Qed.

Lemma qmin_elem_of x l : qmin x l ∈ x :: l.
Proof.
  unfold qmin. revert x. induction l as [|z l IH]; intros x; simpl;
    [by left|].
  destruct (Qle_bool x z).
  - pose proof (IH x) as [Heq|?]%elem_of_cons; [rewrite Heq; by left|].
    right. by right.
  - right. apply IH.
Qed.

Lemma np_argmin_first_smallest (r : list Q) (k : nat) :
  first_smallest r k → np_argmin (map fin r) = Ok k.
Proof.
  intros (x & Hk & Hle & Hlt). unfold np_argmin.
  destruct r as [|r0 r]; [done|]. 
  change (map fin (r0 :: r)) with (fin r0 :: map fin r).
  cbv match. change (fin r0 :: map fin r) with (map fin (r0 :: r)).
  rewrite finite_fin.
  assert (qmin r0 r == x)%Q as Hmin.
  { apply Qle_antisym.
    - apply lookup_cons_Some in Hk as [[_ ->]|[_ Hk]]; [apply qmin_le_init|].
      apply qmin_le. by eapply list_elem_of_lookup_2.
    - destruct (list_elem_of_lookup_1 _ _ (qmin_elem_of r0 r)) as [j Hj].
      by eapply Hle. }
  rewrite (find_index_first _ _ k x); [done | done | |].
  - apply Qeq_bool_iff. done.
  - intros j y Hj Hy. specialize (Hlt j y Hj Hy).
    destruct (Qeq_bool (qmin r0 r) y) eqn:E; [|done].
    apply Qeq_bool_iff in E. lra.
Qed.

Lemma insert_sorted_Forall (P : Q → Prop) x l :
  P x → Forall P l → Forall P (insert_sorted x l).
Proof.
  intros Hx. induction 1 as [|y l Hy Hl IH]; simpl.
  - by repeat constructor.
  - destruct (Qle_bool x y); repeat constructor; done.
Qed.

Lemma sort_Forall (P : Q → Prop) l : Forall P l → Forall P (sort l).
Proof.
  induction 1 as [|x l Hx Hl IH]; simpl; [constructor|].
  by apply insert_sorted_Forall.
Qed.

Lemma insert_sorted_length x l : length (insert_sorted x l) = S (length l).
Proof.
  induction l as [|y l IH]; simpl; [done|].
  destruct (Qle_bool x y); simpl; by rewrite ?IH.
Qed.

Lemma sort_length l : length (sort l) = length l.
Proof.
  induction l as [|x l IH]; simpl; [done|].
  by rewrite insert_sorted_length, IH.
Qed.

Lemma percentile_index_bound (q : Q) (m : nat) :
  (0 <= q)%Q → (q <= 100)%Q →
  (Z.to_nat (Qfloor (q / 100 * inject_Z (Z.of_nat m))) ≤ m)%nat.
Proof.
  intros H0 H100.
  assert (q / 100 * inject_Z (Z.of_nat m) <= inject_Z (Z.of_nat m))%Q as Hle.
  { rewrite <- (Qmult_1_l (inject_Z (Z.of_nat m))) at 2.
    apply Qmult_le_compat_r.
    - apply Qle_shift_div_r; lra.
    - change 0%Q with (inject_Z 0). rewrite <- Zle_Qle. lia. }
  apply Qfloor_resp_le in Hle. rewrite Qfloor_Z in Hle. lia.
Qed.

Lemma percentile_sorted_constant (q v : Q) (s : list Q) :
  (0 <= q)%Q → (q <= 100)%Q → s ≠ [] → Forall (λ x, (x == v)%Q) s →
  (percentile_sorted q s == v)%Q.
Proof.
  intros H0 H100 Hne Hs. unfold percentile_sorted.
  assert (0 < length s)%nat as Hlen by (destruct s; simpl; [done | lia]).
  pose proof (percentile_index_bound q (length s - 1) H0 H100) as Hlo.
  set (lo := Z.to_nat _) in *.
  destruct (lookup_lt_is_Some_2 s lo) as [a Ha]; [lia|].
  destruct (lookup_lt_is_Some_2 s (Nat.min (lo + 1) (length s - 1)))
    as [b Hb]; [lia|].
  rewrite Ha, Hb. simpl.
  rewrite Forall_lookup in Hs.
  rewrite (Hs _ _ Ha), (Hs _ _ Hb). ring.
Qed.

Lemma percentile_range_constant (v : Q) (col : list Q) :
  col ≠ [] → Forall (λ x, (x == v)%Q) col → (percentile_range col == 0)%Q.
Proof.
  intros Hne Hcol. unfold percentile_range.
  assert (sort col ≠ []) as Hne'.
  { intros Hnil. apply (f_equal length) in Hnil.
    rewrite sort_length in Hnil. by destruct col. }
  rewrite !(percentile_sorted_constant _ v); [ring | lra.. | done | | lra | lra | done |];
    by apply sort_Forall.
Qed.

Lemma qmax_ge_init x l : (x <= qmax x l)%Q.
Proof.
  unfold qmax. revert x. induction l as [|y l IH]; intros x; simpl.
  - apply Qle_refl.
  - destruct (Qle_bool y x) eqn:E; [apply IH|].
    eapply Qle_trans; [|apply IH].
    destruct (Qlt_le_dec x y) as [?|Hle]; [by apply Qlt_le_weak|].
    apply Qle_bool_iff in Hle. congruence.
Qed.

Lemma var_range_fin (cols : list (list Q)) :
  Forall (λ c, c ≠ []) cols →
  map (λ c, fsub (np_percentile 95 c) (np_percentile 5 c)) (map (map fin) cols)
  = map fin (map percentile_range cols).
Proof.
  induction 1 as [|c cols Hc _ IH]; simpl; [done|].
  rewrite IH. f_equal. unfold np_percentile. rewrite finite_fin.
  cbn [mbind option_bind]. rewrite !decide_False by done. reflexivity.
Qed.

Lemma zip_with_map_both {A B C D} (F : B → C → D) (g : A → B) (h : A → C)
    (l : list A) :
  zip_with F (map g l) (map h l) = map (λ x, F (g x) (h x)) l.
Proof. induction l as [|x l IH]; simpl; by rewrite ?IH. Qed.

(** On columns that hold a sample the percentiles are taken, and the
    blind index is the first index of the smallest range. *)
Lemma find_blind_channel_samples (data : matrix) :
  Forall (λ c, c ≠ []) data →
  find_blind_channel data
  = (idx_blind ← np_argmin
       (map (λ c, fsub (np_percentile 95 c) (np_percentile 5 c)) data);
     if decide (idx_blind = 0%nat) then Ok (idx_blind, "0110"%string)
     else if decide (idx_blind = 3%nat) then Ok (idx_blind, "0101"%string)
     else Raise (UnboundLocalError "pss")).
Proof.
  intros Hne. unfold find_blind_channel, percentile_axis0.
  assert (¬ (data ≠ [] ∧ nrows data = 0%nat)) as Hrows.
  { intros [Hd Hn]. destruct data as [|c data]; [done|].
    apply Forall_cons in Hne as [Hc _]. by destruct c. }
  rewrite decide_False by done. cbn [mbind result_bind].
  rewrite decide_False by done. cbn [mbind result_bind].
  by rewrite zip_with_map_both.
Qed.

(** The blind index and the status for a matrix of numbers whose column
    [k] is the first one of smallest range. *)
Lemma find_blind_channel_first_smallest (cols : list (list Q)) (k : nat) :
  Forall (λ c, c ≠ []) cols →
  first_smallest (map percentile_range cols) k →
  find_blind_channel (map (map fin) cols)
  = if decide (k = 0%nat) then Ok (0%nat, "0110"%string)
    else if decide (k = 3%nat) then Ok (3%nat, "0101"%string)
    else Raise (UnboundLocalError "pss").
Proof.
  intros Hne Hk. rewrite find_blind_channel_samples; last first.
  { apply Forall_fmap. eapply Forall_impl; [exact Hne|].
    intros c Hc. by destruct c. }
  rewrite var_range_fin by done.
  rewrite (np_argmin_first_smallest _ k Hk). simpl.
  repeat case_decide; by subst.
Qed.






(** ** Normalization in AnalyzeBandTest *)

Lemma finite_Some (l : list float) (qs : list Q) :
  finite l = Some qs → l = map fin qs.
Proof.
  unfold finite. intros H%mapM_Some.
  induction H as [|x q l qs Hx _ IH]; simpl; [done|].
  simpl in Hx. by rewrite Hx, IH.
Qed.

Lemma mapM_result_Forall2 {A B} (f : A → result B) (l : list A) (k : list B) :
  mapM f l = Ok k → Forall2 (λ x y, f x = Ok y) l k.
Proof.
  revert k. induction l as [|x l IH]; intros k; simpl.
  - intros [= <-]. constructor.
  - destruct (f x) eqn:Hx; simpl; [|done].
    destruct (mapM f l) eqn:Hl; simpl; [|done].
    intros [= <-]. constructor; [done|]. by apply IH.
Qed.




Lemma mask_select_all {A} (n : nat) (l : list A) :
  (length l ≤ n)%nat → mask_select (replicate n true) l = l.
Proof.
  revert n. induction l as [|x l IH]; intros [|n] Hn; simpl in *;
    try done; [lia|].
  rewrite IH; [done | lia].
Qed.

(** Masking one column out of at most [n] is deleting it. *)
Lemma mask_select_delete {A} (n i : nat) (l : list A) :
  (length l ≤ n)%nat →
  mask_select (<[i := false]> (replicate n true)) l = delete i l.
Proof.
  revert n i. induction l as [|x l IH]; intros [|n] [|i] Hn; simpl in *;
    try done; try lia.
  - apply mask_select_all. lia.
  - rewrite IH; [done | lia].
Qed.


Lemma find_blind_channel_ok (data : matrix) (idx : nat) (status : string) :
  find_blind_channel data = Ok (idx, status) →
  idx = 0%nat ∧ status = "0110"%string ∨ idx = 3%nat ∧ status = "0101"%string.
Proof.
  unfold find_blind_channel.
  destruct (percentile_axis0 95 data) as [hi|]; cbn [mbind result_bind];
    [|done].
  destruct (percentile_axis0 5 data) as [lo|]; cbn [mbind result_bind];
    [|done].
  destruct (np_argmin _) as [k|]; cbn [mbind result_bind]; [|done].
  repeat case_decide; intros [=]; subst; auto.
Qed.

Section normalization.
Context (np_sqrt : Q → Q).
Context (load_timestream : string → result (list Q * matrix)).


End normalization.


(** The claim as first stated fails on a sweep in which a frequency was
    held for two samples only: the median of the empty trimmed run is
    nan, the minimum of every retained column is nan and not 0, and the
    normalized columns hold nan, no number of [-1, 0] and no -1. *)
Lemma normalized_columns_with_nan :
  ∃ r col ncol,
    AnalyzeBandTest sqrt_6_digits example_load_short "STRIP" "sweep.txt" "out"
      = Ok r ∧
    retained_columns r !! 0%nat = Some col ∧
    norm_data r !! 0%nat = Some ncol ∧
    np_min col = Ok nan ∧
    ncol = [nan; nan; nan] ∧
    ¬ Forall in_unit ncol ∧
    ¬ ∃ k q, ncol !! k = Some (fin q) ∧ (q == -1)%Q.
Proof.
  eexists _, _, _.
  split; [vm_compute; reflexivity|].
  split; [vm_compute; reflexivity|].
  split; [vm_compute; reflexivity|].
  split; [vm_compute; reflexivity|].
  split; [reflexivity|]. split.
  - intros [(q & Hq & _) _]%Forall_cons. done.
  - intros (k & q & Hk & _).
    do 3 (destruct k as [|k]; [done|]). done.
Qed.

(** The run on the example sweep: detector 0 is blind, and the three
    other columns are normalized to a minimum of -1. *)
Example analyze_band_test_example :
  ∃ r, AnalyzeBandTest sqrt_6_digits example_load "STRIP" "sweep.txt" "out"
       = Ok r ∧
       pss r = "0110"%string ∧ new_nu r = [40; 41; 42]%Q ∧
       Forall2 (Forall2 feq) (new_data r)
         (map (map fin) [[0; 0; 0]; [-1; -2; -1]; [-2; -4; -1]; [-1; -8; -3]]%Q) ∧
       Forall2 (Forall2 feq) (norm_data r)
         (map (map fin)
            [[-1 # 2; -1; -1 # 2]; [-1 # 2; -1; -1 # 4]; [-1 # 8; -1; -3 # 8]]%Q).
Proof.
  eexists. split; [vm_compute; reflexivity|].
  split; [reflexivity|]. split; [reflexivity|].
  split; repeat constructor; by vm_compute.
Qed.

(** ** Offset removal *)

Lemma qmax_ge x l y : y ∈ l → (y <= qmax x l)%Q.
Proof.
  unfold qmax. revert x. induction l as [|z l IH]; intros x;
    [by intros ?%elem_of_nil|].
  intros [->|Hy]%elem_of_cons; simpl; [|by apply IH].
  destruct (Qle_bool z x) eqn:E.
  - eapply Qle_trans; [|apply qmax_ge_init]. by apply Qle_bool_iff.
  - apply qmax_ge_init.
Qed.

(** The smallest positive frequency is below the largest frequency when
    the axis holds a positive frequency and a larger one. *)
Lemma min_positive_lt_max (nu : list Q) (f g : Q) :
  f ∈ nu → g ∈ nu → (0 < f)%Q → (f < g)%Q →
  ∃ x0 x1, np_min_q (mask_select (positive_mask nu) nu) = Ok x0 ∧
           np_max_q nu = Ok x1 ∧ (x0 < x1)%Q.
Proof.
  intros Hf Hg Hpos Hlt. rewrite positive_select.
  assert (f ∈ filter (λ x, (0 < x)%Q) nu) as Hf'
    by (by apply list_elem_of_filter).
  destruct (filter _ nu) as [|p ps] eqn:Hfilter; [by apply elem_of_nil in Hf'|].
  destruct nu as [|n nu]; [by apply elem_of_nil in Hg|].
  eexists _, _. split; [done|]. split; [done|].
  apply Qle_lt_trans with f.
  - apply elem_of_cons in Hf' as [->|?]; [apply qmin_le_init | by apply qmin_le].
  - apply Qlt_le_trans with g; [done|].
    apply elem_of_cons in Hg as [->|?]; [apply qmax_ge_init | by apply qmax_ge].
Qed.

Lemma Qle_bool_shift (x y k : Q) : Qle_bool (x + k) (y + k) = Qle_bool x y.
Proof.
  destruct (Qle_bool x y) eqn:E.
  - apply Qle_bool_iff. apply Qle_bool_iff in E. lra.
  - destruct (Qle_bool (x + k) (y + k)) eqn:E'; [|done].
    apply Qle_bool_iff in E'.
    assert (x <= y)%Q as H by lra. apply Qle_bool_iff in H. congruence.
Qed.

Lemma insert_sorted_shift (k x : Q) (l : list Q) :
  insert_sorted (x + k) (map (λ y, y + k)%Q l)
  = map (λ y, y + k)%Q (insert_sorted x l).
Proof.
  induction l as [|y l IH]; simpl; [done|].
  rewrite Qle_bool_shift. destruct (Qle_bool x y); simpl; [done|].
  by rewrite IH.
Qed.

Lemma sort_shift (k : Q) (l : list Q) :
  sort (map (λ y, y + k)%Q l) = map (λ y, y + k)%Q (sort l).
Proof.
  induction l as [|x l IH]; simpl; [done|].
  by rewrite IH, insert_sorted_shift.
Qed.

Lemma median_sorted_shift (k : Q) (s : list Q) :
  s ≠ [] →
  (median_sorted (map (λ y, y + k)%Q s) == median_sorted s + k)%Q.
Proof.
  intros Hne. unfold median_sorted. rewrite length_map.
  assert (0 < length s)%nat as Hlen by (destruct s; simpl; [done | lia]).
  assert (length s / 2 < length s)%nat as H2
    by (apply Nat.div_lt; lia).
  destruct (lookup_lt_is_Some_2 s (length s / 2)) as [b Hb]; [lia|].
  destruct (lookup_lt_is_Some_2 s (length s / 2 - 1)) as [a Ha]; [lia|].
  rewrite !list_lookup_fmap, Ha, Hb. simpl.
  destruct (Nat.even (length s)); [field | ring].
Qed.

Lemma np_median_fin (qs : list Q) :
  qs ≠ [] → np_median (map fin qs) = fin (median_sorted (sort qs)).
Proof.
  intros Hne. unfold np_median. rewrite finite_fin.
  cbn [mbind option_bind]. by rewrite decide_False.
Qed.

Lemma np_median_fin_inv (qs : list Q) (m : Q) :
  feq (np_median (map fin qs)) (fin m) →
  qs ≠ [] ∧ (median_sorted (sort qs) == m)%Q.
Proof.
  unfold np_median. rewrite finite_fin. cbn [mbind option_bind].
  case_decide; [done|]. simpl. done.
Qed.

(** The median of a shifted array of numbers. *)
Lemma np_median_shift (k m : Q) (qs : list Q) :
  feq (np_median (map fin qs)) (fin m) →
  ∃ y, np_median (map (λ d, fin (d + k)) qs) = fin y ∧ (y == m + k)%Q.
Proof.
  intros [Hne Hm]%np_median_fin_inv.
  exists (median_sorted (sort (map (λ y, y + k)%Q qs))). split.
  - rewrite <- np_median_fin; [by rewrite map_map|].
    by destruct qs.
  - rewrite sort_shift, median_sorted_shift, Hm; [done|].
    intros Hnil. apply (f_equal length) in Hnil.
    rewrite sort_length in Hnil. by destruct qs.
Qed.

Lemma samples_at_map {A B} (g : A → B) (f : Q) (nu : list Q) (col : list A) :
  samples_at f nu (map g col) = map g (samples_at f nu col).
Proof.
  unfold samples_at. revert col.
  induction nu as [|x nu IH]; intros [|y col]; simpl; try done.
  rewrite !filter_cons. simpl. destruct (decide (x == f)%Q); simpl;
    by rewrite IH.
Qed.

Lemma off_mask_select {A} (nu : list Q) (col : list A) :
  length col = length nu →
  mask_select (off_mask nu) col = samples_at (-1) nu col.
Proof.
  intros Hlen. unfold off_mask, samples_at.
  by rewrite (mask_select_zip (λ x, (x == -1)%Q)).
Qed.

Lemma bool_index_ok (mask : list bool) (data : matrix) :
  Forall (λ c, length c = length mask) data →
  bool_index mask data = Ok (map (mask_select mask) data).
Proof. intros H. unfold bool_index. by rewrite decide_True. Qed.

(** [remove_offset] on four detector columns: each loses the line fitted
    through its two offsets. *)
Lemma remove_offset_four (nu : list Q) (c0 c1 c2 c3 : list float)
    (x0 x1 a0 b0 a1 b1 a2 b2 a3 b3 : Q) :
  Forall (λ c, length c = length nu) [c0; c1; c2; c3] →
  np_min_q (mask_select (positive_mask nu) nu) = Ok x0 →
  np_max_q nu = Ok x1 →
  polyfit1 x0 x1 (first_offset_of nu c0) (second_offset_of nu c0)
    = (fin a0, fin b0) →
  polyfit1 x0 x1 (first_offset_of nu c1) (second_offset_of nu c1)
    = (fin a1, fin b1) →
  polyfit1 x0 x1 (first_offset_of nu c2) (second_offset_of nu c2)
    = (fin a2, fin b2) →
  polyfit1 x0 x1 (first_offset_of nu c3) (second_offset_of nu c3)
    = (fin a3, fin b3) →
  remove_offset nu [c0; c1; c2; c3]
  = Ok [zip_with fsub c0 (map (λ x, fin (x * a0 + b0)) nu);
        zip_with fsub c1 (map (λ x, fin (x * a1 + b1)) nu);
        zip_with fsub c2 (map (λ x, fin (x * a2 + b2)) nu);
        zip_with fsub c3 (map (λ x, fin (x * a3 + b3)) nu)].
Proof.
  intros Hlen Hx0 Hx1 H0 H1 H2 H3.
  assert (length c0 = length nu ∧ length c1 = length nu ∧
          length c2 = length nu ∧ length c3 = length nu) as (L0 & L1 & L2 & L3).
  { by repeat (apply Forall_cons in Hlen as [? Hlen]). }
  unfold remove_offset. cbn [nrows]. rewrite L0.
  set (h := (length nu / 2)%nat).
  assert (h ≤ length nu)%nat as Hh
    by (apply Nat.Div0.div_le_upper_bound; lia).
  rewrite bool_index_ok; last first.
  { apply Forall_fmap. eapply Forall_impl; [exact Hlen|].
    intros c Hc. cbn beta in Hc. unfold off_mask, compose.
    rewrite length_map, ?length_take, ?length_drop. lia. }
  cbn [mbind result_bind].
  rewrite bool_index_ok; last first.
  { apply Forall_fmap. eapply Forall_impl; [exact Hlen|].
    intros c Hc. cbn beta in Hc. unfold off_mask, compose.
    rewrite length_map, ?length_take, ?length_drop. lia. }
  cbn [mbind result_bind]. rewrite Hx0, Hx1. cbn [mbind result_bind].
  cbn [map seq mapM]. unfold offset_line, index. cbn [lookup list_lookup].
  cbn [mbind result_bind].
  rewrite !off_mask_select by (rewrite ?length_take, ?length_drop; lia).
  unfold first_offset_of, second_offset_of in H0, H1, H2, H3.
  fold h in H0, H1, H2, H3.
  rewrite H0, H1, H2, H3. cbn [mbind result_bind mret result_ret].
  reflexivity.
Qed.

Lemma take_map {A B} (g : A → B) (n : nat) (l : list A) :
  take n (map g l) = map g (take n l).
Proof. revert n. induction l as [|x l IH]; intros [|n]; simpl; by rewrite ?IH. Qed.

Lemma drop_map {A B} (g : A → B) (n : nat) (l : list A) :
  drop n (map g l) = map g (drop n l).
Proof. revert n. induction l as [|x l IH]; intros [|n]; simpl; by rewrite ?IH. Qed.

Lemma offsets_shift (nu col : list Q) (k : Q) :
  offset_free nu col →
  ∃ y0 y1,
    first_offset_of nu (map (λ d, fin (d + k)) col) = fin y0 ∧
    second_offset_of nu (map (λ d, fin (d + k)) col) = fin y1 ∧
    (y0 == k)%Q ∧ (y1 == k)%Q.
Proof.
  unfold offset_free, first_offset_of, second_offset_of.
  rewrite !take_map, !drop_map, !samples_at_map.
  intros [H0 H1].
  destruct (np_median_shift k 0 _ H0) as (y0 & Hy0 & E0).
  destruct (np_median_shift k 0 _ H1) as (y1 & Hy1 & E1).
  exists y0, y1. repeat split; [done | done | lra | lra].
Qed.

Lemma polyfit1_constant (x0 x1 y0 y1 k : Q) :
  (x0 < x1)%Q → (y0 == k)%Q → (y1 == k)%Q →
  ∃ a b, polyfit1 x0 x1 (fin y0) (fin y1) = (fin a, fin b) ∧
         (a == 0)%Q ∧ (b == k)%Q.
Proof.
  intros Hx E0 E1. unfold polyfit1, fin.
  destruct (Qeq_bool x0 x1) eqn:E; [apply Qeq_bool_iff in E; lra|].
  eexists _, _. split; [done|].
  assert ((y1 - y0) / (x1 - x0) == 0)%Q as Ha.
  { rewrite E0, E1. field. lra. }
  split; [done|]. rewrite Ha, E0. ring.
Qed.

Lemma column_restored (nu col : list Q) (a b k : Q) :
  length col = length nu → (a == 0)%Q → (b == k)%Q →
  Forall2 feq (zip_with fsub (map (λ d, fin (d + k)) col)
                        (map (λ x, fin (x * a + b)) nu))
          (map fin col).
Proof.
  intros Hlen Ha Hb. revert nu Hlen.
  induction col as [|d col IH]; intros [|x nu] Hlen; simplify_eq/=;
    constructor; [|by apply IH].
  simpl. rewrite Ha, Hb. ring.
Qed.

(** C7, as the code has it.  Let the frequency axis hold a positive
    frequency and a larger one, and let [D] be a power array of four
    detector columns, each free of offset.  Then removing the offset from
    [D] with a constant [k] added to every element gives back [D]. *)
Theorem remove_offset_round_trip (nu : list Q) (D : list (list Q))
    (k f g : Q) :
  length D = 4%nat → Forall (λ c, length c = length nu) D →
  f ∈ nu → g ∈ nu → (0 < f)%Q → (f < g)%Q →
  Forall (offset_free nu) D →
  ∃ R, remove_offset nu (map (map (λ d, fin (d + k))) D) = Ok R ∧
       Forall2 (Forall2 feq) R (map (map fin) D).
Proof.
  intros HD Hlen Hf Hg Hpos Hlt Hfree.
  destruct D as [|c0 [|c1 [|c2 [|c3 [|]]]]]; simplify_eq/=.
  destruct (min_positive_lt_max nu f g) as (x0 & x1 & Hx0 & Hx1 & Hx);
    [done..|].
  assert (∀ c, c ∈ [c0; c1; c2; c3] →
            length c = length nu ∧
            ∃ a b, polyfit1 x0 x1
                     (first_offset_of nu (map (λ d, fin (d + k)) c))
                     (second_offset_of nu (map (λ d, fin (d + k)) c))
                   = (fin a, fin b) ∧ (a == 0)%Q ∧ (b == k)%Q) as Hcol.
  { intros c Hc. rewrite Forall_forall in Hlen, Hfree.
    split; [by apply Hlen|].
    destruct (offsets_shift nu c k (Hfree c Hc)) as (y0 & y1 & -> & -> & E0 & E1).
    by apply polyfit1_constant. }
  destruct (Hcol c0) as (L0 & a0 & b0 & P0 & A0 & B0); [by repeat constructor|].
  destruct (Hcol c1) as (L1 & a1 & b1 & P1 & A1 & B1); [by repeat constructor|].
  destruct (Hcol c2) as (L2 & a2 & b2 & P2 & A2 & B2); [by repeat constructor|].
  destruct (Hcol c3) as (L3 & a3 & b3 & P3 & A3 & B3); [by repeat constructor|].
  eexists. split.
  - apply (remove_offset_four nu _ _ _ _ x0 x1 a0 b0 a1 b1 a2 b2 a3 b3);
      try done.
    repeat constructor; by rewrite length_map.
  - repeat constructor; by apply column_restored.
Qed.

Lemma remove_offset_round_trip_witness :
  ∃ R, remove_offset [-1; 40; 41; -1]%Q
         (map (map (λ d, fin (d + 5)))
              [[0; -3; -4; 0]; [0; -1; -2; 0]; [0; -7; -1; 0]; [0; 0; 0; 0]]%Q)
       = Ok R ∧
       Forall2 (Forall2 feq) R
         (map (map fin)
              [[0; -3; -4; 0]; [0; -1; -2; 0]; [0; -7; -1; 0]; [0; 0; 0; 0]]%Q).
Proof.
  apply (remove_offset_round_trip _ _ 5 40 41)%Q.
  - reflexivity.
  - by repeat constructor.
  - by repeat constructor.
  - by repeat constructor.
  - by vm_compute.
  - by vm_compute.
  - repeat constructor; by vm_compute.
Defined.

(** The claim as first stated fails for an acquisition without a
    positive frequency: the array is free of offset, and the function
    raises on the minimum of an empty selection. *)
Lemma remove_offset_without_positive_frequency :
  Forall (offset_free [-1; -1]%Q) [[0; 0]; [0; 0]; [0; 0]; [0; 0]]%Q ∧
  remove_offset [-1; -1]%Q
    (map (map (λ d, fin (d + 1))) [[0; 0]; [0; 0]; [0; 0]; [0; 0]]%Q)
  = Raise (empty_reduction "minimum").
Proof. split; [repeat constructor; by vm_compute | by vm_compute]. Qed.

(** With a single positive frequency the fit through two points of the
    same abscissa is not the constant line: the samples taken with the
    generator off keep a part of the offset. *)
Example remove_offset_single_frequency :
  ∃ R, remove_offset [-1; 40; 40; -1]%Q
         (map (map (λ d, fin (d + 2)))
              [[0; -3; -4; 0]; [0; -1; -2; 0]; [0; -7; -1; 0]; [0; 0; 0; 0]]%Q)
       = Ok R ∧
       R !! 0%nat ≫= (.!! 0%nat) = Some (fin (656 # 640)) ∧
       ¬ Forall2 (Forall2 feq) R
           (map (map fin)
              [[0; -3; -4; 0]; [0; -1; -2; 0]; [0; -7; -1; 0]; [0; 0; 0; 0]]%Q).
Proof.
  eexists. split; [vm_compute; reflexivity|]. split; [reflexivity|].
  intros H. apply Forall2_cons in H as [H _].
  apply Forall2_cons in H as [H _]. by vm_compute in H.
Qed.

(** ** The Report Parameter Mapping *)

Lemma table_get_row (t : table) (j i : nat) (row : list float) (x : float) :
  t !! j = Some row → row !! i = Some x → table_get t j i = Ok x.
Proof. intros Hj Hi. unfold table_get. by rewrite Hj; simpl; rewrite Hi. Qed.

Lemma table_set_row (t : table) (j i : nat) (row : list float) (v : float) :
  t !! j = Some row → (i < length row)%nat →
  table_set t j i v = Ok (<[j := <[i := v]> row]> t).
Proof. intros Hj Hi. unfold table_set. rewrite Hj. by rewrite decide_True. Qed.

Lemma detector_body_keep (j : nat) (pss : string) (i : nat) (nam : string)
    (results : gmap string value) (st : arrays) (cn_row bw_row : list float)
    (c b : float) (d : gmap string (gmap string float)) :
  is_blind pss i = false →
  central_nu_tbl st !! j = Some cn_row → cn_row !! i = Some c →
  bandwidth_tbl st !! j = Some bw_row → bw_row !! i = Some b →
  results !! file_key pss j = Some (VDict d) →
  detector_body j pss i nam results st
  = (Ok (<[file_key pss j :=
            VDict (<[remove_slashes nam := detector_entry c b]> d)]> results),
     st).
Proof.
  intros Hblind Hcn Hc Hbw Hb Hd. unfold detector_body. rewrite Hblind.
  unfold mbind, M_bind, mret, M_ret, get_central_nu, get_bandwidth.
  rewrite (table_get_row _ _ _ _ _ Hcn Hc), (table_get_row _ _ _ _ _ Hbw Hb).
  unfold set_detector. fold (file_key pss j). by rewrite Hd.
Qed.

Lemma detector_body_zero (j : nat) (pss : string) (i : nat) (nam : string)
    (results : gmap string value) (st : arrays) (cn_row bw_row : list float)
    (d : gmap string (gmap string float)) :
  is_blind pss i = true →
  central_nu_tbl st !! j = Some cn_row → (i < length cn_row)%nat →
  bandwidth_tbl st !! j = Some bw_row → (i < length bw_row)%nat →
  results !! file_key pss j = Some (VDict d) →
  detector_body j pss i nam results st
  = (Ok (<[file_key pss j :=
            VDict (<[remove_slashes nam := detector_entry (fin 0) (fin 0)]> d)]>
           results),
     {| central_nu_tbl := <[j := <[i := fin 0]> cn_row]> (central_nu_tbl st);
        bandwidth_tbl := <[j := <[i := fin 0]> bw_row]> (bandwidth_tbl st) |}).
Proof.
  intros Hblind Hcn Hc Hbw Hb Hd. unfold detector_body. rewrite Hblind.
  unfold mbind, M_bind, mret, M_ret, set_central_nu, set_bandwidth,
    get_central_nu, get_bandwidth.
  rewrite (table_set_row _ _ _ _ _ Hcn Hc). cbn [central_nu_tbl bandwidth_tbl].
  rewrite (table_set_row _ _ _ _ _ Hbw Hb). cbn [central_nu_tbl bandwidth_tbl].
  assert (j < length (central_nu_tbl st))%nat by (by eapply lookup_lt_Some).
  assert (j < length (bandwidth_tbl st))%nat by (by eapply lookup_lt_Some).
  rewrite (table_get_row _ j i (<[i := fin 0]> cn_row) (fin 0)); cycle 1.
  { by apply list_lookup_insert_eq. }
  { by apply list_lookup_insert_eq. }
  rewrite (table_get_row _ j i (<[i := fin 0]> bw_row) (fin 0)); cycle 1.
  { by apply list_lookup_insert_eq. }
  { by apply list_lookup_insert_eq. }
  unfold set_detector. fold (file_key pss j). by rewrite Hd.
Qed.

Lemma is_blind_spec (pss : string) (i : nat) :
  is_blind pss i = bool_decide (blind_detector pss = Some i).
Proof.
  unfold is_blind, blind_detector.
  destruct (decide (pss = "0101"%string)) as [->|H1].
  - simpl. destruct (decide (i = 3%nat)) as [->|]; [done|].
    rewrite !bool_decide_eq_false_2; [done | congruence | done].
  - rewrite (bool_decide_eq_false_2 _ H1). simpl.
    destruct (decide (pss = "0110"%string)) as [->|H2].
    + simpl. destruct (decide (i = 0%nat)) as [->|]; [done|].
      rewrite !bool_decide_eq_false_2; [done | congruence | done].
    + by rewrite (bool_decide_eq_false_2 _ H2).
Qed.

Lemma blind_detector_cases (pss : string) :
  blind_detector pss = Some 3%nat ∨ blind_detector pss = Some 0%nat ∨
  blind_detector pss = None.
Proof. unfold blind_detector. repeat case_decide; auto. Qed.

Ltac detector_step lem :=
  unfold mbind at 1; unfold M_bind at 1;
  erewrite lem;
  [ | try (rewrite is_blind_spec; match goal with H : blind_detector _ = _ |- _ => rewrite H end; reflexivity)
    | try reflexivity;
      try (cbn [central_nu_tbl bandwidth_tbl];
           apply list_lookup_insert_eq; eapply lookup_lt_Some; eassumption);
      try eassumption;
      try (simpl; lia);
      try apply lookup_insert_eq .. ].

(** One file: the status and the dictionary of the detectors enter the
    results, and the blind detector of row [j] is set to 0 in both
    arrays. *)
Lemma file_body_spec (j : nat) (pss : string) (results : gmap string value)
    (st : arrays) (cn_row bw_row : list float) :
  central_nu_tbl st !! j = Some cn_row → length cn_row = 4%nat →
  bandwidth_tbl st !! j = Some bw_row → length bw_row = 4%nat →
  file_body j pss results st
  = (Ok (<[file_key pss j :=
            VDict (detectors (zero_blind pss cn_row) (zero_blind pss bw_row))]>
           (<[status_key j := VStr pss]> results)),
     {| central_nu_tbl := <[j := zero_blind pss cn_row]> (central_nu_tbl st);
        bandwidth_tbl := <[j := zero_blind pss bw_row]> (bandwidth_tbl st) |}).
Proof.
  intros Hcn Lcn Hbw Lbw. destruct st as [cn bw]. simpl in Hcn, Hbw.
  destruct cn_row as [|c0 [|c1 [|c2 [|c3 [|]]]]]; simplify_eq/=.
  destruct bw_row as [|b0 [|b1 [|b2 [|b3 [|]]]]]; simplify_eq/=.
  unfold file_body, NAMING_CONVENTION. fold (status_key j) (file_key pss j).
  cbn [for_enumerate]. unfold zero_blind.
  destruct (blind_detector_cases pss) as [Hb|[Hb|Hb]]; rewrite Hb.
  - detector_step detector_body_keep.
    detector_step detector_body_keep.
    detector_step detector_body_keep.
    detector_step detector_body_zero.
    unfold mret, M_ret. cbn [central_nu_tbl bandwidth_tbl].
    rewrite !insert_insert_eq. reflexivity.
  - detector_step detector_body_zero.
    detector_step detector_body_keep.
    detector_step detector_body_keep.
    detector_step detector_body_keep.
    unfold mret, M_ret. cbn [central_nu_tbl bandwidth_tbl].
    rewrite !insert_insert_eq. reflexivity.
  - detector_step detector_body_keep.
    detector_step detector_body_keep.
    detector_step detector_body_keep.
    detector_step detector_body_keep.
    unfold mret, M_ret. cbn [central_nu_tbl bandwidth_tbl].
    rewrite !insert_insert_eq.
    rewrite (list_insert_id cn j), (list_insert_id bw j) by done.
    reflexivity.
Qed.

(** *** The keys of two files never collide *)

Lemma pretty_N_go_no_underscore (x : N) (s : string) :
  no_underscore s → no_underscore (pretty_N_go x s).
Proof.
  revert s. induction (N.lt_wf_0 x) as [x _ IH]; intros s Hs.
  assert (x = 0 ∨ 0 < x)%N as [->|?] by lia.
  - by rewrite pretty_N_go_0.
  - rewrite pretty_N_go_step by done. apply IH.
    { by apply N.div_lt. }
    split; [|done]. unfold pretty_N_char. by repeat case_match.
Qed.

Lemma pretty_nat_no_underscore (j : nat) : no_underscore (pretty j).
Proof.
  unfold pretty, pretty_nat, pretty, pretty_N.
  case_decide; [by repeat split|].
  by apply pretty_N_go_no_underscore.
Qed.

Lemma no_underscore_app (r d : string) :
  ¬ no_underscore (r +:+ String "_" d).
Proof. induction r as [|c r IH]; cbn; [by intros [? _] | by intros [_ ?]]. Qed.

Lemma underscore_suffix_inj (a a' d d' : string) :
  no_underscore d → no_underscore d' →
  a +:+ String "_" d = a' +:+ String "_" d' → a = a' ∧ d = d'.
Proof.
  intros Hd Hd'. revert a'. induction a as [|c a IH]; intros [|c' a'] Heq;
    cbn in Heq.
  - by simplify_eq.
  - injection Heq as _ ->. by destruct (no_underscore_app a' d').
  - injection Heq as _ <-. by destruct (no_underscore_app a d).
  - injection Heq as -> Heq. destruct (IH _ Heq) as [-> ->]. done.
Qed.

Lemma file_key_inj (pss pss' : string) (j j' : nat) :
  file_key pss j = file_key pss' j' → pss = pss' ∧ j = j'.
Proof.
  unfold file_key. intros Heq. cbn in Heq. injection Heq as Heq.
  apply underscore_suffix_inj in Heq as [-> Hj];
    [|apply pretty_nat_no_underscore..].
  split; [done|]. by apply (inj pretty).
Qed.

Lemma status_key_inj (j j' : nat) : status_key j = status_key j' → j = j'.
Proof.
  unfold status_key. intros Heq. cbn in Heq.
  apply (inj pretty). by simplify_eq.
Qed.

Lemma status_key_ne_file_key (pss : string) (j j' : nat) :
  status_key j ≠ file_key pss j'.
Proof. unfold status_key, file_key. cbn. by intros [=]. Qed.

Lemma list_alter_insert {A} (f : A → A) (l : list A) (j : nat) (x : A) :
  l !! j = Some x → alter f j l = <[j := f x]> l.
Proof.
  revert j. induction l as [|y l IH]; intros [|j] Hj; simplify_eq/=; [done|].
  f_equal. by apply IH.
Qed.

Lemma zero_rows_length (l : list string) (j0 : nat) (t : table) :
  length (zero_rows j0 l t) = length t.
Proof.
  revert j0 t. induction l as [|pss l IH]; intros j0 t; cbn [zero_rows];
    [done|].
  by rewrite IH, length_alter.
Qed.

Lemma zero_rows_outside (l : list string) (j0 j : nat) (t : table) :
  (j < j0 ∨ j0 + length l ≤ j)%nat → zero_rows j0 l t !! j = t !! j.
Proof.
  revert j0 t. induction l as [|pss l IH]; intros j0 t Hj; cbn [zero_rows];
    [done|].
  rewrite IH by (simpl in Hj; lia).
  apply list_lookup_alter_ne. simpl in Hj. lia.
Qed.

Lemma zero_rows_inside (l : list string) (j0 k : nat) (t : table)
    (pss : string) :
  l !! k = Some pss →
  zero_rows j0 l t !! (j0 + k)%nat = zero_blind pss <$> t !! (j0 + k)%nat.
Proof.
  revert j0 k t. induction l as [|p l IH]; intros j0 [|k] t Hk;
    simplify_eq/=; cbn [zero_rows].
  - rewrite zero_rows_outside by lia. rewrite Nat.add_0_r.
    apply list_lookup_alter_eq.
  - replace (j0 + S k)%nat with (S j0 + k)%nat by lia.
    rewrite (IH _ _ _ Hk). by rewrite list_lookup_alter_ne by lia.
Qed.

(** The loop over the files, from file [j0] on. *)
Lemma files_loop_spec (l : list string) :
  ∀ (j0 : nat) (results : gmap string value) (st : arrays),
  (∀ k, (k < length l)%nat →
        ∃ cn_row bw_row,
          central_nu_tbl st !! (j0 + k)%nat = Some cn_row ∧
          length cn_row = 4%nat ∧
          bandwidth_tbl st !! (j0 + k)%nat = Some bw_row ∧
          length bw_row = 4%nat) →
  ∃ results',
    for_enumerate file_body j0 l results st
    = (Ok results',
       {| central_nu_tbl := zero_rows j0 l (central_nu_tbl st);
          bandwidth_tbl := zero_rows j0 l (bandwidth_tbl st) |}) ∧
    (∀ k pss cn_row bw_row,
        l !! k = Some pss →
        central_nu_tbl st !! (j0 + k)%nat = Some cn_row →
        bandwidth_tbl st !! (j0 + k)%nat = Some bw_row →
        results' !! status_key (j0 + k) = Some (VStr pss) ∧
        results' !! file_key pss (j0 + k)
        = Some (VDict (detectors (zero_blind pss cn_row)
                                 (zero_blind pss bw_row)))) ∧
    (∀ key, (∀ k pss, l !! k = Some pss →
                      key ≠ status_key (j0 + k) ∧ key ≠ file_key pss (j0 + k)) →
            results' !! key = results !! key).
Proof.
  induction l as [|pss l IH]; intros j0 results st Hrows.
  { exists results. cbn [for_enumerate zero_rows]. destruct st.
    split; [done|]. split; [|done]. intros k ??? Hk. by destruct k. }
  destruct (Hrows 0%nat) as (cn_row & bw_row & Hcn & Lcn & Hbw & Lbw);
    [simpl; lia|].
  rewrite Nat.add_0_r in Hcn, Hbw.
  cbn [for_enumerate]. unfold mbind at 1. unfold M_bind at 1.
  rewrite (file_body_spec j0 pss results st cn_row bw_row) by done.
  set (results1 := <[file_key pss j0 := _]> _).
  set (st1 := {| central_nu_tbl := _ |}).
  destruct (IH (S j0) results1 st1) as (results' & Hrun & Hfiles & Hother).
  { intros k Hk. destruct (Hrows (S k)) as (r1 & r2 & H1 & ? & H2 & ?);
      [simpl; lia|].
    exists r1, r2. subst st1. cbn [central_nu_tbl bandwidth_tbl].
    rewrite !list_lookup_insert_ne by lia.
    replace (S j0 + k)%nat with (j0 + S k)%nat by lia. done. }
  exists results'. split; [|split].
  - rewrite Hrun. subst st1. cbn [central_nu_tbl bandwidth_tbl zero_rows].
    by rewrite (list_alter_insert _ _ _ _ Hcn), (list_alter_insert _ _ _ _ Hbw).
  - intros [|k] p r1 r2 Hk H1 H2.
    + simplify_eq/=. rewrite Nat.add_0_r in *. simplify_eq.
      rewrite !Hother.
      * subst results1. split.
        -- rewrite lookup_insert_ne by (apply not_eq_sym, status_key_ne_file_key).
           apply lookup_insert_eq.
        -- apply lookup_insert_eq.
      * intros k p' _. split; [apply not_eq_sym, status_key_ne_file_key|].
        intros [_ ?]%file_key_inj. lia.
      * intros k p' _. split; [|apply status_key_ne_file_key].
        intros ?%status_key_inj. lia.
    + simpl in Hk. replace (j0 + S k)%nat with (S j0 + k)%nat in * by lia.
      apply (Hfiles k p r1 r2 Hk); subst st1;
        cbn [central_nu_tbl bandwidth_tbl];
        by rewrite list_lookup_insert_ne by lia.
  - intros key Hkey. rewrite Hother.
    + destruct (Hkey 0%nat pss eq_refl) as [Hk1 Hk2].
      rewrite Nat.add_0_r in Hk1, Hk2. subst results1.
      by rewrite !lookup_insert_ne.
    + intros k p Hk. replace (S j0 + k)%nat with (j0 + S k)%nat by lia.
      by apply (Hkey (S k) p).
Qed.

Lemma rows_of_four_lookup (PSStatus : list string) (t : table) (k : nat) :
  rows_of_four PSStatus t → (k < length PSStatus)%nat →
  ∃ r, t !! k = Some r ∧ length r = 4%nat.
Proof.
  intros [Hlen Hrows] Hk.
  destruct (lookup_lt_is_Some_2 t k) as [r Hr]; [lia|].
  exists r. split; [done|]. by eapply Forall_lookup in Hrows.
Qed.

(** What [build_dict_from_results] returns and leaves in the arrays. *)
Lemma build_dict_from_results_spec (pol_name : string) (duration : Q)
    (PSStatus : list string) (fc fce fb fbe : float) (st : arrays) :
  rows_of_four PSStatus (central_nu_tbl st) →
  rows_of_four PSStatus (bandwidth_tbl st) →
  ∃ results,
    build_dict_from_results pol_name duration PSStatus fc fce fb fbe st
    = (Ok results,
       {| central_nu_tbl := zero_rows 0 PSStatus (central_nu_tbl st);
          bandwidth_tbl := zero_rows 0 PSStatus (bandwidth_tbl st) |}) ∧
    ∀ j pss cn_row bw_row,
      PSStatus !! j = Some pss →
      central_nu_tbl st !! j = Some cn_row →
      bandwidth_tbl st !! j = Some bw_row →
      results !! status_key j = Some (VStr pss) ∧
      results !! file_key pss j
      = Some (VDict (detectors (zero_blind pss cn_row) (zero_blind pss bw_row))).
Proof.
  intros Hcn Hbw. unfold build_dict_from_results.
  edestruct (files_loop_spec PSStatus 0) as (results & Hrun & Hfiles & _).
  { intros k Hk.
    destruct (rows_of_four_lookup _ _ k Hcn Hk) as (r1 & ? & ?).
    destruct (rows_of_four_lookup _ _ k Hbw Hk) as (r2 & ? & ?).
    by exists r1, r2. }
  exists results. split; [exact Hrun|].
  intros j pss r1 r2 Hj H1 H2. by apply (Hfiles j pss r1 r2).
Qed.

(** C8. In the mapping that [build_dict_from_results] returns for arrays
    of one row of four values per file, the entry of a file of status
    '0101' reports central_nu = 0 and bandwidth = 0 for detector 3
    (PW3Q2), the entry of a file of status '0110' reports them for
    detector 0 (PW0Q1), and every other detector entry carries the values
    that the arrays held for that file and detector. *)
Theorem report_mapping_zeroes_blind_detector (pol_name : string) (duration : Q)
    (PSStatus : list string) (fc fce fb fbe : float) (st : arrays) :
  rows_of_four PSStatus (central_nu_tbl st) →
  rows_of_four PSStatus (bandwidth_tbl st) →
  ∃ results st',
    build_dict_from_results pol_name duration PSStatus fc fce fb fbe st
    = (Ok results, st') ∧
    ∀ j pss cn_row bw_row,
      PSStatus !! j = Some pss →
      central_nu_tbl st !! j = Some cn_row →
      bandwidth_tbl st !! j = Some bw_row →
      results !! ("PSStatus" +:+ "_" +:+ pretty j) = Some (VStr pss) ∧
      ∃ d, results !! ("ps" +:+ pss +:+ "_" +:+ pretty j) = Some (VDict d) ∧
           (pss = "0101"%string →
            d !! "PW3Q2"%string = Some (detector_entry (fin 0) (fin 0))) ∧
           (pss = "0110"%string →
            d !! "PW0Q1"%string = Some (detector_entry (fin 0) (fin 0))) ∧
           (∀ i nam c b,
              NAMING_CONVENTION !! i = Some nam →
              blind_detector pss ≠ Some i →
              cn_row !! i = Some c → bw_row !! i = Some b →
              d !! remove_slashes nam = Some (detector_entry c b)).
Proof.
  intros Hcn Hbw.
  destruct (build_dict_from_results_spec pol_name duration PSStatus
              fc fce fb fbe st Hcn Hbw) as (results & Hrun & Hfiles).
  eexists results, _. split; [exact Hrun|].
  intros j pss cn_row bw_row Hj H1 H2.
  destruct (Hfiles j pss cn_row bw_row Hj H1 H2) as [Hs Hf].
  split; [exact Hs|]. eexists. split; [exact Hf|].
  assert (length cn_row = 4%nat ∧ length bw_row = 4%nat) as [L1 L2].
  { destruct Hcn as [_ Hcn], Hbw as [_ Hbw].
    split; [by eapply Forall_lookup in Hcn | by eapply Forall_lookup in Hbw]. }
  destruct cn_row as [|c0 [|c1 [|c2 [|c3 [|]]]]]; simplify_eq/=.
  destruct bw_row as [|b0 [|b1 [|b2 [|b3 [|]]]]]; simplify_eq/=.
  split; [|split].
  - intros ->. reflexivity.
  - intros ->. reflexivity.
  - intros i nam c b Hnam Hblind Hc Hb. unfold zero_blind.
    destruct (blind_detector_cases pss) as [E|[E|E]]; rewrite E in *;
      do 4 (destruct i as [|i]; [by simplify_eq/=|]); by simplify_eq/=.
Qed.

Lemma report_mapping_zeroes_blind_detector_witness :
  ∃ results st',
    build_dict_from_results "STRIP" 3600 example_status
      (fin 44) (fin 1) (fin 8) (fin 1) example_arrays
    = (Ok results, st') ∧
    ∀ j pss cn_row bw_row,
      example_status !! j = Some pss →
      central_nu_tbl example_arrays !! j = Some cn_row →
      bandwidth_tbl example_arrays !! j = Some bw_row →
      results !! ("PSStatus" +:+ "_" +:+ pretty j) = Some (VStr pss) ∧
      ∃ d, results !! ("ps" +:+ pss +:+ "_" +:+ pretty j) = Some (VDict d) ∧
           (pss = "0101"%string →
            d !! "PW3Q2"%string = Some (detector_entry (fin 0) (fin 0))) ∧
           (pss = "0110"%string →
            d !! "PW0Q1"%string = Some (detector_entry (fin 0) (fin 0))) ∧
           (∀ i nam c b,
              NAMING_CONVENTION !! i = Some nam →
              blind_detector pss ≠ Some i →
              cn_row !! i = Some c → bw_row !! i = Some b →
              d !! remove_slashes nam = Some (detector_entry c b)).
Proof.
  apply report_mapping_zeroes_blind_detector;
    (split; [reflexivity | by repeat constructor]).
Defined.

(** The run on two files of the specification: detector 3 of file 0 and
    detector 0 of file 1 report zeros. *)
Example report_mapping_two_files :
  ∃ results st' d0 d1,
    build_dict_from_results "STRIP" 3600 example_status
      (fin 44) (fin 1) (fin 8) (fin 1) example_arrays
    = (Ok results, st') ∧
    results !! "ps0101_0"%string = Some (VDict d0) ∧
    d0 !! "PW3Q2"%string = Some (detector_entry (fin 0) (fin 0)) ∧
    d0 !! "PW0Q1"%string = Some (detector_entry (fin 43) (fin 8)) ∧
    results !! "ps0110_1"%string = Some (VDict d1) ∧
    d1 !! "PW0Q1"%string = Some (detector_entry (fin 0) (fin 0)) ∧
    d1 !! "PW3Q2"%string = Some (detector_entry (fin 44) (fin 9)).
Proof.
  destruct (build_dict_from_results_spec "STRIP" 3600 example_status
              (fin 44) (fin 1) (fin 8) (fin 1) example_arrays)
    as (results & Hrun & Hfiles);
    [split; [reflexivity | by repeat constructor]..|].
  destruct (Hfiles 0%nat _ _ _ eq_refl eq_refl eq_refl) as [_ H0].
  destruct (Hfiles 1%nat _ _ _ eq_refl eq_refl eq_refl) as [_ H1].
  eexists results, _, _, _. split; [exact Hrun|].
  split; [exact H0|]. split; [reflexivity|]. split; [reflexivity|].
  split; [exact H1|]. split; reflexivity.
Qed.

Lemma zero_blind_entry (pss : string) (row : list float) (i : nat) (x : float) :
  row !! i = Some x →
  zero_blind pss row !! i
  = Some (if decide (pss = "0101"%string ∧ i = 3%nat ∨
                     pss = "0110"%string ∧ i = 0%nat)
          then fin 0 else x).
Proof.
  intros Hi. unfold zero_blind, blind_detector.
  pose proof (lookup_lt_Some _ _ _ Hi) as Hlt.
  destruct (decide (pss = "0101"%string)) as [->|H1].
  - destruct (decide (i = 3%nat)) as [->|].
    + rewrite list_lookup_insert_eq by done. by rewrite decide_True by auto.
    + rewrite list_lookup_insert_ne by done. rewrite Hi.
      by rewrite decide_False by (intros [[_ ?]|[[=] _]]; done).
  - destruct (decide (pss = "0110"%string)) as [->|H2].
    + destruct (decide (i = 0%nat)) as [->|].
      * rewrite list_lookup_insert_eq by done. by rewrite decide_True by auto.
      * rewrite list_lookup_insert_ne by done. rewrite Hi.
        by rewrite decide_False by (intros [[[=] _]|[_ ?]]; done).
    + rewrite Hi. by rewrite decide_False by (intros [[? _]|[? _]]; done).
Qed.

(** C10. [build_dict_from_results] writes into the arrays it is given:
    after the call the arrays of the caller hold 0 at the blind detector
    of every file row (detector 3 for the status '0101', detector 0 for
    '0110') and their former value at every other entry; and there are
    arrays that the call changes. *)
Theorem build_dict_from_results_mutates_arrays :
  (∀ (pol_name : string) (duration : Q) (PSStatus : list string)
     (fc fce fb fbe : float) (st : arrays),
     rows_of_four PSStatus (central_nu_tbl st) →
     rows_of_four PSStatus (bandwidth_tbl st) →
     ∃ results st',
       build_dict_from_results pol_name duration PSStatus fc fce fb fbe st
       = (Ok results, st') ∧
       length (central_nu_tbl st') = length (central_nu_tbl st) ∧
       length (bandwidth_tbl st') = length (bandwidth_tbl st) ∧
       ∀ j i pss,
         PSStatus !! j = Some pss →
         let blind := pss = "0101"%string ∧ i = 3%nat ∨
                      pss = "0110"%string ∧ i = 0%nat in
         (∀ x, central_nu_tbl st !! j ≫= (.!! i) = Some x →
               central_nu_tbl st' !! j ≫= (.!! i)
               = Some (if decide blind then fin 0 else x)) ∧
         (∀ x, bandwidth_tbl st !! j ≫= (.!! i) = Some x →
               bandwidth_tbl st' !! j ≫= (.!! i)
               = Some (if decide blind then fin 0 else x))) ∧
  (∃ results st',
     build_dict_from_results "STRIP" 3600 example_status
       (fin 44) (fin 1) (fin 8) (fin 1) example_arrays
     = (Ok results, st') ∧
     st' ≠ example_arrays ∧
     central_nu_tbl st' = [map fin [43; 44; 45; 0]%Q; map fin [0; 42; 43; 44]%Q] ∧
     bandwidth_tbl st' = [map fin [8; 9; 7; 0]%Q; map fin [0; 8; 8; 9]%Q]).
Proof.
  split.
  - intros pol_name duration PSStatus fc fce fb fbe st Hcn Hbw.
    destruct (build_dict_from_results_spec pol_name duration PSStatus
                fc fce fb fbe st Hcn Hbw) as (results & Hrun & _).
    eexists results, _. split; [exact Hrun|].
    cbn [central_nu_tbl bandwidth_tbl]. rewrite !zero_rows_length.
    split; [done|]. split; [done|].
    intros j i pss Hj.
    pose proof (zero_rows_inside PSStatus 0 j (central_nu_tbl st) pss Hj) as H1.
    pose proof (zero_rows_inside PSStatus 0 j (bandwidth_tbl st) pss Hj) as H2.
    simpl in H1, H2. rewrite H1, H2.
    split; intros x Hx.
    + destruct (central_nu_tbl st !! j) as [row|]; [|done]. simpl in *.
      by apply zero_blind_entry.
    + destruct (bandwidth_tbl st !! j) as [row|]; [|done]. simpl in *.
      by apply zero_blind_entry.
  - destruct (build_dict_from_results_spec "STRIP" 3600 example_status
                (fin 44) (fin 1) (fin 8) (fin 1) example_arrays)
      as (results & Hrun & _);
      [split; [reflexivity | by repeat constructor]..|].
    eexists results, _. split; [exact Hrun|].
    split; [by intros [=] | split; reflexivity].
Qed.

Lemma build_dict_from_results_mutates_arrays_witness :
  ∃ results st',
    build_dict_from_results "STRIP" 3600 example_status
      (fin 44) (fin 1) (fin 8) (fin 1) example_arrays
    = (Ok results, st') ∧
    length (central_nu_tbl st') = length (central_nu_tbl example_arrays) ∧
    length (bandwidth_tbl st') = length (bandwidth_tbl example_arrays) ∧
    ∀ j i pss,
      example_status !! j = Some pss →
      let blind := pss = "0101"%string ∧ i = 3%nat ∨
                   pss = "0110"%string ∧ i = 0%nat in
      (∀ x, central_nu_tbl example_arrays !! j ≫= (.!! i) = Some x →
            central_nu_tbl st' !! j ≫= (.!! i)
            = Some (if decide blind then fin 0 else x)) ∧
      (∀ x, bandwidth_tbl example_arrays !! j ≫= (.!! i) = Some x →
            bandwidth_tbl st' !! j ≫= (.!! i)
            = Some (if decide blind then fin 0 else x)).
Proof.
  apply (proj1 build_dict_from_results_mutates_arrays);
    (split; [reflexivity | by repeat constructor]).
Defined.

(** ** The report *)


Section report.
Context {V : Type} (str : V → string).
Context (module_dir : string).
Context (render_unicode : string → gmap string V → result string).
Context (markdown : string → string).
Context (open_error : string → option exn).

End report.



(** ** The aggregation of main *)

(** The uncertainties of the aggregation are half the spread between the
    97.7th and the 2.7th percentile. *)
Lemma main_aggregation_spreads (files : list band_test) (agg : aggregate) :
  main_aggregation files = Ok agg →
  final_band_err agg
  = map (half_spread (977 # 10) (27 # 10))
        (rows (concat (map norm_data files))) ∧
  final_central_nu_err agg
  = half_spread (977 # 10) (27 # 10) (All_central_nu agg) ∧
  final_bandwidth_err agg
  = half_spread (977 # 10) (27 # 10) (All_bandwidth agg).
Proof.
  unfold main_aggregation.
  destruct (column_stack (map norm_data files)) as [All|] eqn:Hstack;
    cbn [mbind result_bind]; [|done].
  assert (All = concat (map norm_data files)) as ->.
  { unfold column_stack in Hstack. destruct (map norm_data files); [done|].
    case_decide; by simplify_eq. }
  destruct (get_central_nu_bandwidth _ (Arr2 (concat _))) as [mo|];
    cbn [mbind result_bind]; [|done].
  destruct (moment_arrays mo) as [cs bs].
  destruct (get_central_nu_bandwidth _ _) as [mo'|];
    cbn [mbind result_bind]; [|done].
  destruct (moment_arrays mo') as [c b]. intros [= <-].
  cbn [final_band_err final_central_nu_err final_bandwidth_err
       All_central_nu All_bandwidth].
  done.
Qed.

(** C1 on a run of two files.  The code takes the 2.7th percentile where
    the specification names the 2.3rd: on this run the uncertainty of the
    final band at the third frequency is 373/1600 and not 377/1600, the
    uncertainty of the final central frequency is 7153/50400 and not
    289/2016, and that of the final bandwidth differs likewise. *)
Theorem aggregation_takes_percentile_2_7 :
  ∃ r0 r1 agg,
    AnalyzeBandTest sqrt_6_digits example_load_2 "STRIP" "sweep_0110.txt" "out"
      = Ok r0 ∧
    AnalyzeBandTest sqrt_6_digits example_load_2 "STRIP" "sweep_0101.txt" "out"
      = Ok r1 ∧
    main_aggregation [r0; r1] = Ok agg ∧
    Forall2 feq (final_band_err agg) [fin (3 # 16); fin 0; fin (373 # 1600)] ∧
    Forall2 feq (map (half_spread (977 # 10) (23 # 10))
                     (rows (norm_data r0 ++ norm_data r1)))
            [fin (3 # 16); fin 0; fin (377 # 1600)] ∧
    feq (final_central_nu_err agg) (fin (7153 # 50400)) ∧
    feq (half_spread (977 # 10) (23 # 10) (All_central_nu agg))
        (fin (289 # 2016)) ∧
    feq (final_bandwidth_err agg) (fin (1232687 # 2467900)) ∧
    feq (half_spread (977 # 10) (23 # 10) (All_bandwidth agg))
        (fin (37123 # 74037)).
Proof.
  eexists _, _, _.
  split; [vm_compute; reflexivity|].
  split; [vm_compute; reflexivity|].
  split; [vm_compute; reflexivity|].
  repeat split; try (repeat constructor); by vm_compute.
Qed.

(** ** More on the two moments *)

Lemma np_diff_nonempty (nu : list Q) :
  (2 ≤ length nu)%nat → ∃ d0, index0 (np_diff nu) = Ok d0.
Proof.
  destruct nu as [|a [|b nu]]; simpl; try lia. intros _.
  unfold np_diff. simpl. by eexists.
Qed.

(** X1. An axis of fewer than two frequencies has no step:
    [get_central_nu_bandwidth] raises IndexError, whatever the data, and
    not the error of the non-uniform steps. *)
Theorem get_central_nu_bandwidth_short_axis (nu : list Q) (data : ndarray) :
  (length nu < 2)%nat →
  get_central_nu_bandwidth nu data
  = Raise (IndexError "index 0 is out of bounds for axis 0 with size 0").
Proof.
  intros Hlen. destruct nu as [|a [|b nu]]; simpl in Hlen; try lia; done.
Qed.

Lemma get_central_nu_bandwidth_short_axis_witness :
  get_central_nu_bandwidth [40%Q] (Arr1 [fin (-1)])
  = Raise (IndexError "index 0 is out of bounds for axis 0 with size 0").
Proof. apply get_central_nu_bandwidth_short_axis. simpl. lia. Defined.

Lemma mul_nu_weighted (nu : list Q) (c : list float) :
  mul_nu nu c
  = if broadcasts nu c then Ok (weighted nu c) else Raise broadcast_error.
Proof.
  unfold mul_nu, broadcasts, weighted. case_decide as Hlen.
  - by rewrite bool_decide_eq_true_2 by auto.
  - destruct c as [|d [|d' c]]; simpl.
    + rewrite bool_decide_eq_false_2; [done|]. simpl in Hlen. intros [|]; done.
    + by rewrite bool_decide_eq_true_2 by auto.
    + rewrite bool_decide_eq_false_2; [done|]. simpl in Hlen. intros [|]; done.
Qed.

Lemma mapM_mul_nu (nu : list Q) (data : matrix) :
  mapM (mul_nu nu) data
  = if forallb (broadcasts nu) data then Ok (map (weighted nu) data)
    else Raise broadcast_error.
Proof.
  induction data as [|c data IH]; [done|].
  cbn [mapM forallb map]. rewrite mul_nu_weighted.
  destruct (broadcasts nu c); [|done]. cbn [mbind result_bind andb].
  rewrite IH. by destruct (forallb _ data).
Qed.

(** [moments_2d] computes the two moments column by column. *)
Lemma moments_2d_columns (nu : list Q) (step : Q) (data : matrix) :
  moments_2d nu step data
  = if forallb (broadcasts nu) data then
      if decide (length data = 1%nat) then
        Ok (Scalars
              (default nan (map (column_central_nu nu) data !! 0%nat))
              (default nan (map (column_bandwidth step) data !! 0%nat)))
      else Ok (Arrays (map (column_central_nu nu) data)
                      (map (column_bandwidth step) data))
    else Raise broadcast_error.
Proof.
  unfold moments_2d. rewrite mapM_mul_nu.
  destruct (forallb _ data); [|done]. cbn [mbind result_bind].
  unfold sum_axis0.
  assert (zip_with fdiv (map fsum (map (weighted nu) data)) (map fsum data)
          = map (column_central_nu nu) data) as ->.
  { rewrite map_map.
    exact (zip_with_map_same fdiv (λ c, fsum (weighted nu c)) fsum data). }
  assert (zip_with fdiv
            (map (λ s, fmul (fsquare s) (fin step)) (map fsum data))
            (map fsum (map (map fsquare) data))
          = map (column_bandwidth step) data) as ->.
  { rewrite !map_map.
    exact (zip_with_map_same fdiv (λ c, fmul (fsquare (fsum c)) (fin step))
             (λ c, fsum (map fsquare c)) data). }
  by rewrite length_map.
Qed.

Lemma get_central_nu_bandwidth_uniform (nu : list Q) (data : ndarray) :
  (2 ≤ length nu)%nat → uniform_steps nu →
  ∃ step, index0 (np_diff nu) = Ok step ∧
    get_central_nu_bandwidth nu data
    = match data with
      | Arr1 v => moments_2d nu step [v]
      | Arr2 m => if decide (length m = nrows m) then moments_3d nu step m
                  else moments_2d nu step m
      end.
Proof.
  intros HN Hu. destruct (np_diff_nonempty nu HN) as [d0 Hd0].
  exists d0. split; [done|].
  unfold get_central_nu_bandwidth. rewrite Hd0. cbn [mbind result_bind].
  by rewrite (proj2 (allclose_uniform nu d0 Hd0) Hu).
Qed.

(** X2. On a matrix that is not square and has another number of
    columns than one, each with one sample per frequency, the function
    returns two arrays with one entry per column, and the entries of a
    column are the two scalars that the function returns for this column
    alone. *)
Theorem get_central_nu_bandwidth_by_column (nu : list Q) (m : matrix) :
  (2 ≤ length nu)%nat → uniform_steps nu →
  length m ≠ nrows m → length m ≠ 1%nat →
  Forall (λ c, length c = length nu) m →
  ∃ cs bs,
    get_central_nu_bandwidth nu (Arr2 m) = Ok (Arrays cs bs) ∧
    length cs = length m ∧ length bs = length m ∧
    ∀ j col, m !! j = Some col →
      ∃ c b, cs !! j = Some c ∧ bs !! j = Some b ∧
             get_central_nu_bandwidth nu (Arr1 col) = Ok (Scalars c b).
Proof.
  intros HN Hu Hsq Hone Hlen.
  destruct (get_central_nu_bandwidth_uniform nu (Arr2 m) HN Hu)
    as (step & Hstep & ->).
  destruct (get_central_nu_bandwidth_uniform nu (Arr1 []) HN Hu)
    as (step' & Hstep' & _).
  assert (step' = step) as -> by congruence. clear Hstep'.
  rewrite decide_False by done. rewrite moments_2d_columns.
  assert (∀ c, length c = length nu → broadcasts nu c = true) as Hb.
  { intros c Hc. unfold broadcasts. by rewrite bool_decide_eq_true_2 by auto. }
  assert (forallb (broadcasts nu) m = true) as ->.
  { apply forallb_forall. intros c Hc%list_elem_of_In.
    rewrite Forall_forall in Hlen. by apply Hb, Hlen. }
  rewrite decide_False by done.
  eexists _, _. split; [done|]. rewrite !length_map.
  split; [done|]. split; [done|].
  intros j col Hj. unfold matrix in *.
  rewrite !list_lookup_fmap, Hj. eexists _, _. split; [done|]. split; [done|].
  destruct (get_central_nu_bandwidth_uniform nu (Arr1 col) HN Hu)
    as (step' & Hstep' & ->).
  assert (step' = step) as -> by congruence.
  rewrite moments_2d_columns. cbn [forallb].
  rewrite Hb by (by eapply Forall_lookup in Hlen). done.
Qed.

Lemma get_central_nu_bandwidth_by_column_witness :
  ∃ cs bs,
    get_central_nu_bandwidth [40; 41; 42]%Q
      (Arr2 (map (map fin) [[-1; -2; -1]; [-2; -4; -1]]%Q))
    = Ok (Arrays cs bs) ∧
    length cs = 2%nat ∧ length bs = 2%nat ∧
    ∀ j col, map (map fin) [[-1; -2; -1]; [-2; -4; -1]]%Q !! j = Some col →
      ∃ c b, cs !! j = Some c ∧ bs !! j = Some b ∧
             get_central_nu_bandwidth [40; 41; 42]%Q (Arr1 col)
             = Ok (Scalars c b).
Proof.
  apply (get_central_nu_bandwidth_by_column [40; 41; 42]%Q);
    [simpl; lia | | by simpl | by simpl | by repeat constructor].
  intros [|[|[|i]]] a b a0 b0 [= <-] [= <-]; simpl; intros [= <-] [= <-];
    by vm_compute.
Defined.

(** *** Equality of floats as numbers *)

Global Instance feq_equiv : Equivalence feq.
Proof.
  split.
  - intros [x|]; simpl; [reflexivity | done].
  - intros [x|] [y|]; by simpl.
  - intros [x|] [y|] [z|]; simpl; try done; intros ??; by etrans.
Qed.

Global Instance fadd_proper : Proper (feq ==> feq ==> feq) fadd.
Proof.
  intros [x|] [x'|] Hx [y|] [y'|] Hy; simpl in *; try done. by rewrite Hx, Hy.
Qed.

Global Instance fmul_proper : Proper (feq ==> feq ==> feq) fmul.
Proof.
  intros [x|] [x'|] Hx [y|] [y'|] Hy; simpl in *; try done. by rewrite Hx, Hy.
Qed.

Global Instance fdiv_proper : Proper (feq ==> feq ==> feq) fdiv.
Proof.
  intros [x|] [x'|] Hx [y|] [y'|] Hy; simpl in *; try done.
  destruct (Qeq_bool y 0) eqn:E, (Qeq_bool y' 0) eqn:E'; simpl; try done.
  - apply Qeq_bool_iff in E. apply Qeq_bool_neq in E'. rewrite Hy in E. done.
  - apply Qeq_bool_iff in E'. apply Qeq_bool_neq in E. rewrite <- Hy in E'. done.
  - by rewrite Hx, Hy.
Qed.

Global Instance fsquare_proper : Proper (feq ==> feq) fsquare.
Proof. intros x y H. unfold fsquare. by rewrite H. Qed.

Lemma fsum_cons (x : float) (l : list float) :
  fsum (x :: l) = fadd x (fsum l).
Proof. done. Qed.

Lemma fsum_column_times (nu0 : Q) (qs : list Q) :
  feq (fsum (map (λ d, fmul d (fin nu0)) (map fin qs)))
      (fin (nu0 * qsum qs)).
Proof.
  induction qs as [|q qs IH]; [simpl; ring|].
  cbn [map]. rewrite fsum_cons, IH. simpl. ring.
Qed.

(** X4. A square matrix, of as many detector columns as frequencies, is
    taken for a series: the function returns two arrays of a single
    entry instead of one entry per column, and the central frequency it
    reports is the first frequency of the axis, whatever the samples of
    column 0 are, as long as their sum is a number other than 0. *)
Theorem get_central_nu_bandwidth_square_matrix (nu : list Q) (m : matrix)
    (nu0 : Q) (col0 : list Q) :
  (2 ≤ length nu)%nat → uniform_steps nu →
  length m = length nu → nrows m = length nu →
  nu !! 0%nat = Some nu0 → m !! 0%nat = Some (map fin col0) →
  ¬ (qsum col0 == 0)%Q →
  ∃ c b, get_central_nu_bandwidth nu (Arr2 m) = Ok (Arrays [c] [b]) ∧
         feq c (fin nu0).
Proof.
  intros HN Hu Hcols Hrows Hnu0 Hcol0 Hsum.
  destruct (get_central_nu_bandwidth_uniform nu (Arr2 m) HN Hu)
    as (step & _ & ->).
  rewrite decide_True by congruence.
  unfold moments_3d. rewrite decide_True by auto.
  unfold matrix in *. rewrite Hnu0, Hcol0. cbn [default from_option id].
  eexists _, _. split; [done|].
  rewrite fsum_column_times, fsum_fin. simpl.
  destruct (Qeq_bool (qsum col0) 0) eqn:E; [by apply Qeq_bool_iff in E|].
  simpl. field. done.
Qed.

Lemma get_central_nu_bandwidth_square_matrix_witness :
  ∃ c b,
    get_central_nu_bandwidth [40; 41; 42]%Q
      (Arr2 (map (map fin) [[-1; -2; -1]; [-2; -4; -1]; [0; -3; -9]]%Q))
    = Ok (Arrays [c] [b]) ∧ feq c (fin 40).
Proof.
  apply (get_central_nu_bandwidth_square_matrix [40; 41; 42]%Q _ 40
           [-1; -2; -1]%Q); try done.
  - simpl. lia.
  - intros [|[|[|i]]] a b a0 b0 [= <-] [= <-]; simpl; intros [= <-] [= <-];
      by vm_compute.
Defined.

(** ** Order statistics of a sorted array *)

Lemma insert_sorted_sorted (x : Q) (l : list Q) :
  StronglySorted Qle l → StronglySorted Qle (insert_sorted x l).
Proof.
  induction 1 as [|y l Hl IH Hy]; simpl.
  - repeat constructor.
  - destruct (Qle_bool x y) eqn:E.
    + apply Qle_bool_iff in E. constructor; [by constructor|].
      constructor; [done|].
      eapply Forall_impl; [exact Hy|]. intros z Hz. by eapply Qle_trans.
    + constructor; [done|].
      apply insert_sorted_Forall; [|done].
      destruct (Qlt_le_dec y x) as [?|Hle]; [by apply Qlt_le_weak|].
      apply Qle_bool_iff in Hle. congruence.
Qed.

Lemma sort_sorted (l : list Q) : StronglySorted Qle (sort l).
Proof.
  induction l as [|x l IH]; simpl; [constructor|].
  by apply insert_sorted_sorted.
Qed.

Lemma sorted_lookup_le (s : list Q) (i j : nat) (a b : Q) :
  StronglySorted Qle s → (i ≤ j)%nat →
  s !! i = Some a → s !! j = Some b → (a <= b)%Q.
Proof.
  intros Hs. revert i j. induction Hs as [|x s Hs IH Hx]; intros i j Hij Hi Hj.
  { done. }
  destruct i as [|i], j as [|j]; simplify_eq/=; try lia.
  - apply Qle_refl.
  - rewrite Forall_forall in Hx. apply Hx. by eapply list_elem_of_lookup_2.
  - apply (IH i j); [lia | done..].
Qed.

Lemma sort_nonempty (l : list Q) : l ≠ [] → sort l ≠ [].
Proof.
  intros Hne Hnil. apply (f_equal length) in Hnil.
  rewrite sort_length in Hnil. by destruct l.
Qed.

(** The position of a percentile in a sorted array of [m + 1] entries:
    its integer part, as an index, and its fractional part. *)
Lemma percentile_position (q : Q) (m : nat) :
  (0 <= q)%Q → (q <= 100)%Q →
  let pos := (q / 100 * inject_Z (Z.of_nat m))%Q in
  (0 <= Qfloor pos)%Z ∧ (Z.to_nat (Qfloor pos) ≤ m)%nat ∧
  (0 <= pos - inject_Z (Qfloor pos))%Q ∧ (pos - inject_Z (Qfloor pos) < 1)%Q.
Proof.
  intros H0 H100 pos.
  assert (0 <= pos)%Q as Hpos.
  { unfold pos. apply Qmult_le_0_compat.
    - apply Qle_shift_div_l; lra.
    - change 0%Q with (inject_Z 0). rewrite <- Zle_Qle. lia. }
  split; [|split; [|split]].
  - apply Qfloor_resp_le in Hpos. by change (Qfloor 0) with 0%Z in Hpos.
  - by apply percentile_index_bound.
  - pose proof (Qfloor_le pos). lra.
  - pose proof (Qlt_floor pos) as H. rewrite inject_Z_plus in H.
    change (inject_Z 1) with 1%Q in H. lra.
Qed.

(** A percentile of a sorted array lies between its two neighbours. *)
Lemma percentile_sorted_between (q : Q) (s : list Q) :
  StronglySorted Qle s → s ≠ [] → (0 <= q)%Q → (q <= 100)%Q →
  let lo := Z.to_nat (Qfloor (q / 100 * inject_Z (Z.of_nat (length s - 1)))) in
  ∃ a b, s !! lo = Some a ∧
         s !! Nat.min (lo + 1) (length s - 1) = Some b ∧
         (a <= percentile_sorted q s)%Q ∧ (percentile_sorted q s <= b)%Q.
Proof.
  intros Hs Hne H0 H100 lo.
  assert (0 < length s)%nat as Hlen by (destruct s; simpl; [done | lia]).
  destruct (percentile_position q (length s - 1) H0 H100)
    as (_ & Hlo & Hg0 & Hg1).
  fold lo in Hlo.
  destruct (lookup_lt_is_Some_2 s lo) as [a Ha]; [lia|].
  destruct (lookup_lt_is_Some_2 s (Nat.min (lo + 1) (length s - 1)))
    as [b Hb]; [lia|].
  exists a, b. split; [done|]. split; [done|].
  assert (a <= b)%Q as Hab.
  { apply (sorted_lookup_le s lo (Nat.min (lo + 1) (length s - 1)) a b);
      [done | lia | done..]. }
  unfold percentile_sorted. fold lo. rewrite Ha, Hb. simpl.
  set (g := (_ - inject_Z _)%Q) in *.
  assert (0 <= (b - a) * g)%Q by (apply Qmult_le_0_compat; lra).
  assert (0 <= (b - a) * (1 - g))%Q by (apply Qmult_le_0_compat; lra).
  split; lra.
Qed.

(** A percentile of a sorted array grows with its rank. *)
Lemma percentile_sorted_mono (p q : Q) (s : list Q) :
  StronglySorted Qle s → s ≠ [] → (0 <= p)%Q → (p <= q)%Q → (q <= 100)%Q →
  (percentile_sorted p s <= percentile_sorted q s)%Q.
Proof.
  intros Hs Hne H0 Hpq H100.
  assert (0 < length s)%nat as Hlen by (destruct s; simpl; [done | lia]).
  set (m := (length s - 1)%nat).
  set (pp := (p / 100 * inject_Z (Z.of_nat m))%Q).
  set (pq := (q / 100 * inject_Z (Z.of_nat m))%Q).
  assert (pp <= pq)%Q as Hpos.
  { unfold pp, pq. apply Qmult_le_compat_r.
    - apply Qmult_le_compat_r; [done|]. by vm_compute.
    - change 0%Q with (inject_Z 0). rewrite <- Zle_Qle. lia. }
  pose proof (Qfloor_resp_le _ _ Hpos) as Hfloor.
  destruct (percentile_position p m) as (Hp0 & Hpm & Hgp0 & Hgp1); [lra..|].
  destruct (percentile_position q m) as (Hq0 & Hqm & Hgq0 & Hgq1); [lra..|].
  fold pp in Hp0, Hpm, Hgp0, Hgp1. fold pq in Hq0, Hqm, Hgq0, Hgq1.
  destruct (percentile_sorted_between p s) as (a & b & Ha & Hb & Hpa & Hpb);
    [done | done | lra | lra |].
  destruct (percentile_sorted_between q s) as (a' & b' & Ha' & Hb' & Hqa & Hqb);
    [done | done | lra | lra |].
  fold m in Ha, Hb, Ha', Hb'. fold pp in Ha, Hb. fold pq in Ha', Hb'.
  destruct (decide (Qfloor pp = Qfloor pq)) as [Heq|Hne'].
  - unfold percentile_sorted. fold m pp pq.
    rewrite <- Heq in Ha', Hb'. rewrite <- Heq.
    rewrite Ha, Hb. simpl.
    assert (a <= b)%Q as Hab.
    { eapply (sorted_lookup_le s); [done | | exact Ha | exact Hb]. lia. }
    assert (0 <= (b - a) * (pq - pp))%Q by (apply Qmult_le_0_compat; lra).
    lra.
  - apply Qle_trans with b; [done|]. apply Qle_trans with a'; [|done].
    eapply (sorted_lookup_le s); [done | | exact Hb | exact Ha']. lia.
Qed.

Lemma percentile_range_nonneg (col : list Q) :
  col ≠ [] → (0 <= percentile_range col)%Q.
Proof.
  intros Hne. unfold percentile_range.
  pose proof (percentile_sorted_mono 5 95 (sort col) (sort_sorted col)
                (sort_nonempty col Hne)) as H.
  assert (percentile_sorted 5 (sort col) <= percentile_sorted 95 (sort col))%Q
    by (apply H; by vm_compute).
  lra.
Qed.

(** X7. The range statistic is never negative, so that a constant
    column 0 always has the smallest range, and the first one: for every
    power matrix of numbers whose column 0 is constant,
    [find_blind_channel] returns index 0 and the status '0110', whatever
    the other columns hold and however many there are. *)
Theorem find_blind_channel_constant_first_column (c0 : list Q)
    (cols : list (list Q)) (v : Q) :
  Forall (λ c, c ≠ []) (c0 :: cols) → Forall (λ x, (x == v)%Q) c0 →
  find_blind_channel (map (map fin) (c0 :: cols)) = Ok (0%nat, "0110"%string).
Proof.
  intros Hne Hc0.
  rewrite (find_blind_channel_first_smallest _ 0); [done..|].
  pose proof Hne as [Hne0 _]%Forall_cons.
  exists (percentile_range c0). split; [done|]. split; [|lia].
  intros j y (c & -> & Hc)%list_lookup_fmap_Some.
  rewrite (percentile_range_constant v c0) by done.
  apply percentile_range_nonneg.
  rewrite Forall_forall in Hne. apply Hne. by eapply list_elem_of_lookup_2.
Qed.

Lemma find_blind_channel_constant_first_column_witness :
  find_blind_channel
    (map (map fin) [[-2; -2; -2]; [-1; -1; -1]; [0; -5; -9]; [-4; -4; -4]]%Q)
  = Ok (0%nat, "0110"%string).
Proof.
  apply (find_blind_channel_constant_first_column _ _ (-2)%Q);
    by repeat constructor.
Defined.

Lemma np_percentile_nan (q : Q) (c : list float) :
  nan ∈ c → np_percentile q c = nan.
Proof.
  intros Hc. unfold np_percentile.
  destruct (finite c) as [qs|] eqn:Hfin; [|done].
  apply finite_Some in Hfin. subst c.
  by apply list_elem_of_fmap in Hc as (x & ? & _).
Qed.

(** A column 0 that holds a nan has a nan for its range, and
    [np.argmin] returns the index of the first nan. *)
Lemma find_blind_channel_nan_first_column (c0 : list float) (cols : matrix) :
  nan ∈ c0 → find_blind_channel (c0 :: cols) = Ok (0%nat, "0110"%string).
Proof.
  intros Hnan. unfold find_blind_channel, percentile_axis0.
  assert (¬ (c0 :: cols ≠ [] ∧ nrows (c0 :: cols) = 0%nat)) as Hrows.
  { intros [_ Hn]. cbn in Hn.
    destruct c0; [by apply elem_of_nil in Hnan | done]. }
  rewrite decide_False by done. cbn [mbind result_bind].
  rewrite decide_False by done. cbn [mbind result_bind map zip_with].
  rewrite !np_percentile_nan by done. done.
Qed.

(** ** More on the offset removal *)

Lemma mapM_result_ext {A B} (f g : A → result B) (l : list A) :
  (∀ x, x ∈ l → f x = g x) → mapM f l = mapM g l.
Proof.
  induction l as [|x l IH]; intros H; [done|]. cbn [mapM].
  rewrite (H x) by (by left). rewrite IH; [done|].
  intros y Hy. apply H. by right.
Qed.

Lemma index_map {A B} (g : A → B) (l : list A) (i : nat) :
  index (map g l) i
  = match l !! i with
    | Some x => Ok (g x)
    | None => Raise (IndexError "index is out of bounds for axis 0")
    end.
Proof. unfold index. rewrite list_lookup_fmap. by destruct (l !! i). Qed.

(** [remove_offset] on columns of one sample per frequency: the two
    reference frequencies, the fit of each of the first four columns,
    and the subtraction. *)
Lemma remove_offset_fits (nu : list Q) (data : matrix) :
  Forall (λ c, length c = length nu) data →
  remove_offset nu data
  = (x0 ← np_min_q (mask_select (positive_mask nu) nu);
     x1 ← np_max_q nu;
     lines ← mapM (offset_fit nu x0 x1 data) (seq 0 4);
     Ok (subtract_lines nu lines data)).
Proof.
  intros Hlen. unfold remove_offset.
  set (h := (length nu / 2)%nat).
  assert (h ≤ length nu)%nat as Hh
    by (apply Nat.Div0.div_le_upper_bound; lia).
  assert (Forall (λ c, length c = length nu ∧ (nrows data / 2)%nat = h) data)
    as Hcols.
  { destruct data as [|c0 data]; [constructor|].
    pose proof Hlen as [L0 _]%Forall_cons. cbn [nrows]. rewrite L0.
    eapply Forall_impl; [exact Hlen|]. by intros c Hc. }
  rewrite bool_index_ok; last first.
  { apply Forall_fmap. eapply Forall_impl; [exact Hcols|].
    intros c [Hc Hd]. cbn beta in Hc, Hd. unfold off_mask, compose.
    rewrite Hd, length_map, ?length_take, ?length_drop. lia. }
  cbn [mbind result_bind].
  rewrite bool_index_ok; last first.
  { apply Forall_fmap. eapply Forall_impl; [exact Hcols|].
    intros c [Hc Hd]. cbn beta in Hc, Hd. unfold off_mask, compose.
    rewrite Hd, length_map, ?length_take, ?length_drop. lia. }
  cbn [mbind result_bind].
  destruct (np_min_q _) as [x0|]; cbn [mbind result_bind]; [|done].
  destruct (np_max_q nu) as [x1|]; cbn [mbind result_bind]; [|done].
  rewrite (mapM_result_ext _ (offset_fit nu x0 x1 data)); [done|].
  intros i _. unfold offset_line, offset_fit.
  rewrite !map_map, !index_map. unfold matrix in *.
  destruct (data !! i) as [c|] eqn:Hc; [|by cbn]. cbn [mbind result_bind].
  eapply Forall_lookup in Hcols as [Lc Hd]; [|exact Hc].
  rewrite Hd.
  rewrite !off_mask_select by (rewrite ?length_take, ?length_drop; lia).
  done.
Qed.

Lemma subtract_lines_shape (nu : list Q) (lines : list (float * float))
    (data : matrix) :
  Forall (λ c, length c = length nu) data →
  length (subtract_lines nu lines data) = length data ∧
  Forall (λ c, length c = length nu) (subtract_lines nu lines data).
Proof.
  intros Hlen. unfold subtract_lines. split.
  - rewrite length_zip_with, length_imap. lia.
  - apply Forall_lookup. intros i r Hr.
    apply lookup_zip_with_Some in Hr as (c & o & -> & Hc & Ho).
    rewrite list_lookup_imap, Hc in Ho. simpl in Ho.
    eapply Forall_lookup in Hlen; [|exact Hc].
    rewrite length_zip_with, Hlen.
    destruct (lines !! i) as [[a b]|]; simplify_eq; rewrite length_map; lia.
Qed.

Lemma bool_index_columns (mask : list bool) (data R : matrix) :
  bool_index mask data = Ok R → Forall (λ c, length c = length mask) data.
Proof. unfold bool_index. by case_decide. Qed.

(** The shape of the argument and of the result of a successful call. *)
Lemma remove_offset_ok_shape (nu : list Q) (data R : matrix) :
  remove_offset nu data = Ok R →
  Forall (λ c, length c = length nu) data ∧
  length R = length data ∧ Forall (λ r, length r = length nu) R.
Proof.
  intros HR.
  assert (Forall (λ c, length c = length nu) data) as Hlen.
  { unfold remove_offset in HR.
    destruct (bool_index _ (map (take _) data)) as [F|] eqn:HF;
      cbn [mbind result_bind] in HR; [|done].
    destruct (bool_index _ (map (drop _) data)) as [S|] eqn:HS;
      cbn [mbind result_bind] in HR; [|done].
    apply bool_index_columns, Forall_fmap in HF.
    apply bool_index_columns, Forall_fmap in HS.
    apply Forall_lookup. intros i c Hc.
    eapply Forall_lookup in HF; [|exact Hc].
    eapply Forall_lookup in HS; [|exact Hc].
    unfold compose, off_mask in HF, HS.
    rewrite length_map, !length_take in HF.
    rewrite length_map, !length_drop in HS.
    assert (length nu / 2 ≤ length nu)%nat
      by (apply Nat.Div0.div_le_upper_bound; lia).
    assert (length nu = 0 ∨ length nu / 2 < length nu)%nat as [|]
      by (destruct (length nu) as [|n]; [by left | right; apply Nat.div_lt; lia]);
      lia. }
  split; [done|].
  rewrite (remove_offset_fits nu data Hlen) in HR.
  destruct (np_min_q _) as [x0|]; cbn [mbind result_bind] in HR; [|done].
  destruct (np_max_q nu) as [x1|]; cbn [mbind result_bind] in HR; [|done].
  destruct (mapM _ (seq 0 4)) as [lines|]; cbn [mbind result_bind] in HR;
    [|done].
  injection HR as <-. by apply subtract_lines_shape.
Qed.

(** The fits of the first four detectors of an array with at least four
    columns. *)
Lemma offset_fits_four (nu : list Q) (x0 x1 : Q) (data : matrix) :
  (4 ≤ length data)%nat →
  mapM (offset_fit nu x0 x1 data) (seq 0 4)
  = Ok (map (λ c, polyfit1 x0 x1 (first_offset_of nu c) (second_offset_of nu c))
            (take 4 data)).
Proof.
  intros Hlen. unfold offset_fit.
  destruct data as [|c0 [|c1 [|c2 [|c3 data]]]]; simpl in Hlen; try lia.
  reflexivity.
Qed.

Lemma offset_fits_short (nu : list Q) (x0 x1 : Q) (data : matrix) :
  (length data < 4)%nat →
  mapM (offset_fit nu x0 x1 data) (seq 0 4)
  = Raise (IndexError "index is out of bounds for axis 0").
Proof.
  intros Hlen. unfold offset_fit.
  destruct data as [|c0 [|c1 [|c2 [|c3 data]]]]; simpl in Hlen; try lia;
    reflexivity.
Qed.

(** X8. When [remove_offset] returns: exactly when the power array has
    at least four detector columns, each with one sample per entry of
    the frequency array, and the frequency array holds a positive
    frequency.  The result then has the shape of the argument.  No
    sample need be taken with the generator off: the medians of the
    offsets may be nan. *)
Theorem remove_offset_requirements (nu : list Q) (data : matrix) :
  (4 ≤ length data)%nat ∧
  Forall (λ c, length c = length nu) data ∧
  (∃ f, f ∈ nu ∧ (0 < f)%Q) ↔
  ∃ R, remove_offset nu data = Ok R ∧
       length R = length data ∧ Forall (λ r, length r = length nu) R.
Proof.
  split.
  - intros (H4 & Hlen & f & Hf & Hpos).
    rewrite (remove_offset_fits nu data Hlen), positive_select.
    assert (f ∈ filter (λ x, (0 < x)%Q) nu) as Hfilter
      by (by apply list_elem_of_filter).
    destruct (filter _ nu) as [|p ps]; [by apply elem_of_nil in Hfilter|].
    destruct nu as [|x nu]; [by apply elem_of_nil in Hf|].
    cbn [np_min_q np_max_q mbind result_bind].
    rewrite offset_fits_four by done. cbn [mbind result_bind].
    eexists. split; [done|]. by apply subtract_lines_shape.
  - intros (R & HR & HR1 & HR2).
    destruct (remove_offset_ok_shape nu data R HR) as (Hlen & _ & _).
    rewrite (remove_offset_fits nu data Hlen), positive_select in HR.
    destruct (filter _ nu) as [|f fs] eqn:Hfilter; [done|].
    cbn [np_min_q mbind result_bind] in HR.
    destruct (np_max_q nu) as [x1|]; cbn [mbind result_bind] in HR; [|done].
    split; [|split; [done|]].
    + destruct (decide (4 ≤ length data)%nat) as [|Hshort]; [done|].
      rewrite offset_fits_short in HR by lia. done.
    + assert (f ∈ filter (λ x, (0 < x)%Q) nu) as Hf
        by (rewrite Hfilter; by left).
      apply list_elem_of_filter in Hf as [? ?]. by exists f.
Qed.






Lemma np_median_shifted (k : Q) (qs : list Q) :
  shifted k (np_median (map fin qs)) (np_median (map (λ d, fin (d + k)) qs)).
Proof.
  destruct qs as [|q qs]; [done|].
  rewrite np_median_fin by done.
  destruct (np_median_shift k (median_sorted (sort (q :: qs))) (q :: qs))
    as (y & -> & Hy); [|done].
  rewrite np_median_fin by done. simpl. reflexivity.
Qed.

Lemma offsets_shifted (nu col : list Q) (k : Q) :
  shifted k (first_offset_of nu (map fin col))
            (first_offset_of nu (map (λ d, fin (d + k)) col)) ∧
  shifted k (second_offset_of nu (map fin col))
            (second_offset_of nu (map (λ d, fin (d + k)) col)).
Proof.
  unfold first_offset_of, second_offset_of.
  rewrite !take_map, !drop_map, !samples_at_map.
  split; apply np_median_shifted.
Qed.

(** The line through two points that are both raised by [k]: the same
    slope, the intercept raised by [k]; or twice the line of nan. *)
Lemma polyfit1_shifted (x0 x1 k : Q) (y0 y1 y0' y1' : float) :
  (x0 < x1)%Q → shifted k y0 y0' → shifted k y1 y1' →
  match polyfit1 x0 x1 y0 y1, polyfit1 x0 x1 y0' y1' with
  | (Some a, Some b), (Some a', Some b') => (a' == a)%Q ∧ (b' == b + k)%Q
  | (None, None), (None, None) => True
  | _, _ => False
  end.
Proof.
  intros Hx H0 H1. unfold polyfit1.
  destruct y0 as [y0|], y0' as [y0'|], y1 as [y1|], y1' as [y1'|];
    simpl in H0, H1; try done.
  destruct (Qeq_bool x0 x1) eqn:E; [apply Qeq_bool_iff in E; lra|].
  assert ((y1' - y0') / (x1 - x0) == (y1 - y0) / (x1 - x0))%Q as Ha.
  { rewrite H0, H1. field. lra. }
  split; [done|]. rewrite Ha, H0. ring.
Qed.

Lemma column_shifted (nu col : list Q) (a b a' b' k : Q) :
  (a' == a)%Q → (b' == b + k)%Q →
  Forall2 feq (zip_with fsub (map (λ d, fin (d + k)) col)
                        (map (λ x, fin (x * a' + b')) nu))
          (zip_with fsub (map fin col) (map (λ x, fin (x * a + b)) nu)).
Proof.
  intros Ha Hb. revert nu.
  induction col as [|d col IH]; intros [|x nu]; simpl; constructor;
    [|by apply IH].
  simpl. rewrite Ha, Hb. ring.
Qed.

(** A column and the column raised by [k], without the lines fitted to
    each. *)
Lemma column_without_line (nu col : list Q) (l l' : float * float) (k : Q) :
  match l, l' with
  | (Some a, Some b), (Some a', Some b') => (a' == a)%Q ∧ (b' == b + k)%Q
  | (None, None), (None, None) => True
  | _, _ => False
  end →
  Forall2 feq
    (zip_with fsub (map (λ d, fin (d + k)) col)
       (let (a, b) := l' in map (λ x, fadd (fmul (fin x) a) b) nu))
    (zip_with fsub (map fin col)
       (let (a, b) := l in map (λ x, fadd (fmul (fin x) a) b) nu)).
Proof.
  destruct l as [[a|] [b|]], l' as [[a'|] [b'|]]; try done.
  - intros [Ha Hb]. by apply column_shifted.
  - intros _. revert nu.
    induction col as [|d col IH]; intros [|x nu]; simpl; constructor;
      [done | by apply IH].
Qed.

(** X10. [remove_offset] does not see a constant offset: on four
    detector columns of numbers, over an axis with a positive frequency
    and a larger one, adding to every column a constant of its own gives
    the same outcome, the same error or the same numbers. *)
Theorem remove_offset_constant_invariance (nu : list Q) (D : list (list Q))
    (ks : list Q) (f g : Q) :
  length D = 4%nat → length ks = 4%nat →
  Forall (λ c, length c = length nu) D →
  f ∈ nu → g ∈ nu → (0 < f)%Q → (f < g)%Q →
  same_data (remove_offset nu (add_offsets ks D))
            (remove_offset nu (map (map fin) D)).
Proof.
  intros HD Hks Hlen Hf Hg Hpos Hlt.
  destruct D as [|c0 [|c1 [|c2 [|c3 [|]]]]]; simplify_eq/=.
  destruct ks as [|k0 [|k1 [|k2 [|k3 [|]]]]]; simplify_eq/=.
  destruct (min_positive_lt_max nu f g) as (x0 & x1 & Hx0 & Hx1 & Hx);
    [done..|].
  assert (length c0 = length nu ∧ length c1 = length nu ∧
          length c2 = length nu ∧ length c3 = length nu) as (L0 & L1 & L2 & L3).
  { by repeat (apply Forall_cons in Hlen as [? Hlen]). }
  unfold add_offsets. cbn [zip_with].
  rewrite !remove_offset_fits by (repeat constructor; by rewrite length_map).
  rewrite Hx0, Hx1. cbn [mbind result_bind seq mapM].
  unfold offset_fit. cbn [lookup list_lookup mbind result_bind mret result_ret].
  pose proof (offsets_shifted nu c0 k0) as [F0 S0].
  pose proof (offsets_shifted nu c1 k1) as [F1 S1].
  pose proof (offsets_shifted nu c2 k2) as [F2 S2].
  pose proof (offsets_shifted nu c3 k3) as [F3 S3].
  pose proof (polyfit1_shifted x0 x1 k0 _ _ _ _ Hx F0 S0) as P0.
  pose proof (polyfit1_shifted x0 x1 k1 _ _ _ _ Hx F1 S1) as P1.
  pose proof (polyfit1_shifted x0 x1 k2 _ _ _ _ Hx F2 S2) as P2.
  pose proof (polyfit1_shifted x0 x1 k3 _ _ _ _ Hx F3 S3) as P3.
  unfold subtract_lines. cbn [imap zip_with lookup list_lookup compose].
  repeat constructor.
  - apply (column_without_line nu c0 _ _ k0 P0).
  - apply (column_without_line nu c1 _ _ k1 P1).
  - apply (column_without_line nu c2 _ _ k2 P2).
  - apply (column_without_line nu c3 _ _ k3 P3).
Qed.

Lemma remove_offset_constant_invariance_witness :
  same_data
    (remove_offset [-1; 40; 41; -1]%Q
       (add_offsets [5; -2; 0; 7]%Q
          [[1; -3; -4; 0]; [0; -1; -2; 2]; [3; -7; -1; 0]; [0; 0; 0; 0]]%Q))
    (remove_offset [-1; 40; 41; -1]%Q
       (map (map fin)
          [[1; -3; -4; 0]; [0; -1; -2; 2]; [3; -7; -1; 0]; [0; 0; 0; 0]]%Q)).
Proof.
  apply (remove_offset_constant_invariance _ _ _ 40 41)%Q;
    [done | done | by repeat constructor | by repeat constructor
     | by repeat constructor | by vm_compute | by vm_compute].
Defined.

(** ** More on the binning by frequency *)

Lemma trimmed_run_short (rej j c : nat) (col : list float) :
  (c ≤ 2 * rej)%nat → (rej ≤ j + c)%nat → trimmed_run rej j c col = [].
Proof.
  intros Hc Hrej. unfold trimmed_run, py_slice, slice_bound.
  rewrite !(proj2 (Z.ltb_ge _ _)) by lia.
  replace (_ - _)%nat with 0%nat by lia. done.
Qed.

Section binning_shape.
Context (np_sqrt : Q → Q).

(** The columns of the binned data, one value per distinct frequency. *)
Lemma get_frequency_range_and_data_columns (nu : list Q) (data : matrix)
    (std_dev : bool) (rej : nat) :
  Forall (λ col, length col = length nu) data →
  let nuf := filter (λ x, (0 < x)%Q) nu in
  let u := unique_values nuf in
  get_frequency_range_and_data np_sqrt nu data std_dev rej
  = Ok (u,
        map (λ col,
               map (λ f, np_median
                           (trimmed_run rej (first_index f nuf)
                              (occurrences f nuf)
                              (mask_select (positive_mask nu) col))) u) data,
        if std_dev then
          Some (map (λ col,
                  map (λ f, fdiv
                              (np_std np_sqrt
                                 (trimmed_run rej (first_index f nuf)
                                    (occurrences f nuf)
                                    (mask_select (positive_mask nu) col)))
                              (fin (np_sqrt (inject_Z
                                      (Z.of_nat (occurrences f nuf)))))) u)
                  data)
        else None).
Proof.
  intros Hshape nuf u. unfold get_frequency_range_and_data.
  rewrite bool_index_ok; last first.
  { unfold positive_mask. by rewrite length_map. }
  cbn [mbind result_bind]. unfold np_unique. rewrite positive_select.
  fold nuf. fold u. rewrite !map_map.
  f_equal. f_equal; [f_equal|].
  - apply map_ext. intros col.
    apply (zip_with_map_same
             (λ j c, np_median
                       (trimmed_run rej j c (mask_select (positive_mask nu) col)))).
  - destruct std_dev; [|done]. f_equal. apply map_ext. intros col.
    apply (zip_with_map_same
             (λ j c, fdiv (np_std np_sqrt
                             (trimmed_run rej j c
                                (mask_select (positive_mask nu) col)))
                          (fin (np_sqrt (inject_Z (Z.of_nat c)))))).
Qed.

(** X11. On a power array with one sample per entry of the frequency
    array, whatever the order and the repetitions of the frequencies,
    [get_frequency_range_and_data] returns: the distinct positive
    frequencies in increasing order, and for the data and for the
    standard deviations one column per detector with one value per
    distinct frequency; without [std_dev] it returns the same
    frequencies and data.  On another power array it raises the
    IndexError of the boolean index. *)
Theorem get_frequency_range_and_data_shape (nu : list Q) (data : matrix)
    (rej : nat) :
  (Forall (λ col, length col = length nu) data →
   ∃ new_nu new_data new_std_dev,
     get_frequency_range_and_data np_sqrt nu data true rej
       = Ok (new_nu, new_data, Some new_std_dev) ∧
     get_frequency_range_and_data np_sqrt nu data false rej
       = Ok (new_nu, new_data, None) ∧
     StronglySorted Qlt new_nu ∧
     (∀ f, f ∈ new_nu → (0 < f)%Q ∧ f ∈ nu) ∧
     (∀ x, x ∈ nu → (0 < x)%Q → ∃ f, f ∈ new_nu ∧ (f == x)%Q) ∧
     length new_data = length data ∧ length new_std_dev = length data ∧
     Forall (λ c, length c = length new_nu) new_data ∧
     Forall (λ c, length c = length new_nu) new_std_dev) ∧
  (¬ Forall (λ col, length col = length nu) data →
   ∀ std_dev, get_frequency_range_and_data np_sqrt nu data std_dev rej
              = Raise bool_index_error).
Proof.
  split.
  - intros Hshape.
    rewrite !get_frequency_range_and_data_columns by done.
    eexists _, _, _. split; [done|]. split; [done|].
    split; [apply unique_values_sorted|].
    split.
    { intros f Hf%unique_values_elem_of. by apply list_elem_of_filter in Hf. }
    split.
    { intros x Hx Hpos. apply unique_values_covers.
      by apply list_elem_of_filter. }
    rewrite !length_map. split; [done|]. split; [done|].
    split; apply Forall_fmap, Forall_forall; intros c _; simpl;
      by rewrite length_map.
  - intros Hshape std_dev. unfold get_frequency_range_and_data, bool_index.
    rewrite decide_False; [done|].
    unfold positive_mask. by rewrite length_map.
Qed.

(** The bin of a frequency that stays for at most [2 * rej] samples. *)
Lemma short_run_bin (nu : list Q) (data : matrix) (rej : nat) (f : Q)
    (pre run post : list Q) :
  Forall (λ col, length col = length nu) data →
  filter (λ x, (0 < x)%Q) nu = pre ++ run ++ post →
  run ≠ [] → Forall (λ x, (x == f)%Q) run →
  Forall (λ x, ¬ (x == f)%Q) pre → Forall (λ x, ¬ (x == f)%Q) post →
  (length run ≤ 2 * rej)%nat → (rej ≤ length pre + length run)%nat →
  ∃ new_nu new_data new_std_dev i f',
    get_frequency_range_and_data np_sqrt nu data true rej
      = Ok (new_nu, new_data, Some new_std_dev) ∧
    new_nu !! i = Some f' ∧ (f' == f)%Q ∧
    Forall (λ c, c !! i = Some nan) new_data ∧
    Forall (λ c, c !! i = Some nan) new_std_dev.
Proof.
  intros Hshape Hnuf Hne Hrun Hpre Hpost Hshort Hrej.
  rewrite get_frequency_range_and_data_columns by done.
  rewrite Hnuf. set (nuf := pre ++ run ++ post).
  assert (∃ r0, r0 ∈ run) as [r0 Hr0run].
  { destruct run as [|r0 run']; [done|]. exists r0. by left. }
  assert (r0 ∈ nuf) as Hr0.
  { unfold nuf. apply elem_of_app. right. apply elem_of_app. by left. }
  assert (r0 == f)%Q as Er0.
  { rewrite Forall_forall in Hrun. by apply Hrun. }
  destruct (unique_values_covers nuf r0 Hr0) as (f' & Hf' & Ef').
  apply list_elem_of_lookup_1 in Hf' as [i Hi].
  assert (f' == f)%Q as Ef by (by rewrite Ef').
  assert (first_index f' nuf = length pre ∧ occurrences f' nuf = length run)
    as [Hidx Hcount].
  { split; [apply first_index_run | apply occurrences_run]; try done;
      (eapply Forall_impl; [eassumption|]); intros x Hx; cbn beta in *;
      by rewrite Ef. }
  eexists _, _, _, i, f'. split; [done|]. split; [done|]. split; [done|].
  split; apply Forall_fmap, Forall_forall; intros c _; simpl;
    rewrite list_lookup_fmap, Hi; simpl;
    rewrite Hidx, Hcount, trimmed_run_short by lia; done.
Qed.

(** X12. A frequency that stays for at most [2 * rej] samples has no
    sample left after the rejection: its bin holds nan for every
    detector, in the data and in the standard deviations.  With the
    default [rej = 1] this is every frequency commanded for one or two
    samples only. *)
Theorem short_run_is_nan (nu : list Q) (data : matrix) (rej : nat) (f : Q)
    (pre run post : list Q) :
  Forall (λ col, length col = length nu) data →
  filter (λ x, (0 < x)%Q) nu = pre ++ run ++ post →
  run ≠ [] → Forall (λ x, (x == f)%Q) run →
  Forall (λ x, ¬ (x == f)%Q) pre → Forall (λ x, ¬ (x == f)%Q) post →
  (length run ≤ 2 * rej)%nat → (rej ≤ length pre + length run)%nat →
  ∃ new_nu new_data new_std_dev i f',
    get_frequency_range_and_data np_sqrt nu data true rej
      = Ok (new_nu, new_data, Some new_std_dev) ∧
    new_nu !! i = Some f' ∧ (f' == f)%Q ∧
    Forall (λ c, c !! i = Some nan) new_data ∧
    Forall (λ c, c !! i = Some nan) new_std_dev.
Proof. apply short_run_bin. Qed.
End binning_shape.

Lemma get_frequency_range_and_data_shape_witness :
  let nu := [-1; 41; 40; 40; 41; 40; -1]%Q in
  let data := [map fin [0; -5; -3; -4; -7; -9; 0]%Q;
               map fin [1; -2; -2; -6; -1; -3; 1]%Q] in
  (∃ new_nu new_data new_std_dev,
     get_frequency_range_and_data sqrt_6_digits nu data true 1
       = Ok (new_nu, new_data, Some new_std_dev) ∧
     get_frequency_range_and_data sqrt_6_digits nu data false 1
       = Ok (new_nu, new_data, None) ∧
     StronglySorted Qlt new_nu ∧
     (∀ f, f ∈ new_nu → (0 < f)%Q ∧ f ∈ nu) ∧
     (∀ x, x ∈ nu → (0 < x)%Q → ∃ f, f ∈ new_nu ∧ (f == x)%Q) ∧
     length new_data = length data ∧ length new_std_dev = length data ∧
     Forall (λ c, length c = length new_nu) new_data ∧
     Forall (λ c, length c = length new_nu) new_std_dev) ∧
  get_frequency_range_and_data sqrt_6_digits nu [map fin [0; -5]%Q] true 1
  = Raise bool_index_error.
Proof.
  intros nu data. split.
  - apply (proj1 (get_frequency_range_and_data_shape sqrt_6_digits nu data 1)).
    by repeat constructor.
  - apply (proj2 (get_frequency_range_and_data_shape sqrt_6_digits nu
                    [map fin [0; -5]%Q] 1)).
    intros H. apply Forall_cons in H as [H _]. by vm_compute in H.
Defined.

Lemma short_run_is_nan_witness :
  let nu := [-1; 40; 40; 41; 41; 41; -1]%Q in
  let data := [map fin [0; -5; -3; -4; -7; -9; 0]%Q;
               map fin [1; -2; -2; -6; -1; -3; 1]%Q] in
  ∃ new_nu new_data new_std_dev i f',
    get_frequency_range_and_data sqrt_6_digits nu data true 1
      = Ok (new_nu, new_data, Some new_std_dev) ∧
    new_nu !! i = Some f' ∧ (f' == 40)%Q ∧
    Forall (λ c, c !! i = Some nan) new_data ∧
    Forall (λ c, c !! i = Some nan) new_std_dev.
Proof.
  intros nu data.
  apply (short_run_is_nan sqrt_6_digits nu data 1 40 [] [40; 40] [41; 41; 41])%Q.
  - by repeat constructor.
  - by vm_compute.
  - done.
  - by repeat constructor.
  - constructor.
  - repeat constructor; by vm_compute.
  - simpl. lia.
  - simpl. lia.
Defined.

(** ** More on AnalyzeBandTest *)

Lemma get_central_nu_bandwidth_ok (nu : list Q) (data : ndarray) (mo : moments) :
  get_central_nu_bandwidth nu data = Ok mo →
  (2 ≤ length nu)%nat ∧ uniform_steps nu.
Proof.
  unfold get_central_nu_bandwidth.
  destruct (index0 (np_diff nu)) as [d0|] eqn:Hd0; cbn [mbind result_bind];
    [|done].
  destruct (allclose (np_diff nu) d0) eqn:Hclose; [|done]. intros _.
  split; [|by apply (allclose_uniform nu d0 Hd0)].
  destruct nu as [|a [|b nu]]; simpl; [done | done | lia].
Qed.

Lemma normalize_ok (col ncol : list float) :
  normalize col = Ok ncol →
  length ncol = length col ∧ (nan ∈ col → Forall (λ v, v = nan) ncol).
Proof.
  unfold normalize.
  destruct (np_min col) as [m|] eqn:Hm; cbn [mbind result_bind]; [|done].
  intros [= <-]. rewrite length_map. split; [done|].
  intros Hnan. unfold np_min in Hm. destruct col as [|v col]; [done|].
  destruct (finite (v :: col)) as [qs|] eqn:Hfin.
  - apply finite_Some in Hfin. rewrite Hfin in Hnan.
    by apply list_elem_of_fmap in Hnan as (x & ? & _).
  - injection Hm as <-. apply Forall_fmap, Forall_forall. intros x _.
    simpl. by destruct x.
Qed.

Section analysis.
Context (np_sqrt : Q → Q).
Context (load_timestream : string → result (list Q * matrix)).

(** The steps of a successful run of [AnalyzeBandTest]. *)
Lemma AnalyzeBandTest_ok (polarimeter_name file_name output_path : string)
    (r : band_test) :
  AnalyzeBandTest np_sqrt load_timestream polarimeter_name file_name output_path
    = Ok r →
  ∃ nu data nooff binned sd mo idx,
    load_timestream file_name = Ok (nu, data) ∧
    remove_offset nu data = Ok nooff ∧
    get_frequency_range_and_data np_sqrt nu nooff true 1
      = Ok (new_nu r, binned, sd) ∧
    new_data r = map (map clamp) binned ∧
    get_central_nu_bandwidth (new_nu r) (Arr2 (new_data r)) = Ok mo ∧
    find_blind_channel (new_data r) = Ok (idx, pss r) ∧
    central_nu_det r
      = ((moment_arrays mo).1, map negb (<[idx := false]> (replicate 4 true))) ∧
    bandwidth_det r
      = ((moment_arrays mo).2, map negb (<[idx := false]> (replicate 4 true))) ∧
    length (moment_arrays mo).1 = 4%nat ∧
    length (moment_arrays mo).2 = 4%nat ∧
    mapM normalize (mask_select (<[idx := false]> (replicate 4 true)) (new_data r))
      = Ok (norm_data r) ∧
    duration r = (inject_Z (Z.of_nat (nrows data)) / SAMPLING_FREQUENCY_HZ)%Q.
Proof.
  unfold AnalyzeBandTest.
  destruct (load_timestream file_name) as [[nu data]|]; simpl; [|done].
  destruct (index data 0); simpl; [|done].
  destruct (remove_offset nu data) as [nooffdata|] eqn:Hoff; simpl; [|done].
  destruct (get_frequency_range_and_data np_sqrt nu nooffdata true 1)
    as [[[u binned] std]|] eqn:Hbin; simpl; [|done].
  destruct (get_central_nu_bandwidth u (Arr2 _)) as [mo|] eqn:Hmo;
    simpl; [|done].
  destruct (find_blind_channel _) as [[idx_blind status]|] eqn:Hblind;
    simpl; [|done].
  destruct (masked_array (moment_arrays mo).1 _) as [cn|] eqn:Hcn;
    simpl; [|done].
  destruct (masked_array (moment_arrays mo).2 _) as [bw|] eqn:Hbw;
    simpl; [|done].
  destruct (mapM normalize _) as [norm|] eqn:Hnorm; simpl; [|done].
  intros [= <-]. simpl.
  unfold masked_array in Hcn, Hbw. repeat case_decide; simplify_eq.
  eexists nu, data, nooffdata, binned, std, mo, idx_blind.
  rewrite length_map, length_insert in *. simpl in *.
  repeat (split; [done|]). done.
Qed.

(** The shape of a result of [AnalyzeBandTest]. *)
Lemma AnalyzeBandTest_ok_shape
    (polarimeter_name file_name output_path : string) (r : band_test) :
  AnalyzeBandTest np_sqrt load_timestream polarimeter_name file_name output_path
    = Ok r →
  ∃ nu data,
    load_timestream file_name = Ok (nu, data) ∧
    duration r = (inject_Z (Z.of_nat (nrows data)) / SAMPLING_FREQUENCY_HZ)%Q ∧
    new_nu r = unique_values (filter (λ x, (0 < x)%Q) nu) ∧
    (2 ≤ length (new_nu r))%nat ∧ length (new_nu r) ≠ 4%nat ∧
    uniform_steps (new_nu r) ∧
    length (new_data r) = 4%nat ∧
    Forall (λ c, length c = length (new_nu r)) (new_data r) ∧
    length (norm_data r) = 3%nat ∧
    Forall (λ c, length c = length (new_nu r)) (norm_data r) ∧
    length (central_nu_det r).1 = 4%nat ∧
    length (bandwidth_det r).1 = 4%nat ∧
    (pss r = "0110"%string ∧
     (central_nu_det r).2 = [true; false; false; false] ∧
     (bandwidth_det r).2 = [true; false; false; false] ∨
     pss r = "0101"%string ∧
     (central_nu_det r).2 = [false; false; false; true] ∧
     (bandwidth_det r).2 = [false; false; false; true]).
Proof.
  intros (nu & data & nooff & binned & sd & mo & idx & Hload & Hoff & Hbin
          & Hdata & Hmo & Hblind & Hcn & Hbw & Lcn & Lbw & Hnorm & Hdur)
         %AnalyzeBandTest_ok.
  exists nu, data. split; [done|]. split; [done|].
  destruct (remove_offset_ok_shape nu data nooff Hoff) as (_ & _ & Hshape).
  rewrite get_frequency_range_and_data_columns in Hbin by done.
  injection Hbin as Hnu Hbinned _. symmetry in Hnu.
  split; [done|].
  destruct (get_central_nu_bandwidth_ok _ _ _ Hmo) as [HN Hu].
  assert (Forall (λ c, length c = length (new_nu r)) (new_data r)) as Hcols.
  { rewrite Hdata, <- Hbinned, Hnu.
    apply Forall_fmap, Forall_fmap, Forall_forall. intros c _. simpl.
    by rewrite !length_map. }
  assert (length (new_data r) = 4%nat ∧ length (new_nu r) ≠ 4%nat) as [L4 Lnu].
  { destruct (get_central_nu_bandwidth_uniform _ (Arr2 (new_data r)) HN Hu)
      as (step & _ & Hmo').
    rewrite Hmo' in Hmo. clear Hmo'. case_decide as Hsq.
    - unfold moments_3d in Hmo. case_decide; [|done].
      injection Hmo as <-. simpl in Lcn. lia.
    - rewrite moments_2d_columns in Hmo.
      destruct (forallb _ _); [|done]. case_decide as Hone.
      + injection Hmo as <-. simpl in Lcn. lia.
      + injection Hmo as <-. simpl in Lcn. rewrite length_map in Lcn.
        split; [done|]. intros L4. apply Hsq.
        destruct (new_data r) as [|c0 cs]; [done|].
        apply Forall_cons in Hcols as [Hc0 _]. simpl in *. lia. }
  split; [done|]. split; [done|]. split; [done|]. split; [done|].
  split; [done|].
  assert (idx < 4)%nat as Hidx.
  { apply find_blind_channel_ok in Hblind as [[-> _]|[-> _]]; lia. }
  change [true; true; true; true] with (replicate 4 true) in Hnorm.
  rewrite mask_select_delete in Hnorm by lia.
  apply mapM_result_Forall2 in Hnorm.
  split.
  { apply Forall2_length in Hnorm. rewrite <- Hnorm, length_delete; [lia|].
    apply lookup_lt_is_Some. lia. }
  split.
  { apply Forall_forall. intros ncol Hncol.
    apply list_elem_of_lookup_1 in Hncol as [j Hj].
    eapply Forall2_lookup_r in Hnorm as (col & Hcol & Hn); [|exact Hj].
    apply normalize_ok in Hn as [-> _].
    rewrite Forall_forall in Hcols. apply Hcols.
    eapply list_elem_of_delete_inv, list_elem_of_lookup_2. exact Hcol. }
  rewrite Hcn, Hbw. simpl. split; [done|]. split; [done|].
  apply find_blind_channel_ok in Hblind as [[-> ->]|[-> ->]]; [left | right];
    done.
Qed.

(** X13. The shape of what [AnalyzeBandTest] returns: the status is
    '0110' or '0101'; the frequencies are the distinct positive
    frequencies of the file, at least two of them and not exactly four,
    in uniform steps; [new_data] has four columns and [norm_data] three,
    each with one value per frequency; the two masked arrays have four
    entries, of which only the blind detector is masked, detector 0 for
    '0110' and detector 3 for '0101'; and the duration is the number of
    samples divided by the sampling frequency. *)
Theorem AnalyzeBandTest_result_shape
    (polarimeter_name file_name output_path : string) (r : band_test) :
  AnalyzeBandTest np_sqrt load_timestream polarimeter_name file_name output_path
    = Ok r →
  ∃ nu data,
    load_timestream file_name = Ok (nu, data) ∧
    duration r = (inject_Z (Z.of_nat (nrows data)) / SAMPLING_FREQUENCY_HZ)%Q ∧
    new_nu r = unique_values (filter (λ x, (0 < x)%Q) nu) ∧
    (2 ≤ length (new_nu r))%nat ∧ length (new_nu r) ≠ 4%nat ∧
    uniform_steps (new_nu r) ∧
    length (new_data r) = 4%nat ∧
    Forall (λ c, length c = length (new_nu r)) (new_data r) ∧
    length (norm_data r) = 3%nat ∧
    Forall (λ c, length c = length (new_nu r)) (norm_data r) ∧
    length (central_nu_det r).1 = 4%nat ∧
    length (bandwidth_det r).1 = 4%nat ∧
    (pss r = "0110"%string ∧
     (central_nu_det r).2 = [true; false; false; false] ∧
     (bandwidth_det r).2 = [true; false; false; false] ∨
     pss r = "0101"%string ∧
     (central_nu_det r).2 = [false; false; false; true] ∧
     (bandwidth_det r).2 = [false; false; false; true]).
Proof. apply AnalyzeBandTest_ok_shape. Qed.

(** X14. A sweep of exactly four distinct positive frequencies cannot be
    analysed: the binned data are then a square matrix, for which
    [get_central_nu_bandwidth] returns arrays of one entry, and the
    masked arrays with a mask of four entries cannot be built.
    [AnalyzeBandTest] raises, whatever the samples are. *)
Theorem AnalyzeBandTest_four_frequencies
    (polarimeter_name file_name output_path : string)
    (nu : list Q) (data : matrix) :
  load_timestream file_name = Ok (nu, data) →
  length (unique_values (filter (λ x, (0 < x)%Q) nu)) = 4%nat →
  ∃ e, AnalyzeBandTest np_sqrt load_timestream
         polarimeter_name file_name output_path = Raise e.
Proof.
  intros Hload H4.
  destruct (AnalyzeBandTest _ _ _ _ _) as [r|e] eqn:Hrun; [|by exists e].
  exfalso.
  apply AnalyzeBandTest_ok in Hrun
    as (nu' & data' & nooff & binned & sd & mo & idx & Hload' & Hoff & Hbin
        & Hdata & Hmo & Hblind & Hcn & Hbw & Lcn & Lbw & Hnorm & Hdur).
  rewrite Hload in Hload'. injection Hload' as <- <-.
  destruct (remove_offset_ok_shape nu data nooff Hoff) as (_ & _ & Hshape).
  rewrite get_frequency_range_and_data_columns in Hbin by done.
  injection Hbin as Hnu Hbinned _. symmetry in Hnu.
  destruct (get_central_nu_bandwidth_ok _ _ _ Hmo) as [HN Hu].
  assert (Forall (λ c, length c = 4%nat) (new_data r)) as Hcols.
  { rewrite Hdata, <- Hbinned.
    apply Forall_fmap, Forall_fmap, Forall_forall. intros c _. simpl.
    by rewrite !length_map. }
  destruct (get_central_nu_bandwidth_uniform _ (Arr2 (new_data r)) HN Hu)
    as (step & _ & Hmo').
  rewrite Hmo' in Hmo. clear Hmo'. case_decide as Hsq.
  - unfold moments_3d in Hmo. case_decide; [|done].
    injection Hmo as <-. simpl in Lcn. lia.
  - rewrite moments_2d_columns in Hmo.
    destruct (forallb _ _); [|done]. case_decide as Hone.
    + injection Hmo as <-. simpl in Lcn. lia.
    + injection Hmo as <-. simpl in Lcn. rewrite length_map in Lcn.
      apply Hsq. destruct (new_data r) as [|c0 cs]; [done|].
      apply Forall_cons in Hcols as [Hc0 _]. simpl in *. lia.
Qed.
End analysis.

Lemma AnalyzeBandTest_result_shape_witness :
  ∃ r, AnalyzeBandTest sqrt_6_digits example_load "STRIP" "sweep.txt" "out"
       = Ok r ∧
  ∃ nu data,
    example_load "sweep.txt" = Ok (nu, data) ∧
    duration r = (inject_Z (Z.of_nat (nrows data)) / SAMPLING_FREQUENCY_HZ)%Q ∧
    new_nu r = unique_values (filter (λ x, (0 < x)%Q) nu) ∧
    (2 ≤ length (new_nu r))%nat ∧ length (new_nu r) ≠ 4%nat ∧
    uniform_steps (new_nu r) ∧
    length (new_data r) = 4%nat ∧
    Forall (λ c, length c = length (new_nu r)) (new_data r) ∧
    length (norm_data r) = 3%nat ∧
    Forall (λ c, length c = length (new_nu r)) (norm_data r) ∧
    length (central_nu_det r).1 = 4%nat ∧
    length (bandwidth_det r).1 = 4%nat ∧
    (pss r = "0110"%string ∧
     (central_nu_det r).2 = [true; false; false; false] ∧
     (bandwidth_det r).2 = [true; false; false; false] ∨
     pss r = "0101"%string ∧
     (central_nu_det r).2 = [false; false; false; true] ∧
     (bandwidth_det r).2 = [false; false; false; true]).
Proof.
  eexists. split; [vm_compute; reflexivity|].
  apply (AnalyzeBandTest_result_shape sqrt_6_digits example_load
           "STRIP" "sweep.txt" "out").
  vm_compute. reflexivity.
Defined.

Lemma AnalyzeBandTest_four_frequencies_witness :
  ∃ e, AnalyzeBandTest sqrt_6_digits example_load_4 "STRIP" "sweep.txt" "out"
       = Raise e.
Proof.
  apply (AnalyzeBandTest_four_frequencies sqrt_6_digits example_load_4
           "STRIP" "sweep.txt" "out" example_nu_4 example_data_4);
    reflexivity.
Defined.

(** On the sweep of four frequencies the error is that of the masked
    array. *)
Example analyze_band_test_four_frequencies :
  AnalyzeBandTest sqrt_6_digits example_load_4 "STRIP" "sweep.txt" "out"
  = Raise (MaskError "Mask and data not compatible").
Proof. by vm_compute. Qed.

Lemma fsum_nan (l : list float) : nan ∈ l → fsum l = nan.
Proof.
  induction l as [|x l IH]; [by intros ?%elem_of_nil|].
  intros [<-|Hl]%elem_of_cons; [done|].
  rewrite fsum_cons, IH by done. by destruct x.
Qed.

Lemma column_moments_nan (nu : list Q) (step : Q) (c : list float) :
  nan ∈ c → column_central_nu nu c = nan ∧ column_bandwidth step c = nan.
Proof.
  intros Hc. unfold column_central_nu, column_bandwidth.
  rewrite (fsum_nan c) by done. split; [|done].
  by destruct (fsum _).
Qed.

Section short_run.
Context (np_sqrt : Q → Q).
Context (load_timestream : string → result (list Q * matrix)).

(** X15. A frequency commanded for one or two samples only spoils the
    whole analysis of its file: when [AnalyzeBandTest] returns, the
    status is '0110' whatever the detectors measured, and the central
    frequencies, the bandwidths and the normalized data are nan for all
    detectors. *)
Theorem short_run_spoils_analysis
    (polarimeter_name file_name output_path : string)
    (nu : list Q) (data : matrix) (f : Q) (pre run post : list Q)
    (r : band_test) :
  load_timestream file_name = Ok (nu, data) →
  filter (λ x, (0 < x)%Q) nu = pre ++ run ++ post →
  run ≠ [] → (length run ≤ 2)%nat → Forall (λ x, (x == f)%Q) run →
  Forall (λ x, ¬ (x == f)%Q) pre → Forall (λ x, ¬ (x == f)%Q) post →
  AnalyzeBandTest np_sqrt load_timestream polarimeter_name file_name output_path
    = Ok r →
  pss r = "0110"%string ∧
  Forall (λ v, v = nan) (central_nu_det r).1 ∧
  Forall (λ v, v = nan) (bandwidth_det r).1 ∧
  Forall (Forall (λ v, v = nan)) (norm_data r).
Proof.
  intros Hload Hnuf Hne Hshort Hrun Hpre Hpost
    (nu' & data' & nooff & binned & sd & mo & idx & Hload' & Hoff & Hbin
     & Hdata & Hmo & Hblind & Hcn & Hbw & Lcn & Lbw & Hnorm & Hdur)
    %AnalyzeBandTest_ok.
  rewrite Hload in Hload'. injection Hload' as <- <-.
  destruct (remove_offset_ok_shape nu data nooff Hoff) as (_ & _ & Hshape).
  destruct (short_run_bin np_sqrt nu nooff 1 f pre run post)
    as (new_nu' & binned' & sd' & i & f' & Hbin' & Hi & _ & Hnan & _);
    [done.. | simpl; lia | destruct run; simpl in *; [done | lia] |].
  rewrite Hbin in Hbin'. injection Hbin' as <- <- _.
  assert (Forall (λ c, nan ∈ c) (new_data r)) as Hcols.
  { rewrite Hdata. apply Forall_fmap. eapply Forall_impl; [exact Hnan|].
    intros c Hc. simpl. eapply list_elem_of_lookup_2.
    rewrite list_lookup_fmap, Hc. done. }
  destruct (get_central_nu_bandwidth_ok _ _ _ Hmo) as [HN Hu].
  destruct (get_central_nu_bandwidth_uniform _ (Arr2 (new_data r)) HN Hu)
    as (step & _ & Hmo').
  rewrite Hmo' in Hmo. clear Hmo'.
  assert (Forall (λ v, v = nan) (moment_arrays mo).1 ∧
          Forall (λ v, v = nan) (moment_arrays mo).2 ∧
          length (new_data r) = 4%nat) as (Hc & Hb & L4).
  { case_decide as Hsq.
    - unfold moments_3d in Hmo. case_decide; [|done].
      injection Hmo as <-. simpl in Lcn. lia.
    - rewrite moments_2d_columns in Hmo.
      destruct (forallb _ _); [|done]. case_decide as Hone.
      + injection Hmo as <-. simpl in Lcn. lia.
      + injection Hmo as <-. simpl in *. rewrite length_map in Lcn.
        split; [|split; [|done]]; apply Forall_fmap;
          (eapply Forall_impl; [exact Hcols|]); intros c Hc; simpl;
          by apply (column_moments_nan (new_nu r) step c). }
  assert (idx = 0%nat ∧ pss r = "0110"%string) as [-> Hpss].
  { destruct (new_data r) as [|c0 cs]; [done|].
    apply Forall_cons in Hcols as [Hc0 _].
    rewrite (find_blind_channel_nan_first_column c0 cs Hc0) in Hblind.
    by injection Hblind as <- <-. }
  split; [done|]. rewrite Hcn, Hbw. split; [done|]. split; [done|].
  change [true; true; true; true] with (replicate 4 true) in Hnorm.
  rewrite mask_select_delete in Hnorm by lia.
  apply mapM_result_Forall2 in Hnorm.
  apply Forall_forall. intros ncol Hncol.
  apply list_elem_of_lookup_1 in Hncol as [j Hj].
  eapply Forall2_lookup_r in Hnorm as (col & Hcol & Hn); [|exact Hj].
  apply normalize_ok in Hn as [_ Hn]. apply Hn.
  rewrite Forall_forall in Hcols. apply Hcols.
  eapply list_elem_of_delete_inv, list_elem_of_lookup_2. exact Hcol.
Qed.
End short_run.

Lemma short_run_spoils_analysis_witness :
  ∃ r, AnalyzeBandTest sqrt_6_digits example_load_short "STRIP" "sweep.txt" "out"
       = Ok r ∧
  pss r = "0110"%string ∧
  Forall (λ v, v = nan) (central_nu_det r).1 ∧
  Forall (λ v, v = nan) (bandwidth_det r).1 ∧
  Forall (Forall (λ v, v = nan)) (norm_data r).
Proof.
  eexists. split; [vm_compute; reflexivity|].
  apply (short_run_spoils_analysis sqrt_6_digits example_load_short
           "STRIP" "sweep.txt" "out" example_nu_short example_data_short
           41 [40; 40; 40] [41; 41] [42; 42; 42])%Q.
  - reflexivity.
  - by vm_compute.
  - done.
  - simpl. lia.
  - by repeat constructor.
  - repeat constructor; by vm_compute.
  - repeat constructor; by vm_compute.
  - vm_compute. reflexivity.
Defined.

(** ** More on the Report Parameter Mapping *)

Lemma top_level_key_fresh (key pss : string) (j : nat) :
  key ∈ top_level_keys → key ≠ status_key j ∧ key ≠ file_key pss j.
Proof.
  unfold top_level_keys, status_key, file_key. intros Hkey.
  repeat (apply elem_of_cons in Hkey as [->|Hkey]; [by split; cbn; intros [=]|]).
  by apply elem_of_nil in Hkey.
Qed.

(** A property of the accumulator that every successful step of a loop
    keeps holds after the loop. *)
Lemma for_enumerate_invariant {A R} (P : R → Prop)
    (body : nat → A → R → M R) (l : list A) :
  (∀ i x acc st acc' st',
     body i x acc st = (Ok acc', st') → P acc → P acc') →
  ∀ i acc st acc' st',
    for_enumerate body i l acc st = (Ok acc', st') → P acc → P acc'.
Proof.
  intros Hbody. induction l as [|x l IH]; intros i acc st acc' st' Hrun Hacc.
  - cbn in Hrun. unfold mret, M_ret in Hrun. by simplify_eq.
  - cbn [for_enumerate] in Hrun. unfold mbind, M_bind in Hrun.
    destruct (body i x acc st) as [[acc1|e] st1] eqn:Hstep; [|done].
    eapply IH; [exact Hrun|]. by eapply Hbody.
Qed.

Lemma detector_body_other_key (j : nat) (pss : string) (i : nat) (nam key : string)
    (v : option value) (results results' : gmap string value) (st st' : arrays) :
  key ≠ file_key pss j →
  detector_body j pss i nam results st = (Ok results', st') →
  results !! key = v → results' !! key = v.
Proof.
  intros Hkey Hrun Hv. unfold detector_body in Hrun.
  fold (file_key pss j) in Hrun.
  unfold mbind, M_bind in Hrun.
  destruct (if is_blind pss i then _ else _) as [[[]|] st1]; [|done].
  destruct (get_central_nu j i st1) as [[c|] st2]; [|done].
  destruct (get_bandwidth j i st2) as [[b|] st3]; [|done].
  unfold set_detector in Hrun.
  destruct (results !! file_key pss j) as [[| |d]|]; try done.
  unfold mret, M_ret in Hrun. simplify_eq.
  by rewrite lookup_insert_ne.
Qed.

Lemma file_body_other_key (j : nat) (pss key : string) (v : option value)
    (results results' : gmap string value) (st st' : arrays) :
  key ≠ status_key j → key ≠ file_key pss j →
  file_body j pss results st = (Ok results', st') →
  results !! key = v → results' !! key = v.
Proof.
  intros Hs Hf Hrun Hv. unfold file_body in Hrun.
  fold (status_key j) (file_key pss j) in Hrun.
  eapply (for_enumerate_invariant (λ r, r !! key = v)); [|exact Hrun|].
  - intros i x acc s acc' s' Hstep Hacc.
    by eapply detector_body_other_key.
  - by rewrite !lookup_insert_ne.
Qed.

(** The keys set before the loop are in every mapping returned. *)
Lemma build_dict_from_results_keys (pol_name : string) (duration : Q)
    (PSStatus : list string) (fc fce fb fbe : float) (st st' : arrays)
    (results : gmap string value) :
  build_dict_from_results pol_name duration PSStatus fc fce fb fbe st
    = (Ok results, st') →
  results !! "polarimeter_name"%string = Some (VStr pol_name) ∧
  results !! "title"%string
    = Some (VStr ("Bandwidth test for polarimeter " +:+ pol_name)) ∧
  results !! "sampling_frequency"%string = Some (VFloat (fin 25)) ∧
  results !! "test_duration"%string = Some (VFloat (fin (duration / 60 / 60))) ∧
  results !! "final_central_nu"%string = Some (VFloat fc) ∧
  results !! "final_central_nu_err"%string = Some (VFloat fce) ∧
  results !! "final_bandwidth"%string = Some (VFloat fb) ∧
  results !! "final_bandwidth_err"%string = Some (VFloat fbe).
Proof.
  intros Hrun. unfold build_dict_from_results in Hrun.
  match type of Hrun with
  | for_enumerate _ _ _ ?r _ = _ => set (results0 := r) in *
  end.
  assert (∀ key v, key ∈ top_level_keys → results0 !! key = v →
            results !! key = v) as Hkeep.
  { intros key v Hkey Hv.
    eapply (for_enumerate_invariant (λ r, r !! key = v)); [|exact Hrun|exact Hv].
    intros j pss acc s acc' s' Hstep Hacc.
    destruct (top_level_key_fresh key pss j Hkey).
    by eapply file_body_other_key. }
  repeat split; apply Hkeep; try done; unfold top_level_keys;
    by repeat constructor.
Qed.

(** X16. The loop over the files never touches the keys that
    [build_dict_from_results] sets before it: whatever the statuses and
    the arrays are, a mapping that the function returns holds the name of
    the polarimeter, the title made of it, the sampling frequency, the
    duration in hours and the four final values under their keys. *)
Theorem build_dict_from_results_top_level (pol_name : string) (duration : Q)
    (PSStatus : list string) (fc fce fb fbe : float) (st st' : arrays)
    (results : gmap string value) :
  build_dict_from_results pol_name duration PSStatus fc fce fb fbe st
    = (Ok results, st') →
  results !! "polarimeter_name"%string = Some (VStr pol_name) ∧
  results !! "title"%string
    = Some (VStr ("Bandwidth test for polarimeter " +:+ pol_name)) ∧
  results !! "sampling_frequency"%string = Some (VFloat (fin 25)) ∧
  results !! "test_duration"%string = Some (VFloat (fin (duration / 60 / 60))) ∧
  results !! "final_central_nu"%string = Some (VFloat fc) ∧
  results !! "final_central_nu_err"%string = Some (VFloat fce) ∧
  results !! "final_bandwidth"%string = Some (VFloat fb) ∧
  results !! "final_bandwidth_err"%string = Some (VFloat fbe).
Proof. apply build_dict_from_results_keys. Qed.

Lemma build_dict_from_results_top_level_witness :
  ∃ results st',
    build_dict_from_results "STRIP" 3600 example_status
      (fin 44) (fin 1) (fin 8) (fin 1) example_arrays = (Ok results, st') ∧
    results !! "polarimeter_name"%string = Some (VStr "STRIP") ∧
    results !! "title"%string
      = Some (VStr ("Bandwidth test for polarimeter " +:+ "STRIP")) ∧
    results !! "sampling_frequency"%string = Some (VFloat (fin 25)) ∧
    results !! "test_duration"%string = Some (VFloat (fin (3600 / 60 / 60))) ∧
    results !! "final_central_nu"%string = Some (VFloat (fin 44)) ∧
    results !! "final_central_nu_err"%string = Some (VFloat (fin 1)) ∧
    results !! "final_bandwidth"%string = Some (VFloat (fin 8)) ∧
    results !! "final_bandwidth_err"%string = Some (VFloat (fin 1)).
Proof.
  destruct (build_dict_from_results_spec "STRIP" 3600 example_status
              (fin 44) (fin 1) (fin 8) (fin 1) example_arrays)
    as (results & Hrun & _);
    [split; [reflexivity | by repeat constructor]..|].
  eexists results, _. split; [exact Hrun|].
  exact (build_dict_from_results_top_level _ _ _ _ _ _ _ _ _ _ Hrun).
Defined.

Lemma for_enumerate_app {A R} (body : nat → A → R → M R) (l1 l2 : list A) :
  ∀ i acc st,
    for_enumerate body i (l1 ++ l2) acc st
    = match for_enumerate body i l1 acc st with
      | (Ok acc', st') => for_enumerate body (i + length l1) l2 acc' st'
      | (Raise e, st') => (Raise e, st')
      end.
Proof.
  induction l1 as [|x l1 IH]; intros i acc st.
  - cbn. by rewrite Nat.add_0_r.
  - cbn [app for_enumerate length]. unfold mbind, M_bind.
    destruct (body i x acc st) as [[acc1|e] st1]; [|done].
    rewrite IH. by replace (S i + length l1)%nat with (i + S (length l1))%nat by lia.
Qed.

Lemma detector_body_missing_row (j : nat) (pss : string) (i : nat) (nam : string)
    (results : gmap string value) (st : arrays) :
  central_nu_tbl st !! j = None →
  detector_body j pss i nam results st = (Raise out_of_bounds, st).
Proof.
  intros Hrow. unfold detector_body, mbind, M_bind.
  destruct (is_blind pss i).
  - unfold set_central_nu, table_set. by rewrite Hrow.
  - unfold mret, M_ret, get_central_nu, table_get. by rewrite Hrow.
Qed.

(** X17. With arrays that have fewer rows than there are files,
    [build_dict_from_results] fails with IndexError at the first file
    without a row, and returns no mapping; by then it has written into
    the arrays of the caller: the rows of the files before hold 0 at
    their blind detector. *)
Theorem build_dict_from_results_short_arrays (pol_name : string) (duration : Q)
    (done_ rest : list string) (pss : string) (fc fce fb fbe : float)
    (st : arrays) :
  rows_of_four done_ (central_nu_tbl st) →
  rows_of_four done_ (bandwidth_tbl st) →
  build_dict_from_results pol_name duration (done_ ++ pss :: rest)
    fc fce fb fbe st
  = (Raise out_of_bounds,
     {| central_nu_tbl := zero_rows 0 done_ (central_nu_tbl st);
        bandwidth_tbl := zero_rows 0 done_ (bandwidth_tbl st) |}).
Proof.
  intros Hcn Hbw. unfold build_dict_from_results.
  rewrite for_enumerate_app.
  edestruct (files_loop_spec done_ 0) as (results & -> & _).
  { intros k Hk.
    destruct (rows_of_four_lookup _ _ k Hcn Hk) as (r1 & ? & ?).
    destruct (rows_of_four_lookup _ _ k Hbw Hk) as (r2 & ? & ?).
    by exists r1, r2. }
  cbn [for_enumerate]. unfold mbind at 1. unfold M_bind at 1.
  unfold file_body, NAMING_CONVENTION. cbn [for_enumerate].
  unfold mbind at 1. unfold M_bind at 1.
  rewrite detector_body_missing_row; [done|].
  cbn [central_nu_tbl]. apply lookup_ge_None.
  rewrite zero_rows_length. destruct Hcn as [-> _]. simpl. lia.
Qed.

Lemma build_dict_from_results_short_arrays_witness :
  build_dict_from_results "STRIP" 3600 (example_status ++ "0110"%string :: [])
    (fin 44) (fin 1) (fin 8) (fin 1) example_arrays
  = (Raise out_of_bounds,
     {| central_nu_tbl :=
          zero_rows 0 example_status (central_nu_tbl example_arrays);
        bandwidth_tbl :=
          zero_rows 0 example_status (bandwidth_tbl example_arrays) |}).
Proof.
  apply build_dict_from_results_short_arrays;
    (split; [reflexivity | by repeat constructor]).
Defined.

(** ** More on the report *)

Section report_files.
Context {V : Type} (str : V → string).
Context (module_dir : string).
Context (render_unicode : string → gmap string V → result string).
Context (markdown : string → string).
Context (open_error : string → option exn).


(** X19. [create_report] writes nowhere else: in every outcome, a file
    other than the three that it writes in the output directory is as
    before, present with the same text or absent; and a call that fails
    leaves the HTML report as it was. *)
Theorem create_report_frame (params : gmap string V)
    (md_template_file md_report_file html_report_file output_path : string)
    (fs fs' : files) (r : result unit) :
  let css_dst := path_join output_path "report_style.css" in
  let md_path := path_join output_path md_report_file in
  let html_path := path_join output_path html_report_file in
  create_report str module_dir render_unicode markdown open_error params
    md_template_file md_report_file html_report_file output_path fs
  = (r, fs') →
  (∀ path, path ≠ css_dst → path ≠ md_path → path ≠ html_path →
           fs' !! path = fs !! path) ∧
  (r ≠ Ok () → html_path ≠ css_dst → html_path ≠ md_path →
   fs' !! html_path = fs !! html_path).
Proof.
  intros css_dst md_path html_path.
  unfold create_report. fold css_dst md_path html_path.
  unfold copyfile, read_file, write_file, lift, mbind, IO_bind.
  destruct (fs !! _) as [css|]; [|by intros [= <- <-]].
  destruct (open_error css_dst); [by intros [= <- <-]|].
  destruct (<[css_dst := css]> fs !! _) as [template|];
    [|intros [= <- <-]; split; intros; by rewrite lookup_insert_ne].
  destruct (render_unicode template params) as [md_report|];
    [|intros [= <- <-]; split; intros; by rewrite lookup_insert_ne].
  destruct (open_error md_path);
    [intros [= <- <-]; split; intros; by rewrite lookup_insert_ne|].
  destruct (params !! "title"%string) as [title|];
    [|intros [= <- <-]; split; intros; by rewrite !lookup_insert_ne].
  destruct (open_error html_path);
    intros [= <- <-]; split; intros; try done; by rewrite !lookup_insert_ne.
Qed.

End report_files.

Lemma create_report_frame_witness :
  (∀ path, path ≠ "out/report_style.css"%string →
           path ≠ "out/bandwidth_report.md"%string →
           path ≠ "out/bandwidth_report.html"%string →
           report_without_title.2 !! path = example_files !! path) ∧
  (report_without_title.1 ≠ Ok () →
   "out/bandwidth_report.html"%string ≠ "out/report_style.css"%string →
   "out/bandwidth_report.html"%string ≠ "out/bandwidth_report.md"%string →
   report_without_title.2 !! "out/bandwidth_report.html"%string
   = example_files !! "out/bandwidth_report.html"%string).
Proof.
  apply (create_report_frame id "/opt/striptun" render_verbatim id
           directory_exists ∅
           "bandwidth.md" "bandwidth_report.md" "bandwidth_report.html" "out"
           example_files report_without_title.2 report_without_title.1).
  unfold report_without_title. apply surjective_pairing.
Defined.


Section report_of_results.
Context (str : value → string).
Context (module_dir : string).
Context (render_unicode : string → gmap string value → result string).
Context (markdown : string → string).
Context (open_error : string → option exn).

(** X21. The report of [main] always has its title: with the parameters
    that [build_dict_from_results] returns, whatever the files were, the
    call of [create_report] that ends [main] does not fail for a missing
    'title'.  When the stylesheet and the template can be read and the
    rendering succeeds, the call fails only where a file of the report
    cannot be opened for writing, with the error of the operating
    system and the files written before; in the output directory that
    [main] has created it returns, and the HTML report carries the
    title 'Bandwidth test for polarimeter' followed by the name. *)
Theorem main_report_has_title (pol_name : string) (duration : Q)
    (PSStatus : list string) (fc fce fb fbe : float) (st st' : arrays)
    (params : gmap string value) (output_path : string)
    (fs : files) (css template md_report : string) :
  let template_path := path_join module_dir "template" in
  let css_dst := path_join output_path "report_style.css" in
  let md_path := path_join output_path "bandwidth_report.md" in
  let html_path := path_join output_path "bandwidth_report.html" in
  (∀ s, str (VStr s) = s) →
  build_dict_from_results pol_name duration PSStatus fc fce fb fbe st
    = (Ok params, st') →
  fs !! path_join template_path "report_style.css" = Some css →
  <[css_dst := css]> fs !! path_join template_path "bandwidth.md"
    = Some template →
  render_unicode template params = Ok md_report →
  main_report str module_dir render_unicode markdown open_error params
    output_path fs
  = match open_error css_dst, open_error md_path, open_error html_path with
    | Some e, _, _ => (Raise e, fs)
    | None, Some e, _ => (Raise e, <[css_dst := css]> fs)
    | None, None, Some e =>
        (Raise e, <[md_path := md_report]> (<[css_dst := css]> fs))
    | None, None, None =>
        (Ok (),
         <[html_path := html_document
                          ("Bandwidth test for polarimeter " +:+ pol_name)
                          (markdown md_report)]>
           (<[md_path := md_report]> (<[css_dst := css]> fs)))
    end.
Proof.
  intros template_path css_dst md_path html_path Hstr Hparams Hcss Htemplate
    Hrender.
  assert (params !! "title"%string
          = Some (VStr ("Bandwidth test for polarimeter " +:+ pol_name)))
    as Htitle.
  { by apply build_dict_from_results_keys in Hparams as (_ & ? & _). }
  unfold main_report, create_report.
  fold template_path css_dst md_path html_path.
  unfold copyfile, read_file, write_file, lift, mbind, IO_bind.
  rewrite Hcss. destruct (open_error css_dst); [done|].
  rewrite Htemplate, Hrender. destruct (open_error md_path); [done|].
  rewrite Htitle, Hstr. by destruct (open_error html_path).
Qed.
End report_of_results.

Lemma main_report_has_title_witness :
  ∃ params st',
    build_dict_from_results "STRIP" 3600 example_status
      (fin 44) (fin 1) (fin 8) (fin 1) example_arrays = (Ok params, st') ∧
    main_report example_str "/opt/striptun" (λ t _, Ok t) id directory_exists
      params "out" example_files
    = (Ok (),
       <["out/bandwidth_report.html"%string
           := html_document ("Bandwidth test for polarimeter " +:+ "STRIP")
                            "# Bandwidth"]>
         (<["out/bandwidth_report.md"%string := "# Bandwidth"%string]>
            (<["out/report_style.css"%string := "body { }"%string]>
               example_files))) ∧
    main_report example_str "/opt/striptun" (λ t _, Ok t) id directory_missing
      params "no/such/dir" example_files
    = (Raise (FileNotFoundError "no/such/dir/report_style.css"),
       example_files).
Proof.
  destruct (build_dict_from_results_spec "STRIP" 3600 example_status
              (fin 44) (fin 1) (fin 8) (fin 1) example_arrays)
    as (params & Hrun & _);
    [split; [reflexivity | by repeat constructor]..|].
  eexists params, _. split; [exact Hrun|]. split.
  - eapply (main_report_has_title example_str "/opt/striptun" (λ t _, Ok t) id
             directory_exists
             "STRIP" 3600 example_status (fin 44) (fin 1) (fin 8) (fin 1)
             example_arrays _ params "out" example_files
             "body { }" "# Bandwidth" "# Bandwidth");
      [done | exact Hrun | reflexivity | reflexivity | reflexivity].
  - eapply (main_report_has_title example_str "/opt/striptun" (λ t _, Ok t) id
             directory_missing
             "STRIP" 3600 example_status (fin 44) (fin 1) (fin 8) (fin 1)
             example_arrays _ params "no/such/dir" example_files
             "body { }" "# Bandwidth" "# Bandwidth");
      [done | exact Hrun | reflexivity | reflexivity | reflexivity].
Defined.

(** ** More on main *)

Section main_values.
Context (np_sqrt : Q → Q).
Context (load_timestream : string → result (list Q * matrix)).

Lemma main_loop_results (polarimeter_name : string) (file_list : list string)
    (output_path : string) (files : list band_test) :
  main_loop np_sqrt load_timestream polarimeter_name file_list output_path
    = Ok files →
  Forall2 (λ file_name r,
             AnalyzeBandTest np_sqrt load_timestream
               polarimeter_name file_name output_path = Ok r)
          file_list files.
Proof. apply mapM_result_Forall2. Qed.

Lemma main_aggregation_nonempty (files : list band_test) (agg : aggregate) :
  main_aggregation files = Ok agg → ∃ r, last files = Some r.
Proof.
  destruct files as [|r0 files] using rev_ind; [done|]. intros _.
  exists r0. apply last_snoc.
Qed.

(** X22. [build_dict_from_results] cannot fail inside [main]: once the
    loop over the files and the aggregation have succeeded, [main]
    obtains the parameters of the report.  They hold the duration of the
    last file, in hours, the four final values of the aggregation, and
    for file [j] its status and the values of its four detectors, with 0
    for the blind one. *)
Theorem main_params_returns (polarimeter_name : string)
    (file_list : list string) (output_path : string)
    (files : list band_test) (agg : aggregate) :
  main_loop np_sqrt load_timestream polarimeter_name file_list output_path
    = Ok files →
  main_aggregation files = Ok agg →
  ∃ params st' r_last,
    main_params np_sqrt load_timestream polarimeter_name file_list output_path
      = Ok (params, st') ∧
    last files = Some r_last ∧
    params !! "test_duration"%string
      = Some (VFloat (fin (duration r_last / 60 / 60))) ∧
    params !! "final_central_nu"%string = Some (VFloat (final_central_nu agg)) ∧
    params !! "final_central_nu_err"%string
      = Some (VFloat (final_central_nu_err agg)) ∧
    params !! "final_bandwidth"%string = Some (VFloat (final_bandwidth agg)) ∧
    params !! "final_bandwidth_err"%string
      = Some (VFloat (final_bandwidth_err agg)) ∧
    ∀ j r, files !! j = Some r →
      params !! status_key j = Some (VStr (pss r)) ∧
      params !! file_key (pss r) j
      = Some (VDict (detectors (zero_blind (pss r) (central_nu_det r).1)
                               (zero_blind (pss r) (bandwidth_det r).1))).
Proof.
  intros Hloop Hagg. unfold main_params. rewrite Hloop.
  cbn [mbind result_bind]. rewrite Hagg. cbn [mbind result_bind].
  destruct (main_aggregation_nonempty files agg Hagg) as [r_last Hlast].
  rewrite Hlast. cbn [mbind result_bind].
  apply main_loop_results in Hloop.
  assert (Forall (λ r, length (central_nu_det r).1 = 4%nat ∧
                       length (bandwidth_det r).1 = 4%nat) files) as Hrows.
  { apply Forall_lookup. intros j r Hr.
    eapply Forall2_lookup_r in Hloop as (f & _ & Hf); [|exact Hr].
    by apply AnalyzeBandTest_ok_shape in Hf
      as (? & ? & _ & _ & _ & _ & _ & _ & _ & _ & _ & _ & ? & ? & _). }
  set (st := {| central_nu_tbl := _ |}).
  destruct (build_dict_from_results_spec polarimeter_name (duration r_last)
              (map pss files) (final_central_nu agg) (final_central_nu_err agg)
              (final_bandwidth agg) (final_bandwidth_err agg) st)
    as (params & Hrun & Hfiles).
  { subst st. cbn [central_nu_tbl bandwidth_tbl].
    split; [by rewrite !length_map|].
    apply Forall_fmap. eapply Forall_impl; [exact Hrows|]. by intros r [? ?]. }
  { subst st. cbn [central_nu_tbl bandwidth_tbl].
    split; [by rewrite !length_map|].
    apply Forall_fmap. eapply Forall_impl; [exact Hrows|]. by intros r [? ?]. }
  rewrite Hrun. eexists params, _, r_last. split; [done|]. split; [done|].
  pose proof (build_dict_from_results_keys _ _ _ _ _ _ _ _ _ _ Hrun)
    as (_ & _ & _ & ? & ? & ? & ? & ?).
  repeat (split; [done|]).
  intros j r Hr. apply (Hfiles j (pss r)); subst st;
    cbn [central_nu_tbl bandwidth_tbl]; by rewrite list_lookup_fmap, Hr.
Qed.

Lemma nrows_norm_data (polarimeter_name file_name output_path : string)
    (r : band_test) :
  AnalyzeBandTest np_sqrt load_timestream polarimeter_name file_name output_path
    = Ok r →
  nrows (norm_data r) = length (new_nu r).
Proof.
  intros (nu & data & _ & _ & _ & _ & _ & _ & _ & _ & L3 & Hcols & _)
    %AnalyzeBandTest_ok_shape.
  destruct (norm_data r) as [|c0 cs]; [done|].
  by apply Forall_cons in Hcols as [? _].
Qed.

(** X23. Two cases in which [main] fails before the report: without a
    file on the command line there is nothing to stack, and with two
    files that do not have the same number of distinct positive
    frequencies the normalized data cannot be stacked; [main] raises
    ValueError. *)
Theorem main_params_errors (polarimeter_name : string) (output_path : string) :
  main_params np_sqrt load_timestream polarimeter_name [] output_path
  = Raise (ValueError "need at least one array to concatenate") ∧
  ∀ file_list files r0 i ri,
    main_loop np_sqrt load_timestream polarimeter_name file_list output_path
      = Ok files →
    files !! 0%nat = Some r0 → files !! i = Some ri →
    length (new_nu ri) ≠ length (new_nu r0) →
    main_params np_sqrt load_timestream polarimeter_name file_list output_path
    = Raise (ValueError "all the input array dimensions except for the concatenation axis must match exactly").
Proof.
  split; [done|].
  intros file_list files r0 i ri Hloop H0 Hi Hne.
  unfold main_params. rewrite Hloop. cbn [mbind result_bind].
  apply main_loop_results in Hloop.
  unfold main_aggregation, column_stack.
  destruct files as [|r files]; [done|]. simplify_eq/=.
  rewrite decide_False; [done|].
  intros Hall. apply Hne.
  assert (nrows (norm_data ri) = nrows (norm_data r0)) as Heq.
  { rewrite Forall_forall in Hall. apply (Hall (norm_data ri)).
    change (norm_data ri ∈ map norm_data (r0 :: files)).
    apply list_elem_of_fmap. exists ri. split; [done|].
    by eapply list_elem_of_lookup_2. }
  pose proof Hloop as Hloop'.
  eapply Forall2_lookup_r in Hloop as (f & _ & Hf); [|exact Hi].
  eapply (Forall2_lookup_r _ _ _ 0) in Hloop' as (f0 & _ & Hf0); [|done].
  apply nrows_norm_data in Hf, Hf0. congruence.
Qed.
End main_values.

Lemma main_params_returns_witness :
  ∃ files agg,
    main_loop sqrt_6_digits example_load_2 "STRIP"
      ["sweep_0110.txt"; "sweep_0101.txt"]%string "out" = Ok files ∧
    main_aggregation files = Ok agg ∧
    ∃ params st' r_last,
      main_params sqrt_6_digits example_load_2 "STRIP"
        ["sweep_0110.txt"; "sweep_0101.txt"]%string "out" = Ok (params, st') ∧
      last files = Some r_last ∧
      params !! "test_duration"%string
        = Some (VFloat (fin (duration r_last / 60 / 60))) ∧
      params !! "final_central_nu"%string
        = Some (VFloat (final_central_nu agg)) ∧
      params !! "final_central_nu_err"%string
        = Some (VFloat (final_central_nu_err agg)) ∧
      params !! "final_bandwidth"%string = Some (VFloat (final_bandwidth agg)) ∧
      params !! "final_bandwidth_err"%string
        = Some (VFloat (final_bandwidth_err agg)) ∧
      ∀ j r, files !! j = Some r →
        params !! status_key j = Some (VStr (pss r)) ∧
        params !! file_key (pss r) j
        = Some (VDict (detectors (zero_blind (pss r) (central_nu_det r).1)
                                 (zero_blind (pss r) (bandwidth_det r).1))).
Proof.
  eexists _, _. split; [vm_compute; reflexivity|].
  split; [vm_compute; reflexivity|].
  apply (main_params_returns sqrt_6_digits example_load_2 "STRIP"
           ["sweep_0110.txt"; "sweep_0101.txt"]%string "out");
    vm_compute; reflexivity.
Defined.

Lemma main_params_errors_witness :
  main_params sqrt_6_digits example_load_3 "STRIP" [] "out"
  = Raise (ValueError "need at least one array to concatenate") ∧
  main_params sqrt_6_digits example_load_3 "STRIP"
    ["sweep_0110.txt"; "sweep_two.txt"]%string "out"
  = Raise (ValueError "all the input array dimensions except for the concatenation axis must match exactly").
Proof.
  split.
  - apply (main_params_errors sqrt_6_digits example_load_3 "STRIP" "out").
  - eapply (proj2 (main_params_errors sqrt_6_digits example_load_3
                     "STRIP" "out") _ _ _ 1%nat).
    + vm_compute. reflexivity.
    + reflexivity.
    + reflexivity.
    + by vm_compute.
Defined.

(** *** The final band *)

Lemma in_unit_numbers (l : list float) :
  Forall in_unit l →
  ∃ qs, l = map fin qs ∧ Forall (λ q, (-1 <= q)%Q ∧ (q <= 0)%Q) qs.
Proof.
  induction 1 as [|v l (q & -> & Hq) _ (qs & -> & Hqs)].
  - by exists [].
  - exists (q :: qs). split; [done|]. by constructor.
Qed.

Lemma default_in_range (s : list Q) (k : nat) :
  Forall (λ q, (-1 <= q)%Q ∧ (q <= 0)%Q) s →
  (-1 <= default 0 (s !! k))%Q ∧ (default 0 (s !! k) <= 0)%Q.
Proof.
  intros Hs. destruct (s !! k) as [q|] eqn:Hk; simpl; [|lra].
  by eapply Forall_lookup in Hs.
Qed.

Lemma median_sorted_in_range (s : list Q) :
  Forall (λ q, (-1 <= q)%Q ∧ (q <= 0)%Q) s →
  (-1 <= median_sorted s)%Q ∧ (median_sorted s <= 0)%Q.
Proof.
  intros Hs. unfold median_sorted.
  pose proof (default_in_range s (length s / 2) Hs) as [? ?].
  pose proof (default_in_range s (length s / 2 - 1) Hs) as [? ?].
  destruct (Nat.even (length s)); [|done].
  split; [apply Qle_shift_div_l | apply Qle_shift_div_r]; lra.
Qed.

Lemma percentile_sorted_in_range (q : Q) (s : list Q) :
  Forall (λ q, (-1 <= q)%Q ∧ (q <= 0)%Q) s →
  StronglySorted Qle s → s ≠ [] → (0 <= q)%Q → (q <= 100)%Q →
  (-1 <= percentile_sorted q s)%Q ∧ (percentile_sorted q s <= 0)%Q.
Proof.
  intros Hs Hsorted Hne H0 H100.
  destruct (percentile_sorted_between q s Hsorted Hne H0 H100)
    as (a & b & Ha & Hb & Hpa & Hpb).
  rewrite Forall_lookup in Hs.
  pose proof (Hs _ _ Ha) as Ra. pose proof (Hs _ _ Hb) as Rb.
  cbn beta in Ra, Rb. split; lra.
Qed.

(** The median and the half spread of normalized values. *)
Lemma np_median_in_unit (row : list float) :
  row ≠ [] → Forall in_unit row → in_unit (np_median row).
Proof.
  intros Hne (qs & -> & Hqs)%in_unit_numbers.
  rewrite np_median_fin by (by destruct qs).
  eexists. split; [done|].
  apply median_sorted_in_range. by apply sort_Forall.
Qed.

Lemma half_spread_in_unit (hi lo : Q) (row : list float) :
  (0 <= lo)%Q → (lo <= hi)%Q → (hi <= 100)%Q →
  row ≠ [] → Forall in_unit row →
  ∃ e, half_spread hi lo row = fin e ∧ (0 <= e)%Q ∧ (e <= 1 # 2)%Q.
Proof.
  intros H0 Hlh H100 Hne (qs & -> & Hqs)%in_unit_numbers.
  assert (qs ≠ []) as Hne' by (by destruct qs).
  unfold half_spread, np_percentile. rewrite finite_fin.
  cbn [mbind option_bind]. rewrite !decide_False by done.
  eexists. split; [reflexivity|].
  pose proof (sort_sorted qs) as Hsorted.
  pose proof (sort_nonempty qs Hne') as Hne''.
  pose proof (sort_Forall _ qs Hqs) as Hrange.
  pose proof (percentile_sorted_mono lo hi (sort qs) Hsorted Hne'' H0 Hlh H100).
  destruct (percentile_sorted_in_range hi (sort qs)); [done.. | lra | done|].
  destruct (percentile_sorted_in_range lo (sort qs)); [done.. | lra|].
  split; [apply Qle_shift_div_l | apply Qle_shift_div_r]; lra.
Qed.

Lemma rows_in_unit (m : matrix) (N : nat) :
  Forall (λ c, length c = N ∧ Forall in_unit c) m →
  Forall (λ row, row ≠ [] ∧ Forall in_unit row) (rows m).
Proof.
  intros Hm. unfold rows. apply Forall_fmap, Forall_forall.
  intros i [_ Hi]%elem_of_seq. simpl in Hi.
  destruct m as [|c0 m]; [simpl in Hi; lia|].
  split; [done|]. unfold row. apply Forall_fmap.
  pose proof Hm as [[L0 _] _]%Forall_cons. cbn [nrows] in Hi.
  eapply Forall_impl; [exact Hm|]. intros c [Lc Hc]. simpl.
  destruct (lookup_lt_is_Some_2 c i) as [v Hv]; [lia|].
  rewrite Hv. simpl. by eapply Forall_lookup in Hc.
Qed.

Lemma main_aggregation_bands (files : list band_test) (agg : aggregate) :
  main_aggregation files = Ok agg →
  final_band agg = map np_median (rows (concat (map norm_data files))) ∧
  final_band_err agg
  = map (half_spread (977 # 10) (27 # 10))
        (rows (concat (map norm_data files))).
Proof.
  unfold main_aggregation.
  destruct (column_stack (map norm_data files)) as [All|] eqn:Hstack;
    cbn [mbind result_bind]; [|done].
  assert (All = concat (map norm_data files)) as ->.
  { unfold column_stack in Hstack. destruct (map norm_data files); [done|].
    case_decide; by simplify_eq. }
  destruct (get_central_nu_bandwidth _ (Arr2 (concat _))) as [mo|];
    cbn [mbind result_bind]; [|done].
  destruct (moment_arrays mo) as [cs bs].
  destruct (get_central_nu_bandwidth _ _) as [mo'|];
    cbn [mbind result_bind]; [|done].
  destruct (moment_arrays mo') as [c b]. by intros [= <-].
Qed.

(** X24. The final band of [main] stays in the range of the normalized
    data: when every normalized value of every file is a number of the
    interval [-1, 0], every value of the final band, a median over the
    detectors of all files, is a number of [-1, 0], and every value of
    its uncertainty, half the spread between two percentiles, is a
    number of [0, 1/2]. *)
Theorem final_band_within_range (files : list band_test) (agg : aggregate)
    (N : nat) :
  Forall (λ c, length c = N ∧ Forall in_unit c) (concat (map norm_data files)) →
  main_aggregation files = Ok agg →
  Forall in_unit (final_band agg) ∧
  Forall (λ v, ∃ e, v = fin e ∧ (0 <= e)%Q ∧ (e <= 1 # 2)%Q)
         (final_band_err agg).
Proof.
  intros Hunit [-> ->]%main_aggregation_bands.
  apply rows_in_unit in Hunit.
  split; apply Forall_fmap; (eapply Forall_impl; [exact Hunit|]);
    intros row [Hne Hrow]; simpl.
  - by apply np_median_in_unit.
  - apply half_spread_in_unit; try done; by vm_compute.
Qed.

Lemma final_band_within_range_witness :
  ∃ agg,
    main_aggregation example_results = Ok agg ∧
    Forall in_unit (final_band agg) ∧
    Forall (λ v, ∃ e, v = fin e ∧ (0 <= e)%Q ∧ (e <= 1 # 2)%Q)
           (final_band_err agg).
Proof.
  assert (∃ agg, main_aggregation example_results = Ok agg) as [agg Hagg]
    by (eexists; vm_compute; reflexivity).
  exists agg. split; [exact Hagg|].
  apply (final_band_within_range example_results agg 3); [|exact Hagg].
  let l := eval vm_compute in (concat (map norm_data example_results)) in
  assert (concat (map norm_data example_results) = l) as ->
    by (vm_compute; reflexivity).
  repeat (apply Forall_cons; split;
          [split; [reflexivity|];
           repeat (apply Forall_cons; split;
                   [eexists; split; [reflexivity|]; split; by vm_compute|]);
           apply Forall_nil_2|]).
  apply Forall_nil_2.
Defined.

(** ** The plot files *)

Lemma string_app_cons (x : ascii) (a b : string) :
  String x a +:+ b = String x (a +:+ b).
Proof. reflexivity. Qed.

Lemma string_app_assoc (a b c : string) : (a +:+ b) +:+ c = a +:+ (b +:+ c).
Proof.
  induction a as [|x a IH]; [done|].
  by rewrite !string_app_cons, IH.
Qed.

Lemma string_length_app (a b : string) :
  String.length (a +:+ b) = (String.length a + String.length b)%nat.
Proof.
  induction a as [|x a IH]; [done|].
  rewrite string_app_cons. simpl. by rewrite IH.
Qed.

Lemma string_app_inj_r (a b s : string) : a +:+ s = b +:+ s → a = b.
Proof.
  revert b. induction a as [|x a IH]; intros [|y b] Heq.
  - done.
  - apply (f_equal String.length) in Heq.
    change (String.length s = S (String.length (b +:+ s))) in Heq.
    rewrite string_length_app in Heq. lia.
  - apply (f_equal String.length) in Heq.
    change (S (String.length (a +:+ s)) = String.length s) in Heq.
    rewrite string_length_app in Heq. lia.
  - rewrite !string_app_cons in Heq. injection Heq as -> Heq.
    by rewrite (IH _ Heq).
Qed.

Lemma path_join_relative (a : string) (c : ascii) (s : string) :
  c ≠ "/"%char →
  path_join a (String c s)
  = if bool_decide (a = EmptyString) || ends_with_slash a
    then a +:+ String c s else a +:+ "/" +:+ String c s.
Proof.
  intros Hc. unfold path_join.
  destruct c as [[] [] [] [] [] [] [] []]; done.
Qed.

(** In one directory, two names with the same beginning are the same
    file only if they are the same name. *)
Lemma path_join_inj (a name b b' : string) :
  path_join a (name +:+ String "_" b) = path_join a (name +:+ String "_" b') →
  b = b'.
Proof.
  intros Heq.
  assert (name +:+ String "_" b = name +:+ String "_" b') as Hname.
  { destruct name as [|c name].
    - change (path_join a (String "_" b) = path_join a (String "_" b')) in Heq.
      rewrite !path_join_relative in Heq by done.
      destruct (_ || _); apply (inj (String.app a)) in Heq; [done|].
      by apply (inj (String.app "/")) in Heq.
    - rewrite !string_app_cons in *.
      destruct (decide (c = "/"%char)) as [->|Hc]; [done|].
      rewrite !path_join_relative in Heq by done.
      destruct (_ || _); apply (inj (String.app a)) in Heq; [done|].
      by apply (inj (String.app "/")) in Heq. }
  apply (inj (String.app name)) in Hname. by simplify_eq.
Qed.

Lemma plot_name_tail (polarimeter_name output_path tail : string) :
  plot_file_path output_path (polarimeter_name +:+ "_RFtest_" +:+ tail)
  = path_join output_path
      (polarimeter_name +:+ String "_" ("RFtest_" +:+ tail +:+ ".svg")).
Proof. unfold plot_file_path. by rewrite !string_app_assoc. Qed.

Lemma plot_file_path_inj (polarimeter_name output_path tail tail' : string) :
  plot_file_path output_path (polarimeter_name +:+ "_RFtest_" +:+ tail)
  = plot_file_path output_path (polarimeter_name +:+ "_RFtest_" +:+ tail') →
  tail = tail'.
Proof.
  rewrite !plot_name_tail. intros Heq%path_join_inj.
  apply (inj (String.app "RFtest_")) in Heq. by apply string_app_inj_r in Heq.
Qed.

(** X25. The plots of [main] never overwrite one another: for every
    name of the polarimeter, every output directory and all statuses of
    the files, the plot files that [main] saves, one preliminary plot per
    file and the two final plots, are pairwise distinct. *)
Theorem main_plot_files_distinct (polarimeter_name output_path : string)
    (PSStatus : list string) :
  NoDup (main_plot_files polarimeter_name output_path PSStatus) ∧
  length (main_plot_files polarimeter_name output_path PSStatus)
  = (length PSStatus + 2)%nat.
Proof.
  split; [|unfold main_plot_files;
           by rewrite length_map, length_app, length_imap].
  assert (∀ k p,
            main_plot_files polarimeter_name output_path PSStatus !! k = Some p →
            ∃ tail, p = plot_file_path output_path
                          (polarimeter_name +:+ "_RFtest_" +:+ tail) ∧
                    (((k < length PSStatus)%nat ∧
                      ∃ pss, tail = pss +:+ String "_" (pretty k)) ∨
                     (k = length PSStatus ∧ tail = "AllDetNorm"%string) ∨
                     (k = S (length PSStatus) ∧ tail = "FinalBand"%string)))
    as Hfiles.
  { intros k p Hp. unfold main_plot_files in Hp.
    apply list_lookup_fmap_Some in Hp as (name & -> & Hname).
    apply lookup_app_Some in Hname as [Hname|[Hk Hname]].
    - apply list_lookup_imap_Some in Hname as (pss & Hpss & ->).
      exists (pss +:+ String "_" (pretty k)). split; [done|]. left.
      split; [by eapply lookup_lt_Some | by exists pss].
    - rewrite length_imap in Hk, Hname.
      destruct (k - length PSStatus)%nat as [|[|n]] eqn:E; simplify_eq/=.
      + exists "AllDetNorm"%string. split; [done|]. right. left.
        split; [lia | done].
      + exists "FinalBand"%string. split; [done|]. right. right.
        split; [lia | done]. }
  apply NoDup_alt. intros k k' p Hk Hk'.
  destruct (Hfiles k p Hk) as (tail & -> & Hcase).
  destruct (Hfiles k' _ Hk') as (tail' & Heq & Hcase').
  apply plot_file_path_inj in Heq. subst tail'.
  destruct Hcase as [[Hlt [pss ->]]|[[-> ->]|[-> ->]]],
    Hcase' as [[Hlt' [pss' Heq]]|[[-> Heq]|[-> Heq]]]; try done; try lia.
  - apply underscore_suffix_inj in Heq as [_ Heq];
      [by apply (inj pretty) in Heq | apply pretty_nat_no_underscore..].
  - exfalso. apply (no_underscore_app pss (pretty k)). rewrite Heq.
    by repeat split.
  - exfalso. apply (no_underscore_app pss (pretty k)). rewrite Heq.
    by repeat split.
  - exfalso. apply (no_underscore_app pss' (pretty k')). rewrite <- Heq.
    by repeat split.
  - exfalso. apply (no_underscore_app pss' (pretty k')). rewrite <- Heq.
    by repeat split.
Qed.

(** *** Calling [build_dict_from_results] again *)

Lemma zero_blind_idemp (pss : string) (row : list float) :
  zero_blind pss (zero_blind pss row) = zero_blind pss row.
Proof.
  unfold zero_blind. destruct (blind_detector pss); [|done].
  apply list_insert_insert_eq.
Qed.

Lemma zero_blind_length (pss : string) (row : list float) :
  length (zero_blind pss row) = length row.
Proof.
  unfold zero_blind. destruct (blind_detector pss); [|done].
  apply length_insert.
Qed.

Lemma zero_rows_lookup (l : list string) (t : table) (j : nat) :
  zero_rows 0 l t !! j
  = match l !! j with
    | Some pss => zero_blind pss <$> t !! j
    | None => t !! j
    end.
Proof.
  destruct (l !! j) as [pss|] eqn:Hj.
  - apply (zero_rows_inside l 0 j t pss Hj).
  - apply zero_rows_outside. apply lookup_ge_None in Hj. lia.
Qed.

Lemma zero_rows_idemp (l : list string) (t : table) :
  zero_rows 0 l (zero_rows 0 l t) = zero_rows 0 l t.
Proof.
  apply list_eq. intros j. rewrite !zero_rows_lookup.
  destruct (l !! j) as [pss|]; [|done].
  destruct (t !! j) as [row|]; [|done]. simpl. by rewrite zero_blind_idemp.
Qed.

Lemma zero_rows_of_four (l : list string) (t : table) :
  rows_of_four l t → rows_of_four l (zero_rows 0 l t).
Proof.
  intros [Hlen Hrows]. split; [by rewrite zero_rows_length|].
  apply Forall_lookup. intros j row Hrow. rewrite zero_rows_lookup in Hrow.
  rewrite Forall_lookup in Hrows.
  destruct (l !! j) as [pss|].
  - apply fmap_Some in Hrow as (row' & Hrow' & ->).
    rewrite zero_blind_length. by eapply Hrows.
  - by eapply Hrows.
Qed.

Lemma file_keys_elem_of (PSStatus : list string) (key : string) :
  key ∈ file_keys PSStatus ↔
  ∃ j pss, PSStatus !! j = Some pss ∧
           (key = status_key j ∨ key = file_key pss j).
Proof.
  unfold file_keys. rewrite list_elem_of_join. split.
  - intros (ks & Hkey & Hks).
    apply list_elem_of_lookup_1 in Hks as [j Hj].
    apply list_lookup_imap_Some in Hj as (pss & Hpss & ->).
    exists j, pss. split; [done|].
    apply elem_of_cons in Hkey as [->|Hkey]; [by left|].
    apply list_elem_of_singleton in Hkey as ->. by right.
  - intros (j & pss & Hpss & Hkey).
    exists [status_key j; file_key pss j]. split.
    + destruct Hkey as [-> | ->]; [by left | right; by left].
    + eapply list_elem_of_lookup_2.
      apply list_lookup_imap_Some. by exists pss.
Qed.

(** X26. Calling [build_dict_from_results] again on the arrays that a
    first call has left changes nothing: for arrays of one row of four
    values per file, the second call returns the same mapping as the
    first and leaves the arrays as the first call left them. *)
Theorem build_dict_from_results_idempotent (pol_name : string) (duration : Q)
    (PSStatus : list string) (fc fce fb fbe : float) (st : arrays) :
  rows_of_four PSStatus (central_nu_tbl st) →
  rows_of_four PSStatus (bandwidth_tbl st) →
  ∃ results st',
    build_dict_from_results pol_name duration PSStatus fc fce fb fbe st
      = (Ok results, st') ∧
    build_dict_from_results pol_name duration PSStatus fc fce fb fbe st'
      = (Ok results, st').
Proof.
  intros Hcn Hbw. unfold build_dict_from_results.
  set (results0 := <["final_bandwidth_err"%string := _]> _).
  edestruct (files_loop_spec PSStatus 0 results0 st)
    as (results & Hrun & Hfiles & Hother).
  { intros k Hk.
    destruct (rows_of_four_lookup _ _ k Hcn Hk) as (r1 & ? & ?).
    destruct (rows_of_four_lookup _ _ k Hbw Hk) as (r2 & ? & ?).
    by exists r1, r2. }
  set (st' := {| central_nu_tbl := zero_rows 0 PSStatus (central_nu_tbl st);
                 bandwidth_tbl := zero_rows 0 PSStatus (bandwidth_tbl st) |})
    in *.
  pose proof (zero_rows_of_four _ _ Hcn) as Hcn'.
  pose proof (zero_rows_of_four _ _ Hbw) as Hbw'.
  edestruct (files_loop_spec PSStatus 0 results0 st')
    as (results' & Hrun' & Hfiles' & Hother').
  { intros k Hk.
    destruct (rows_of_four_lookup _ _ k Hcn' Hk) as (r1 & ? & ?).
    destruct (rows_of_four_lookup _ _ k Hbw' Hk) as (r2 & ? & ?).
    by exists r1, r2. }
  exists results, st'. split; [exact Hrun|].
  rewrite Hrun'. subst st'. cbn [central_nu_tbl bandwidth_tbl].
  rewrite !zero_rows_idemp. f_equal. f_equal.
  apply map_eq. intros key.
  destruct (decide (key ∈ file_keys PSStatus)) as [Hkey|Hkey].
  - apply file_keys_elem_of in Hkey as (j & pss & Hj & Hkey).
    assert (j < length PSStatus)%nat as Hlt by (by eapply lookup_lt_Some).
    destruct (rows_of_four_lookup _ _ j Hcn Hlt) as (r1 & H1 & _).
    destruct (rows_of_four_lookup _ _ j Hbw Hlt) as (r2 & H2 & _).
    destruct (Hfiles j pss r1 r2 Hj H1 H2) as [Hs Hf].
    destruct (Hfiles' j pss (zero_blind pss r1) (zero_blind pss r2) Hj)
      as [Hs' Hf'].
    { simpl. by rewrite zero_rows_lookup, Hj, H1. }
    { simpl. by rewrite zero_rows_lookup, Hj, H2. }
    rewrite !zero_blind_idemp in Hf'. simpl in *.
    destruct Hkey as [-> | ->]; congruence.
  - rewrite Hother, Hother'; [done|..];
      intros k pss Hk; simpl; split; intros ->; apply Hkey;
      apply file_keys_elem_of; exists k, pss; auto.
Qed.

Lemma build_dict_from_results_idempotent_witness :
  ∃ results st',
    build_dict_from_results "STRIP" 3600 example_status
      (fin 44) (fin 1) (fin 8) (fin 1) example_arrays = (Ok results, st') ∧
    build_dict_from_results "STRIP" 3600 example_status
      (fin 44) (fin 1) (fin 8) (fin 1) st' = (Ok results, st').
Proof.
  apply build_dict_from_results_idempotent;
    (split; [reflexivity | by repeat constructor]).
Defined.

(** *** The final values *)

(** The two calls of [get_central_nu_bandwidth] in the aggregation, on
    the frequency axis of the last file. *)
Lemma main_aggregation_moments (files : list band_test) (agg : aggregate) :
  main_aggregation files = Ok agg →
  ∃ r mo mo',
    last files = Some r ∧
    get_central_nu_bandwidth (new_nu r)
      (Arr2 (concat (map norm_data files))) = Ok mo ∧
    All_central_nu agg = (moment_arrays mo).1 ∧
    All_bandwidth agg = (moment_arrays mo).2 ∧
    get_central_nu_bandwidth (new_nu r) (Arr2 [final_band agg]) = Ok mo' ∧
    final_central_nu agg = default nan ((moment_arrays mo').1 !! 0%nat) ∧
    final_bandwidth agg = default nan ((moment_arrays mo').2 !! 0%nat).
Proof.
  intros Hagg.
  destruct (main_aggregation_nonempty files agg Hagg) as [r Hlast].
  unfold main_aggregation in Hagg. rewrite Hlast in Hagg.
  cbn [fmap option_fmap option_map default from_option id] in Hagg.
  destruct (column_stack (map norm_data files)) as [All|] eqn:Hstack;
    cbn [mbind result_bind] in Hagg; [|done].
  assert (All = concat (map norm_data files)) as ->.
  { unfold column_stack in Hstack. destruct (map norm_data files); [done|].
    case_decide; by simplify_eq. }
  destruct (get_central_nu_bandwidth _ (Arr2 (concat _))) as [mo|] eqn:Hmo;
    cbn [mbind result_bind] in Hagg; [|done].
  destruct (moment_arrays mo) as [cs bs] eqn:Hcs.
  destruct (get_central_nu_bandwidth _ (Arr2 [_])) as [mo'|] eqn:Hmo';
    cbn [mbind result_bind] in Hagg; [|done].
  destruct (moment_arrays mo') as [c b] eqn:Hc.
  injection Hagg as <-. cbn.
  exists r, mo, mo'. rewrite Hcs, Hc. done.
Qed.

Lemma half_spread_single (hi lo x : Q) :
  (0 <= lo)%Q → (lo <= 100)%Q → (0 <= hi)%Q → (hi <= 100)%Q →
  feq (half_spread hi lo [fin x]) (fin 0).
Proof.
  intros ????. unfold half_spread, np_percentile.
  change (finite [fin x]) with (Some [x]). cbn [mbind option_bind].
  rewrite !decide_False by done.
  change (sort [x]) with [x].
  change ((percentile_sorted hi [x] - percentile_sorted lo [x]) / 2 == 0)%Q.
  rewrite !(percentile_sorted_constant _ x [x]); try done;
    try (by repeat constructor).
  field.
Qed.

(** X27. The aggregation inherits the defect of the square matrix: when
    the normalized data of all files together have as many columns as
    frequencies (one file with three frequencies, two files with six),
    [All_central_nu] and [All_bandwidth] have a single entry instead of
    one per detector, and the uncertainties of the final central
    frequency and of the final bandwidth are 0 whatever the data are, as
    long as that entry is a number. *)
Theorem aggregation_square_defect (files : list band_test) (agg : aggregate) :
  main_aggregation files = Ok agg →
  length (concat (map norm_data files))
  = nrows (concat (map norm_data files)) →
  ∃ c b, All_central_nu agg = [c] ∧ All_bandwidth agg = [b] ∧
         (c ≠ nan → feq (final_central_nu_err agg) (fin 0)) ∧
         (b ≠ nan → feq (final_bandwidth_err agg) (fin 0)).
Proof.
  intros Hagg Hsq.
  destruct (main_aggregation_spreads files agg Hagg) as (_ & -> & ->).
  apply main_aggregation_moments in Hagg
    as (r & mo & mo' & _ & Hmo & -> & -> & _).
  destruct (get_central_nu_bandwidth_ok _ _ _ Hmo) as [HN Hu].
  destruct (get_central_nu_bandwidth_uniform _
              (Arr2 (concat (map norm_data files))) HN Hu)
    as (step & _ & Hmo'').
  rewrite Hmo'' in Hmo. clear Hmo''. rewrite decide_True in Hmo by done.
  unfold moments_3d in Hmo. case_decide; [|done]. injection Hmo as <-.
  eexists _, _. split; [done|]. split; [done|]. cbn [moment_arrays fst snd].
  split; intros Hnum.
  - destruct (fdiv _ _) as [x|]; [|done].
    apply half_spread_single; by vm_compute.
  - destruct (fdiv (fmul _ _) _) as [x|]; [|done].
    apply half_spread_single; by vm_compute.
Qed.

Lemma aggregation_square_defect_witness :
  ∃ agg, main_aggregation example_single = Ok agg ∧
  ∃ c b, All_central_nu agg = [c] ∧ All_bandwidth agg = [b] ∧
         (c ≠ nan → feq (final_central_nu_err agg) (fin 0)) ∧
         (b ≠ nan → feq (final_bandwidth_err agg) (fin 0)).
Proof.
  assert (∃ agg, main_aggregation example_single = Ok agg) as [agg Hagg]
    by (eexists; vm_compute; reflexivity).
  exists agg. split; [exact Hagg|].
  apply (aggregation_square_defect example_single agg); [exact Hagg|].
  by vm_compute.
Defined.

